(** * apn_search: a shallow embedding of the update pipeline

    The development follows the layout of the package:

    - [Py]          the Python values, exceptions and log records the code
                    manipulates;
    - [Indexes]     [apn_search/utils/indexes.py]   (identifier parsing);
    - [Mappings]    [apn_search/utils/mappings.py]  ([find_conflicts]);
    - [Backend]     [apn_search/backends/elasticsearch_backend.py];
    - [Update]      [apn_search/update.py] and the index policy of
                    [apn_search/indexes.py];
    - [Consume]     [apn_search/consume.py];
    - [Scenarios]   concrete deployments on which the code is run;
    - [Options]     [apn_search/options.py];
    - [Signals]     [apn_search/signals.py];
    - [Engine]      [remove], [clear] and [search] of the backend;
    - [IndexName]   [get_index_name] of [apn_search/indexes.py];
    - [Query]       [get_django_ids] of [apn_search/query.py];
    - [CleanIndex]  [apn_search/management/commands/clean_index.py];
    - [Shell]       [apn_search/utils/shell.py];
    - [MoreScenarios] further deployments.

    The facts about each module follow the definitions, in modules of
    their own.

    Dictionaries are finite maps ([gmap]), sets are [gset]; code that raises
    returns in [res]; code with side effects threads a state that records the
    calls made to the collaborators (queue, engine, logger) in order. *)

From Stdlib Require Import ZArith Ascii String List Bool Lia.
From stdpp Require Import base option list strings gmap fin_maps fin_sets
  pretty.

Import ListNotations.
Local Open Scope string_scope.
Set Warnings "-register-all".

(* ===================================================================== *)
(** * Python values, exceptions, results                                  *)
(* ===================================================================== *)

Module Py.

(** Scalars found in schema descriptors and messages. *)
Inductive pyval :=
  | PNone
  | PBool (b : bool)
  | PInt (z : Z)
  | PStr (s : string).

#[global] Instance pyval_eq_dec : EqDecision pyval.
Proof. solve_decision. Defined.

(** Python's [==] on scalars: [bool] is a subclass of [int], so
    [True == 1] and [False == 0]; values of unrelated types differ. *)
Definition as_int (v : pyval) : option Z :=
  match v with
  | PBool true => Some 1%Z
  | PBool false => Some 0%Z
  | PInt z => Some z
  | _ => None
  end.

Definition py_eq (a b : pyval) : bool :=
  match as_int a, as_int b with
  | Some x, Some y => Z.eqb x y
  | None, None =>
      match a, b with
      | PNone, PNone => true
      | PStr s, PStr t => String.eqb s t
      | _, _ => false
      end
  | _, _ => false
  end.

(** [x in (a, b, ...)] on a tuple. *)
Definition py_in (x : pyval) (t : list pyval) : bool := existsb (py_eq x) t.

(** [set(a) == set(b)] for sets given by their elements: mutual inclusion
    up to [==]. *)
Definition pyset_eq (a b : list pyval) : bool :=
  forallb (fun x => py_in x b) a && forallb (fun y => py_in y a) b.

(** Structured data: what [pickle.loads] or the engine's JSON decoder
    returns. *)
Inductive json :=
  | JAtom (v : pyval)
  | JList (l : list json)
  | JDict (d : gmap string json).

(** [d.get(k)] on a dictionary of scalars. *)
Definition dict_get (d : gmap string pyval) (k : string) : pyval :=
  default PNone (d !! k).

(** The exception classes the package names, raises or catches. All of them
    derive from [Exception]; [HTTPError], [ConnectionError] and [Timeout]
    derive from [requests.RequestException]. [OtherException name] is a
    class that derives from none of the classes named here;
    [Subclass name bases] is a class with the given direct base classes,
    such as django's [IntegrityError],
    [Subclass "IntegrityError" [DatabaseError]]. *)
Inductive exn_class :=
  | HTTPError
  | ConnectionError
  | Timeout
  | RequestException
  | DatabaseError
  | ElasticSearchError
  | HaystackError
  | KeyError
  | ValueError
  | TypeError
  | AttributeError
  | OtherException (name : string)
  | Subclass (name : string) (bases : list exn_class).

#[global] Instance exn_class_eq_dec : EqDecision exn_class.
Proof.
  unfold EqDecision. fix go 1. intros x y.
  destruct x, y; try (right; discriminate); try (left; reflexivity).
  - destruct (decide (name = name0)); [left; congruence | right; congruence].
  - destruct (decide (name = name0)); [|right; congruence].
    destruct (@list_eq_dec _ go bases bases0);
      [left; congruence | right; congruence].
Defined.

(** [issubclass(c, target)]: the class itself, or one of its ancestors. *)
Fixpoint derives (c target : exn_class) : bool :=
  bool_decide (c = target)
  || match c with
     | HTTPError | ConnectionError | Timeout =>
         bool_decide (target = RequestException)
     | Subclass _ bases => existsb (fun base => derives base target) bases
     | _ => false
     end.

(** An exception instance: its class, and the message kept as the format
    string with the values substituted into it. *)
Record exn := Exn {
  exn_cls : exn_class;
  exn_fmt : string;
  exn_args : list pyval
}.

#[global] Instance exn_eq_dec : EqDecision exn.
Proof. solve_decision. Defined.

(** [isinstance(e, c)], the test of [except c]: the class of [e] is [c] or
    derives from it. *)
Definition is_class (c : exn_class) (e : exn) : bool :=
  derives (exn_cls e) c.

(** [isinstance(e, requests.RequestException)] *)
Definition is_request_exception (e : exn) : bool :=
  is_class RequestException e.

(** A computation that returns or raises. *)
Inductive res (A : Type) :=
  | Ok (a : A)
  | Raise (e : exn).
Arguments Ok {A} a.
Arguments Raise {A} e.

Definition is_ok {A} (r : res A) : bool :=
  match r with Ok _ => true | Raise _ => false end.

Definition res_bind {A B} (r : res A) (k : A -> res B) : res B :=
  match r with
  | Ok a => k a
  | Raise e => Raise e
  end.

(** Log records: severity, format string, substituted values, and the
    keyword flags the call passed. *)
Inductive level := Info | Warning | Error | Critical.

#[global] Instance level_eq_dec : EqDecision level.
Proof. solve_decision. Defined.

Inductive logarg :=
  | LVal (v : pyval)
  | LJson (j : json)
  | LExn (e : exn).

Record log_record := LogRecord {
  log_level : level;
  log_fmt : string;
  log_args : list logarg;
  log_exc_info : bool
}.

End Py.

Import Py.

(* ===================================================================== *)
(** * apn_search/utils/indexes.py                                         *)
(* ===================================================================== *)

Module Indexes.

(** [s.split(sep, maxsplit)] for a one-character separator: cut at the
    first [maxsplit] occurrences of [sep], left to right; the last piece
    keeps every later occurrence. *)
Fixpoint split (sep : ascii) (maxsplit : nat) (s : string) : list string :=
  match s with
  | EmptyString => [EmptyString]
  | String c rest =>
      match maxsplit with
      | O => [s]
      | S m =>
          if Ascii.eqb c sep then EmptyString :: split sep m rest
          else
            match split sep maxsplit rest with
            | [] => [String c EmptyString]
            | piece :: pieces => String c piece :: pieces
            end
      end
  end.

(** [sep.join(pieces)] *)
Fixpoint join (sep : ascii) (pieces : list string) : string :=
  match pieces with
  | [] => EmptyString
  | [p] => p
  | p :: ps => p +:+ String sep (join sep ps)
  end.

Definition dot : ascii := "."%char.

(** The tuple unpacking of [_get_model] (the rest of the function, which
    asks the content types, is in [Update]):
    [app_label, model, object_pk = identifier.split('.', 2)];
    anything but three pieces is a [ValueError]. *)
Definition split_identifier (identifier : string)
  : res (string * string * string) :=
  match split dot 2 identifier with
  | [app_label; model; object_pk] => Ok (app_label, model, object_pk)
  | pieces =>
      Raise (Exn ValueError
               (if Nat.ltb (length pieces) 3
                then "need more than %d values to unpack"
                else "too many values to unpack")
               [PInt (Z.of_nat (length pieces))])
  end.

(** The identifier of an entity as the package writes it everywhere:
    ["<app_label>.<model>.<pk>"]. *)
Definition identifier_string (app_label model object_pk : string) : string :=
  app_label +:+ String dot (model +:+ String dot object_pk).

Definition rebuild (t : string * string * string) : string :=
  let '(app_label, model, object_pk) := t in
  identifier_string app_label model object_pk.

(** Number of separators in a string. *)
Fixpoint count_sep (sep : ascii) (s : string) : nat :=
  match s with
  | EmptyString => 0
  | String c rest => (if Ascii.eqb c sep then 1 else 0) + count_sep sep rest
  end.

End Indexes.

(* ===================================================================== *)
(** * Code with effects: a state and exception monad                      *)
(* ===================================================================== *)

Module Eff.

(** A computation over a mutable state [S] that returns or raises. The
    state changes made before an exception is raised stay made, as in
    Python. *)
Definition M (S A : Type) : Type := S -> res A * S.

Definition ret {S A} (a : A) : M S A := fun s => (Ok a, s).

Definition raise {S A} (e : exn) : M S A := fun s => (Raise e, s).

Definition bind {S A B} (m : M S A) (k : A -> M S B) : M S B :=
  fun s =>
    match m s with
    | (Ok a, s') => k a s'
    | (Raise e, s') => (Raise e, s')
    end.

(** [try: body except Exception as e: handler(e)] *)
Definition try_except {S A} (body : M S A) (handler : exn -> M S A) : M S A :=
  fun s =>
    match body s with
    | (Ok a, s') => (Ok a, s')
    | (Raise e, s') => handler e s'
    end.

Definition lift {S A} (r : res A) : M S A := fun s => (r, s).

Definition gets {S A} (f : S -> A) : M S A := fun s => (Ok (f s), s).

Definition modify {S} (f : S -> S) : M S unit := fun s => (Ok tt, f s).

Declare Scope eff_scope.
Delimit Scope eff_scope with eff.

Notation "x <- c ;; k" := (bind c (fun x => k))
  (at level 100, c at next level, right associativity) : eff_scope.
Notation "c ;;; k" := (bind c (fun _ => k))
  (at level 100, right associativity) : eff_scope.

(** [for x in xs: body(x)] *)
Fixpoint for_each {S A} (xs : list A) (body : A -> M S unit) : M S unit :=
  match xs with
  | [] => ret tt
  | x :: rest => bind (body x) (fun _ => for_each rest body)
  end.

(** Unfolding of the combinators, to run a computation in a proof. *)
Ltac run :=
  unfold bind, try_except, lift, gets, modify, ret, raise in *; simpl in *.

End Eff.

Import Eff.
Local Open Scope eff_scope.

(** [d[k]]: subscripting a dictionary raises [KeyError] on a missing key. *)
Definition subscript {V} (d : gmap string V) (k : string) : res V :=
  match d !! k with
  | Some v => Ok v
  | None => Raise (Exn KeyError "%r" [PStr k])
  end.

(* ===================================================================== *)
(** * apn_search/utils/mappings.py                                        *)
(* ===================================================================== *)

Module Mappings.

(** A field descriptor, e.g. [{'type': 'string', 'store': 'yes'}]. *)
Abbreviation descriptor := (gmap string pyval).
(** Field name to descriptor: the value under ['properties']. *)
Abbreviation properties := (gmap string (gmap string pyval)).
(** A mapping as the engine holds it:
    [{'modelresult': {'properties': {...}}}]. *)
Abbreviation mappings := (gmap string (gmap string (gmap string (gmap string pyval)))).

(** [EQUIVALENT_VALUES = tuple(set(items) for items in (('no', None),
    ('yes', True)))] *)
Definition EQUIVALENT_VALUES : list (list pyval) :=
  [ [PStr "no"; PNone]; [PStr "yes"; PBool true] ].

(** [set((old_prop_value, new_prop_value)) in EQUIVALENT_VALUES] *)
Definition equivalent_values (old_prop_value new_prop_value : pyval) : bool :=
  existsb (pyset_eq [old_prop_value; new_prop_value]) EQUIVALENT_VALUES.

Definition PROP_NAMES : list string := ["analyzer"; "store"; "type"].

(** One pass of the inner loop: does this property make the generator
    yield? *)
Definition prop_conflicts (existing_mapping new_mapping : descriptor)
    (prop_name : string) : bool :=
  let new_prop_value := dict_get new_mapping prop_name in
  let old_prop_value := dict_get existing_mapping prop_name in
  if negb (py_eq new_prop_value old_prop_value) then
    if equivalent_values old_prop_value new_prop_value then false
    else true
  else false.

(** The inner loop for one shared field: one [yield field_name] for each
    of the three properties that conflicts. *)
Definition field_conflicts (field_name : string)
    (existing_mapping new_mapping : descriptor) : list string :=
  flat_map
    (fun prop_name =>
       if prop_conflicts existing_mapping new_mapping prop_name
       then [field_name] else [])
    PROP_NAMES.

(** [not m] on a mapping that may be [None]. *)
Definition falsy (m : option mappings) : bool :=
  match m with
  | None => true
  | Some d => bool_decide (d = ∅)
  end.

(** [set(old.keys()).intersection(new.keys())], iterated in the order the
    set gives its elements. *)
Definition shared_fields (old_props new_props : properties) : list string :=
  elements (dom old_props ∩ dom new_props).

(** [find_conflicts]: the values the generator yields, in order, or the
    exception met while running it. *)
Definition find_conflicts (old_mappings new_mappings : option mappings)
  : res (list string) :=
  if falsy old_mappings || falsy new_mappings then Ok []
  else
    let old_mappings := default ∅ old_mappings in
    let new_mappings := default ∅ new_mappings in
    res_bind (subscript old_mappings "modelresult") (fun old_doc =>
    res_bind (subscript old_doc "properties") (fun old_props =>
    res_bind (subscript new_mappings "modelresult") (fun new_doc =>
    res_bind (subscript new_doc "properties") (fun new_props =>
    Ok (flat_map
          (fun field_name =>
             match old_props !! field_name, new_props !! field_name with
             | Some existing_mapping, Some new_mapping =>
                 field_conflicts field_name existing_mapping new_mapping
             | _, _ => []
             end)
          (shared_fields old_props new_props)))))).

(** [m['modelresult']['properties']], when both keys are there. *)
Definition properties_of (m : mappings) : option properties :=
  match m !! "modelresult" with
  | Some d => d !! "properties"
  | None => None
  end.

(** How many times a field name occurs in the yielded sequence. *)
Definition occurrences (field_name : string) (yielded : list string) : nat :=
  length (List.filter (String.eqb field_name) yielded).

(** The mapping [{'modelresult': {'properties': field_mapping}}]. *)
Definition modelresult (field_mapping : properties) : mappings :=
  {[ "modelresult" := {[ "properties" := field_mapping ]} ]}.

End Mappings.

(* ===================================================================== *)
(** * apn_search/backends/elasticsearch_backend.py                        *)
(* ===================================================================== *)

Module Backend.
Import Mappings.

(** What the index methods are handed: an identifier string, a [LazyModel]
    for an identifier, or a model instance (its class and identifier). *)
Inductive item :=
  | Identifier (identifier : string)
  | Lazy (identifier : string)
  | ModelInstance (cls : string) (identifier : string).

(** [get_identifier(obj_or_string)] *)
Definition get_identifier (obj : item) : string :=
  match obj with
  | Identifier s | Lazy s | ModelInstance _ s => s
  end.

(** A prepared document. *)
Abbreviation doc := (gmap string json).

(** ** [ElasticSearch._send_request] *)

(** The scan of the [items] list: [errors] accumulates [index['error']]
    of every item whose ['index'] entry is a dictionary holding an
    ['error'] key. [item.get] on something that is not a dictionary is an
    [AttributeError]. *)
Fixpoint scan_items (items : list json) (errors : list json)
  : res (list json) :=
  match items with
  | [] => Ok errors
  | item :: rest =>
      match item with
      | JDict d =>
          match d !! "index" with
          | Some (JDict index) =>
              match index !! "error" with
              | Some error => scan_items rest (errors ++ [error])%list
              | None => scan_items rest errors
              end
          | _ => scan_items rest errors
          end
      | _ =>
          Raise (Exn AttributeError "object has no attribute %r" [PStr "get"])
      end
  end.

(** ['\n'.join(errors)]: every element has to be a string. *)
Fixpoint join_lines (errors : list json) : res string :=
  match errors with
  | [] => Ok ""
  | JAtom (PStr e) :: rest =>
      match rest with
      | [] => Ok e
      | _ =>
          res_bind (join_lines rest)
            (fun tail => Ok (e +:+ String "010"%char tail))
      end
  | _ :: _ =>
      Raise (Exn TypeError "sequence item: expected string" [])
  end.

(** [_send_request]: [super_result] is what the transport returned
    (pyelasticsearch's own [_send_request]), already decoded. *)
Definition _send_request (super_result : res json) : res json :=
  res_bind super_result (fun response_data =>
    match response_data with
    | JDict d =>
        match d !! "items" with
        | Some (JList items) =>
            res_bind (scan_items items []) (fun errors =>
              match errors with
              | [] => Ok response_data
              | _ :: _ =>
                  res_bind (join_lines errors) (fun joined =>
                    Raise (Exn ElasticSearchError
                             "%d errors in response: %r"
                             [PInt (Z.of_nat (length errors)); PStr joined]))
              end)
        | _ => Ok response_data
        end
    | _ =>
        Raise (Exn AttributeError "object has no attribute %r" [PStr "get"])
    end).

(** The test the scan applies to one item. *)
Definition carries_error (item : json) : bool :=
  match item with
  | JDict d =>
      match d !! "index" with
      | Some (JDict index) => bool_decide (is_Some (index !! "error"))
      | _ => false
      end
  | _ => false
  end.

Definition is_dict (j : json) : bool :=
  match j with JDict _ => true | _ => false end.

(** An item of a per-item result list carries an embedded error object
    when the result of its action, whatever the action is called
    (['index'], ['create'], ['delete'], ['update']), is a dictionary
    holding an ['error'] key. *)
Definition embeds_error (item : json) : bool :=
  match item with
  | JDict d =>
      existsb (fun '(action, result) =>
                 match result with
                 | JDict r => bool_decide (is_Some (r !! "error"))
                 | _ => false
                 end)
              (map_to_list d)
  | _ => false
  end.

(** ** [ElasticsearchSearchBackend.build_schema] *)

(** The body of the loop over [field_mapping.iteritems()], which edits
    each descriptor in place. *)
Definition adjust_mapping (mapping : descriptor) : descriptor :=
  let mapping :=
    if py_eq (dict_get mapping "type") (PStr "boolean") then
      if py_eq (dict_get mapping "index") (PStr "analyzed")
      then delete "index" mapping
      else mapping
    else mapping in
  if py_in (dict_get mapping "analyzer")
       [PStr "ngram_analyzer"; PStr "edgengram_analyzer"]
  then
    <[ "search_analyzer" := PStr "default" ]>
      (<[ "index_analyzer" := dict_get mapping "analyzer" ]>
         (delete "analyzer" mapping))
  else mapping.

Record settings := Settings {
  DEBUG : bool;
  TEST_MODE : bool
}.

(** Engine calls and log calls, in the order they are made. *)
Inductive call :=
  | CreateIndex (index_name : string)
  | PutMapping (doc_type : string) (mapping : mappings) (index_name : string)
  | GetMapping
  | BulkIndex (index_name doc_type : string) (docs : list doc)
  | Refresh (index_name : string)
  | LogCall (r : log_record).

(** The backend object. *)
Record backend := Backend {
  new_version : bool;
  silently_fail : bool;
  setup_complete : bool;
  existing_mapping : option mappings;
  content_field_name : string;
  index_groups : gmap string (list string);
  index_names : gmap string string;
  calls : list call
}.

Definition set_setup_complete (v : bool) (b : backend) : backend :=
  Backend (new_version b) (silently_fail b) v (existing_mapping b)
    (content_field_name b) (index_groups b) (index_names b) (calls b).

Definition set_existing_mapping (v : option mappings) (b : backend) : backend :=
  Backend (new_version b) (silently_fail b) (setup_complete b) v
    (content_field_name b) (index_groups b) (index_names b) (calls b).

Definition set_content_field_name (v : string) (b : backend) : backend :=
  Backend (new_version b) (silently_fail b) (setup_complete b)
    (existing_mapping b) v (index_groups b) (index_names b) (calls b).

Definition set_index_groups (g : gmap string (list string))
    (n : gmap string string) (b : backend) : backend :=
  Backend (new_version b) (silently_fail b) (setup_complete b)
    (existing_mapping b) (content_field_name b) g n (calls b).

Definition record_call (c : call) (b : backend) : backend :=
  Backend (new_version b) (silently_fail b) (setup_complete b)
    (existing_mapping b) (content_field_name b) (index_groups b)
    (index_names b) (calls b ++ [c])%list.

Section WithCollaborators.

Context {Fields : Type}.

(** The collaborators outside the package: haystack's base backend and
    index registry, and the engine behind [self.conn]. An engine answer may
    depend on the calls made so far. [bulk_response] is the decoded answer
    to the bulk request, before [_send_request] inspects it. *)
Record world := World {
  django_settings : settings;
  base_build_schema : Fields -> string * properties;
  registry : list (string * string);
  all_searchfields : list string -> Fields;
  full_prepare : string -> item -> res doc;
  base_from_python : json -> json;
  create_index : list call -> string -> res unit;
  put_mapping : list call -> string -> mappings -> res unit;
  get_mapping : list call -> res (gmap string mappings);
  bulk_response : list call -> string -> list doc -> res json;
  refresh : list call -> string -> res unit
}.

Variable W : world.

(** [build_schema]: haystack's schema, adjusted for newer engines. *)
Definition build_schema (new_version : bool) (fields : Fields)
  : string * properties :=
  let '(content_field_name, field_mapping) := base_build_schema W fields in
  if new_version
  then (content_field_name, adjust_mapping <$> field_mapping)
  else (content_field_name, field_mapping).

(** [ElasticSearch.from_python] *)
Definition from_python (value : json) : json :=
  match value with
  | JList l => JList (map (base_from_python W) l)
  | _ => base_from_python W value
  end.

(** Calls on [self.conn]: the call is recorded, then the engine answers. *)
Definition conn_create_index (index_name : string) : M backend unit :=
  fun b =>
    (create_index W (calls b) index_name, record_call (CreateIndex index_name) b).

Definition conn_put_mapping (doc_type : string) (mapping : mappings)
    (index_name : string) : M backend unit :=
  fun b =>
    (put_mapping W (calls b) index_name mapping,
     record_call (PutMapping doc_type mapping index_name) b).

Definition conn_get_mapping : M backend (gmap string mappings) :=
  fun b => (get_mapping W (calls b), record_call GetMapping b).

Definition conn_bulk_index (index_name doc_type : string) (docs : list doc)
  : M backend json :=
  fun b =>
    (_send_request (bulk_response W (calls b) index_name docs),
     record_call (BulkIndex index_name doc_type docs) b).

Definition conn_refresh (index_name : string) : M backend unit :=
  fun b => (refresh W (calls b) index_name, record_call (Refresh index_name) b).

Definition log (lvl : level) (fmt : string) (args : list logarg)
    (exc_info : bool) : M backend unit :=
  modify (record_call (LogCall (LogRecord lvl fmt args exc_info))).

(** ** [setup_index_groups] *)
Definition group_indexes (reg : list (string * string))
  : gmap string (list string) :=
  foldl (fun (groups : gmap string (list string)) '(index, index_name) =>
           <[ index_name := (default [] (groups !! index_name) ++ [index])%list ]> groups)
        ∅ reg.

Definition name_indexes (reg : list (string * string)) : gmap string string :=
  foldl (fun (names : gmap string string) '(index, index_name) =>
           <[ index := index_name ]> names)
        ∅ reg.

Definition setup_index_groups : M backend unit :=
  complete <- gets setup_complete ;;
  if complete then ret tt
  else modify (set_index_groups (group_indexes (registry W))
                                (name_indexes (registry W))).

(** ** [setup] *)

Definition conflict_error (field_name : string) : exn :=
  Exn HaystackError
    "There is a mapping conflict for the %r field. Use the 'check_index' command."
    [PStr field_name].

(** The handler of [except Exception as error] in [setup]: the steps taken
    once creating the index or pushing the mapping has failed. *)
Definition setup_failed (index_name : string) (current_mapping : mappings)
    (error : exn) : M backend unit :=
  (* Find out what the current mappings are in ElasticSearch. *)
  try_except
    (all <- conn_get_mapping ;;
     found <- lift (subscript all index_name) ;;
     modify (set_existing_mapping (Some found)))
    (fun raised =>
       if is_class KeyError raised then ret tt
       else
         quiet <- gets silently_fail ;;
         if negb quiet then raise error else ret tt) ;;;
  quiet <- gets silently_fail ;;
  if DEBUG (django_settings W) || TEST_MODE (django_settings W) || negb quiet
  then
    (* Check for obvious conflicts, otherwise just raise the error. *)
    try_except
      (existing <- gets existing_mapping ;;
       conflicts <- lift (find_conflicts existing (Some current_mapping)) ;;
       match conflicts with
       | field_name :: _ => raise (conflict_error field_name)
       | [] => raise error
       end)
      (fun _ => raise error)
  else
    log Error "" [LExn error] true.

(** The body of the loop over the index groups. *)
Definition setup_group (index_name : string) (indexes : list string)
  : M backend unit :=
  version <- gets new_version ;;
  let '(content_field, field_mapping) :=
    build_schema version (all_searchfields W indexes) in
  modify (set_content_field_name content_field) ;;;
  let current_mapping := modelresult field_mapping in
  try_except
    (conn_create_index index_name ;;;
     conn_put_mapping "modelresult" current_mapping index_name ;;;
     modify (set_existing_mapping (Some current_mapping)))
    (setup_failed index_name current_mapping).

Definition setup : M backend unit :=
  setup_index_groups ;;;
  groups <- gets index_groups ;;
  for_each (map_to_list groups) (fun '(index_name, indexes) =>
    setup_group index_name indexes) ;;;
  modify (set_setup_complete true).

(** ** [update] *)

(** [e.__name__] on an exception instance: classes have a [__name__],
    their instances do not. *)
Definition instance_name (e : exn) : res string :=
  Raise (Exn AttributeError "object has no attribute %r" [PStr "__name__"]).

(** The loop over [iterable] that fills [prepped_docs]. *)
Fixpoint prepare_docs (index : string) (iterable : list item)
    (prepped_docs : list doc) : M backend (list doc) :=
  match iterable with
  | [] => ret prepped_docs
  | obj :: rest =>
      prepped_docs <-
        try_except
          (prepped_data <- lift (full_prepare W index obj) ;;
           (* Convert the data to make sure it's happy. *)
           let final_data := from_python <$> prepped_data in
           ret (prepped_docs ++ [final_data])%list)
          (fun e =>
             if is_request_exception e || is_class ElasticSearchError e then
               quiet <- gets silently_fail ;;
               if negb quiet then raise e
               else
                 name <- lift (instance_name e) ;;
                 log Error "%s while preparing object for update"
                   [LVal (PStr name); LVal (PStr index);
                    LVal (PStr (get_identifier obj))] true ;;;
                 ret prepped_docs
             else raise e) ;;
      prepare_docs index rest prepped_docs
  end.

(** The guard at the top of [update]: [true] when the method goes on. *)
Definition ensure_setup : M backend bool :=
  complete <- gets setup_complete ;;
  if complete then ret true
  else
    try_except (setup ;;; ret true)
      (fun e =>
         if is_class ElasticSearchError e then
           quiet <- gets silently_fail ;;
           if negb quiet then raise e
           else
             log Error "Failed to add documents to Elasticsearch: %s"
               [LExn e] false ;;;
             ret false
         else raise e).

Definition update (index : string) (iterable : list item) (commit : bool)
  : M backend unit :=
  proceed <- ensure_setup ;;
  if negb proceed then ret tt
  else
    prepped_docs <- prepare_docs index iterable [] ;;
    names <- gets index_names ;;
    index_name <- lift (subscript names index) ;;
    conn_bulk_index index_name "modelresult" prepped_docs ;;;
    if commit then conn_refresh index_name else ret tt.

(** [prepared index objs docs]: preparing each object of [objs] succeeds
    and gives the documents [docs]. *)
Definition prepared (index : string) (objs : list item) (docs : list doc)
  : Prop :=
  Forall2 (fun obj d => full_prepare W index obj = Ok d) objs docs.

(** The documents as [update] submits them. *)
Definition converted (docs : list doc) : list doc :=
  map (fun d => from_python <$> d) docs.

End WithCollaborators.

Arguments world : clear implicits.

Definition is_bulk_index (c : call) : bool :=
  match c with BulkIndex _ _ _ => true | _ => false end.

End Backend.

(* ===================================================================== *)
(** * apn_search/update.py, with the index policy of apn_search/indexes.py *)
(* ===================================================================== *)

Module Update.
Import Backend.

(** [update_object] and [queue_update] are wrapped by [post_commit_once],
    and [queue_update] uses [message_queue]; neither name is defined in the
    package (the module's TODO lists them as still to be imported). The
    functions are modelled by their bodies, the queue is a collaborator.
    The [logging] calls carry keyword flags of the deployment's logger
    ([debug_raise]); a call is modelled as writing the record, flags
    included. *)

(** What the functions of this module do to the outside, in order. *)
Inductive update_event :=
  | Put (queue_name : string) (message_body : string)
  | CallUpdateObject (index : string) (obj : item)
  | CallRemoveObject (index : string) (obj : item)
  | IndexWrite (index : string) (obj : item)
  | IndexDelete (index : string) (obj : item)
  | LoggedWith (r : log_record) (debug_raise : bool).

(** The collaborators: the queue, pickle, the entity store behind
    [LazyModel], the content types, haystack's index registry and the base
    [SearchIndex] methods that reach the backend. The answer of the queue
    or of the backend may depend on what happened before. *)
Record services := Services {
  QUEUE_NAME : string;
  pickle_dumps : gmap string pyval -> string;
  queue_put : list update_event -> string -> string -> res unit;
  exists_in_store : string -> bool;
  model_class : string -> string -> res string;
  class_of : string -> string;
  index_of_model : string -> res string;
  should_index : string -> item -> res bool;
  base_update_object : list update_event -> string -> item -> res unit;
  base_remove_object : list update_event -> string -> item -> res unit
}.

Section WithServices.

Variable W : services.

Abbreviation history := (list update_event).

Definition record_event (e : update_event) : M history unit :=
  modify (fun events => (events ++ [e])%list).

Definition logging (lvl : level) (fmt : string) (args : list logarg)
    (exc_info debug_raise : bool) : M history unit :=
  record_event (LoggedWith (LogRecord lvl fmt args exc_info) debug_raise).

(** [bool(item)]: a lazy object is true when its entity exists. *)
Definition truthy (obj : item) : bool :=
  match obj with
  | Lazy identifier => exists_in_store W identifier
  | _ => true
  end.

Definition is_string (obj : item) : bool :=
  match obj with Identifier _ => true | _ => false end.

Definition is_lazy (obj : item) : bool :=
  match obj with Lazy _ => true | _ => false end.

(** [utils.indexes._get_model] *)
Definition _get_model (obj : item) : res string :=
  let from_identifier identifier :=
    res_bind (Indexes.split_identifier identifier)
      (fun '(app_label, model, object_pk) => model_class W app_label model) in
  match obj with
  | Identifier identifier => from_identifier identifier
  | Lazy identifier =>
      if negb (truthy obj) then from_identifier identifier
      else Ok (class_of W identifier)
  | ModelInstance cls _ => Ok cls
  end.

(** [utils.indexes.get_index] *)
Definition get_index (obj : item) : res string :=
  res_bind (_get_model obj) (index_of_model W).

(** [CommonSearchIndex.remove_object] *)
Definition remove_object (index : string) (instance : item) : M history unit :=
  record_event (CallRemoveObject index instance) ;;;
  logging Info "Removing from search index %r"
    [LVal (PStr (get_identifier instance))] false false ;;;
  fun events =>
    (base_remove_object W events index instance,
     (events ++ [IndexDelete index instance])%list).

(** [CommonSearchIndex.update_object] *)
Definition index_update_object (index : string) (instance : item)
  : M history bool :=
  record_event (CallUpdateObject index instance) ;;;
  wanted <- lift (should_index W index instance) ;;
  if wanted then
    logging Info "Updating search index %r"
      [LVal (PStr (get_identifier instance))] false false ;;;
    (fun events =>
       (base_update_object W events index instance,
        (events ++ [IndexWrite index instance])%list)) ;;;
    ret true
  else
    remove_object index instance ;;;
    ret false.

(** The [try] block of [update_object]. *)
Definition update_object_body (obj : item) (remove : bool) : M history unit :=
  index <- lift (get_index obj) ;;
  (* Dealing with an identifier string. *)
  let obj :=
    if is_string obj then
      if negb remove then Lazy (get_identifier obj) else obj
    else obj in
  remove <-
    (if negb remove && is_lazy obj && negb (truthy obj) then
       (* The identifier was for an object that does not exist any more,
          so change this to a remove operation. *)
       logging Warning "Could not access %r for indexing"
         [LVal (PStr (get_identifier obj))] false false ;;;
       ret true
     else ret remove) ;;
  if remove then
    let identifier := get_identifier obj in
    remove_object index (Identifier identifier)
  else
    _ <- index_update_object index obj ;;
    ret tt.

(** [update_object(item, remove=False, exception_handling=True)]. The
    record written by the handler keeps the identifier of [item], which by
    then may be bound to the lazy object made from it. *)
Definition update_object (obj : item) (remove exception_handling : bool)
  : M history unit :=
  try_except (update_object_body obj remove)
    (fun e =>
       if exception_handling then
         logging Error "Error running update_object(%r)"
           [LVal (PStr (get_identifier obj)); LExn e] true true
       else raise e).

(** The message [queue_update] builds:
    [{'identifier': ...}], with ['remove': True] for a removal. *)
Definition queue_message (obj : item) (remove : bool) : gmap string pyval :=
  let message : gmap string pyval :=
    {[ "identifier" := PStr (get_identifier obj) ]} in
  if remove then <[ "remove" := PBool true ]> message else message.

(** [queue_update(item, remove=False)] *)
Definition queue_update (obj : item) (remove : bool) : M history unit :=
  let message := queue_message obj remove in
  let message_body := pickle_dumps W message in
  try_except
    (fun events =>
       match queue_put W events (QUEUE_NAME W) message_body with
       | Ok _ => (Ok tt, (events ++ [Put (QUEUE_NAME W) message_body])%list)
       | Raise e => (Raise e, events)
       end)
    (fun e =>
       logging Error
         "Could not send async message. Running search update immediately."
         [LExn e] true true ;;;
       update_object obj remove true).

End WithServices.

Definition is_index_write (e : update_event) : bool :=
  match e with IndexWrite _ _ => true | _ => false end.

(** The records the functions above write. *)
Definition missing_warning (identifier : string) : update_event :=
  LoggedWith (LogRecord Warning "Could not access %r for indexing"
            [LVal (PStr identifier)] false) false.

Definition removing_info (identifier : string) : update_event :=
  LoggedWith (LogRecord Info "Removing from search index %r"
            [LVal (PStr identifier)] false) false.

Definition update_failure (identifier : string) (e : exn) : update_event :=
  LoggedWith (LogRecord Error "Error running update_object(%r)"
            [LVal (PStr identifier); LExn e] true) true.

Definition queue_failure (e : exn) : update_event :=
  LoggedWith (LogRecord Error
            "Could not send async message. Running search update immediately."
            [LExn e] true) true.

End Update.

(* ===================================================================== *)
(** * apn_search/consume.py                                               *)
(* ===================================================================== *)

Module Consume.

(** Exceptions are instances of subclasses of [Exception], which is what
    the handler's [except] clauses catch. Acknowledging, logging and
    sleeping are calls on collaborators that are recorded and return. *)

(** What the handler does to the outside, in order. [Attempt] marks a call
    of [update_search_index]. *)
Inductive event :=
  | Attempt (identifier remove : json)
  | Logged (r : log_record)
  | Slept (seconds : nat)
  | Closed (connection : nat)
  | Dropped (connection : nat)
  | Acked (message_id : string).

Section WithUpdate.

(** The store and engine [update_object] works on. *)
Context {World : Type}.

(** The collaborators: pickle, [apn_search.update.update_object] called
    with [exception_handling=False], and the database connections of
    [connections.all()], each of which may fail to close. *)
Record collaborators := Collaborators {
  pickle_loads : string -> res json;
  update_object : json -> json -> World -> res unit * World;
  connections : list nat;
  close_raises : nat -> bool
}.

Variable C : collaborators.

(** The handler's view: the world, the local variable [retry], and the
    events so far. *)
Record state := State {
  world : World;
  retry : bool;
  events : list event
}.

Definition note_event (e : event) : M state unit :=
  modify (fun s => State (world s) (retry s) (events s ++ [e])%list).

Definition set_retry (v : bool) : M state unit :=
  modify (fun s => State (world s) v (events s)).

Definition log_message (lvl : level) (fmt : string) (args : list logarg)
  : M state unit :=
  note_event (Logged (LogRecord lvl fmt args false)).

(** [queue.ack(message_id)] *)
Definition ack (message_id : string) : M state unit :=
  note_event (Acked message_id).

(** [RetryExceptions = (HTTPError, ConnectionError, Timeout, DatabaseError)] *)
Definition RetryExceptions : list exn_class :=
  [HTTPError; ConnectionError; Timeout; DatabaseError].

(** [isinstance(error, self.RetryExceptions)], the test of
    [except self.RetryExceptions]: an instance of one of the four classes
    or of a class that derives from one of them. *)
Definition is_retry_exception (e : exn) : bool :=
  existsb (fun c => is_class c e) RetryExceptions.

(** [on_error]: after a database error every connection is closed; one
    that cannot be closed is dropped ([connection.connection = None]). *)
Definition on_error (error : exn) : M state unit :=
  if is_class DatabaseError error then
    for_each (connections C) (fun connection =>
      if close_raises C connection then note_event (Dropped connection)
      else note_event (Closed connection))
  else ret tt.

(** [message_body[key]] on whatever was unpickled. *)
Definition getitem (body : json) (key : string) : res json :=
  match body with
  | JDict d =>
      match d !! key with
      | Some v => Ok v
      | None => Raise (Exn KeyError "%r" [PStr key])
      end
  | _ => Raise (Exn TypeError "indices must be integers" [])
  end.

(** [message_body.get(key)] *)
Definition get (body : json) (key : string) : res json :=
  match body with
  | JDict d => Ok (default (JAtom PNone) (d !! key))
  | _ => Raise (Exn AttributeError "object has no attribute %r" [PStr "get"])
  end.

(** Unpack the message. *)
Definition unpack (message_body : string) : res (json * json) :=
  res_bind (pickle_loads C message_body) (fun body =>
  res_bind (getitem body "identifier") (fun identifier =>
  res_bind (get body "remove") (fun remove =>
  Ok (identifier, remove)))).

(** The closure [update_search_index]. *)
Definition update_search_index (identifier remove : json) : M state unit :=
  note_event (Attempt identifier remove) ;;;
  fun s =>
    let '(r, w) := update_object C identifier remove (world s) in
    (r, State w (retry s) (events s)).

(** [time.sleep(seconds)] *)
Definition sleep (seconds : nat) : M state unit := note_event (Slept seconds).

(** [process_message(message_body, message_id, queue)] *)
Definition process_message (message_body message_id : string) : M state unit :=
  match unpack message_body with
  | Raise error =>
      (* There was a major problem with this message. Accept the message
         since it's not likely to be a service availability problem. *)
      log_message Error "Invalid message: %s" [LExn error] ;;;
      ack message_id
  | Ok (identifier, remove) =>
      try_except
        (set_retry false ;;;
         try_except
           (update_search_index identifier remove)
           (fun error =>
              if is_retry_exception error then
                set_retry true ;;;
                log_message Warning "Problem while processing %r: %s"
                  [LJson identifier; LExn error] ;;;
                on_error error ;;;
                sleep 1 ;;;
                update_search_index identifier remove
              else raise error) ;;;
         ack message_id)
        (fun error =>
           retried <- gets retry ;;
           if retried then
             (* There was still an error after retrying. *)
             log_message Critical "Could not process %r: %s"
               [LJson identifier; LExn error] ;;;
             log_message Error "Not accepting message for %r" [LJson identifier]
           else
             (* Probably a code problem: accept the message so it doesn't
                clog up the queue. *)
             log_message Error "Unhandled error while processing %r: %s"
               [LJson identifier; LExn error] ;;;
             ack message_id)
  end.

(** [start_cron]: every message of the queue goes through the handler; an
    exception that escaped the handler would end the loop. *)
Definition start_cron (queue : list (string * string)) : M state unit :=
  for_each queue (fun '(message_body, message_id) =>
    process_message message_body message_id).

End WithUpdate.

Arguments collaborators : clear implicits.
Arguments state : clear implicits.

(** The events [on_error] leaves. *)
Definition closing_events {World} (C : collaborators World) (error : exn)
  : list event :=
  if is_class DatabaseError error then
    map (fun connection =>
           if close_raises C connection then Dropped connection
           else Closed connection)
        (connections C)
  else [].

(** The records the handler writes. *)
Definition invalid_message (error : exn) : event :=
  Logged (LogRecord Error "Invalid message: %s" [LExn error] false).

Definition problem_warning (identifier : json) (error : exn) : event :=
  Logged (LogRecord Warning "Problem while processing %r: %s"
            [LJson identifier; LExn error] false).

Definition could_not_process (identifier : json) (error : exn) : event :=
  Logged (LogRecord Critical "Could not process %r: %s"
            [LJson identifier; LExn error] false).

Definition not_accepting (identifier : json) : event :=
  Logged (LogRecord Error "Not accepting message for %r"
            [LJson identifier] false).

Definition unhandled_error (identifier : json) (error : exn) : event :=
  Logged (LogRecord Error "Unhandled error while processing %r: %s"
            [LJson identifier; LExn error] false).

Definition is_attempt (e : event) : bool :=
  match e with Attempt _ _ => true | _ => false end.

Definition is_ack_of (message_id : string) (e : event) : bool :=
  match e with Acked m => String.eqb m message_id | _ => false end.

Definition is_critical (e : event) : bool :=
  match e with
  | Logged r => bool_decide (log_level r = Critical)
  | _ => false
  end.

Definition is_error_log (e : event) : bool :=
  match e with
  | Logged r => bool_decide (log_level r = Error)
  | _ => false
  end.

Definition is_pause (e : event) : bool :=
  match e with Slept _ => true | _ => false end.

End Consume.

(* ===================================================================== *)
(** * Scenarios: concrete deployments used to run the code                *)
(* ===================================================================== *)

Module Scenarios.
Import Mappings Backend.

(** The schemas of a field that went from analysed text to a number. *)
Definition text_field : descriptor :=
  {[ "type" := PStr "string"; "store" := PStr "yes";
     "analyzer" := PStr "snowball" ]}.

Definition number_field : descriptor :=
  {[ "type" := PStr "long"; "store" := PStr "yes" ]}.

Definition stored_number_field : descriptor :=
  {[ "type" := PStr "long"; "store" := PStr "yes";
     "analyzer" := PStr "snowball" ]}.

(** The answer to a bulk request whose second document was refused, and
    the answer to one that went through. *)
Definition bulk_partly_failed : gmap string json :=
  {[ "took" := JAtom (PInt 3);
     "items" := JList
       [ JDict {[ "index" := JDict {[ "_id" := JAtom (PStr "blog.post.1");
                                      "ok" := JAtom (PBool true) ]} ]};
         JDict {[ "index" := JDict {[ "_id" := JAtom (PStr "blog.post.2");
                                      "error" := JAtom (PStr "MapperParsingException") ]} ]} ] ]}.

(** The answer to a bulk request whose document was refused by a
    [create] action: the error sits under ['create']. *)
Definition create_refused_items : list json :=
  [ JDict {[ "create" := JDict {[ "_id" := JAtom (PStr "blog.post.1");
                                  "error" := JAtom (PStr "DocumentAlreadyExistsException") ]} ]} ].

Definition bulk_create_refused : gmap string json :=
  {[ "took" := JAtom (PInt 3); "items" := JList create_refused_items ]}.

Definition bulk_succeeded : gmap string json :=
  {[ "took" := JAtom (PInt 3);
     "items" := JList
       [ JDict {[ "index" := JDict {[ "_id" := JAtom (PStr "blog.post.1");
                                      "ok" := JAtom (PBool true) ]} ]} ] ]}.

(** What haystack's schema builder gives for a boolean field. *)
Definition haystack_boolean_field : descriptor :=
  {[ "index" := PStr "analyzed"; "store" := PStr "yes";
     "type" := PStr "boolean" ]}.

Definition boolean_world : world unit :=
  @World unit (Settings false false)
    (fun _ => ("text", {[ "is_live" := haystack_boolean_field ]}))
    [("PostIndex", "blog-post")]
    (fun _ => tt)
    (fun _ _ => Ok ∅)
    (fun v => v)
    (fun _ _ => Ok tt)
    (fun _ _ _ => Ok tt)
    (fun _ => Ok ∅)
    (fun _ _ _ => Ok (JDict ∅))
    (fun _ _ => Ok tt).

(** A deployment where the field ["rating"] was indexed as analysed text
    and is now declared as a number: the engine refuses the new mapping,
    and reports the old one when asked. *)
Definition merge_error : exn :=
  Exn ElasticSearchError "MergeMappingException[Merge failed]" [].

Definition deployed_mapping : mappings :=
  modelresult {[ "rating" := text_field ]}.

Definition conflict_world : world unit :=
  @World unit (Settings true false)
    (fun _ => ("text", {[ "rating" := number_field ]}))
    [("PostIndex", "blog-post")]
    (fun _ => tt)
    (fun _ _ => Ok ∅)
    (fun v => v)
    (fun _ _ => Ok tt)
    (fun _ _ _ => Raise merge_error)
    (fun _ => Ok {[ "blog-post" := deployed_mapping ]})
    (fun _ _ _ => Ok (JDict ∅))
    (fun _ _ => Ok tt).

Definition fresh_backend (quiet : bool) : backend :=
  Backend false quiet false (Some ∅) "" ∅ ∅ [].

(** A batch of three posts; preparing the second one fails in the
    engine client. *)
Definition preparation_error : exn :=
  Exn ElasticSearchError "Non-JSON response" [].

Definition post (pk : string) : item :=
  ModelInstance "Post" (Indexes.identifier_string "blog" "post" pk).

Definition post_doc (obj : item) : doc :=
  {[ "id" := JAtom (PStr (get_identifier obj)) ]}.

Definition batch_world : world unit :=
  @World unit (Settings false false)
    (fun _ => ("text", ∅))
    [("PostIndex", "blog-post")]
    (fun _ => tt)
    (fun _ obj =>
       if String.eqb (get_identifier obj) "blog.post.2"
       then Raise preparation_error
       else Ok (post_doc obj))
    (fun v => v)
    (fun _ _ => Ok tt)
    (fun _ _ _ => Ok tt)
    (fun _ => Ok ∅)
    (fun _ _ _ => Ok (JDict ∅))
    (fun _ _ => Ok tt).

Definition ready_backend (quiet : bool) : backend :=
  Backend false quiet true (Some ∅) "text"
    {[ "blog-post" := ["PostIndex"] ]} {[ "PostIndex" := "blog-post" ]} [].

(** A site whose queue cannot be reached and whose post 42 has been
    deleted from the store. *)
Definition queue_down : exn :=
  Exn ConnectionError "Connection refused" [].

Definition site : Update.services :=
  Update.Services "search_updates"
    (fun message =>
       match message !! "identifier" with
       | Some (PStr identifier) => identifier
       | _ => ""
       end)
    (fun _ _ _ => Raise queue_down)
    (fun identifier => negb (String.eqb identifier "blog.post.42"))
    (fun _ _ => Ok "Post")
    (fun _ => "Post")
    (fun _ => Ok "PostIndex")
    (fun _ _ => Ok true)
    (fun _ _ _ => Ok tt)
    (fun _ _ _ => Ok tt).

(** A consumer whose engine is unreachable for the first [outage] update
    attempts; the world counts the attempts made. A message body is its
    identifier, except for one that cannot be unpickled. *)
Definition engine_down : exn :=
  Exn ConnectionError "Connection refused" [].

(** django's [IntegrityError], a subclass of [DatabaseError], and
    requests' [SSLError], a subclass of [ConnectionError]. *)
Definition integrity_error : exn :=
  Exn (Subclass "IntegrityError" [DatabaseError]) "duplicate key value" [].

Definition ssl_error : exn :=
  Exn (Subclass "SSLError" [ConnectionError]) "bad handshake" [].

Definition bad_pickle : exn :=
  Exn (OtherException "UnpicklingError") "invalid load key" [].

Definition bad_data : exn :=
  Exn ValueError "invalid literal for int()" [].

Definition consumer (outage : nat) (failure : exn) : Consume.collaborators nat :=
  Consume.Collaborators
    (fun body =>
       if String.eqb body "garbage" then Raise bad_pickle
       else Ok (JDict {[ "identifier" := JAtom (PStr body) ]}))
    (fun identifier remove attempts =>
       (if Nat.ltb attempts outage then Raise failure else Ok tt, S attempts))
    [0; 1]
    (fun connection => Nat.eqb connection 1).

Definition idle : Consume.state nat := Consume.State 0 false [].

End Scenarios.

(* ===================================================================== *)
(** * apn_search/options.py                                               *)
(* ===================================================================== *)

Module Options.

(** [bool(value)] on a scalar. *)
Definition py_truth (v : pyval) : bool :=
  match v with
  | PNone => false
  | PBool b => b
  | PInt z => negb (Z.eqb z 0)
  | PStr s => negb (String.eqb s "")
  end.

(** [SearchUpdateOptions.defaults] *)
Definition defaults : gmap string pyval :=
  {[ "async" := PBool true; "disabled" := PBool false;
     "percolate" := PBool true ]}.

Definition unknown_option (name : string) : exn :=
  Exn (OtherException "AssertionError") "Unknown index option %r" [PStr name].

(** [__getitem__]: [overrides] is [settings.HAYSTACK_UPDATE_OPTIONS] (an
    empty dictionary when the setting is absent), [attrs] the attributes
    set on the thread-local object. *)
Definition __getitem__ (overrides attrs : gmap string pyval) (name : string)
  : res pyval :=
  match overrides !! name with
  | Some value => Ok value
  | None =>
      match attrs !! name with
      | Some value => Ok value
      | None => subscript defaults name
      end
  end.

Section Scoped.

(** The rest of the thread's state, next to the options. *)
Context {T : Type}.

Abbreviation local := (gmap string pyval * T)%type.

Definition setattr (name : string) (value : pyval) : M local unit :=
  modify (fun s => (<[ name := value ]> s.1, s.2)).

(** [delattr] of an attribute that is not set is an [AttributeError]. *)
Definition delattr (name : string) : M local unit :=
  fun s =>
    match s.1 !! name with
    | Some _ => (Ok tt, (delete name s.1, s.2))
    | None => (Raise (Exn AttributeError "%s" [PStr name]), s)
    end.

(** The loop of [__call__] before the [yield]. *)
Fixpoint enter (options : list (string * pyval)) (before : gmap string pyval)
  : M local (gmap string pyval) :=
  match options with
  | [] => ret before
  | (name, value) :: rest =>
      if bool_decide (is_Some (defaults !! name)) then
        current <- gets (fun s => s.1 !! name) ;;
        let before :=
          match current with
          | Some old => <[ name := old ]> before
          | None => before
          end in
        setattr name value ;;;
        enter rest before
      else raise (unknown_option name)
  end.

(** The loop of [__call__] after the [yield]. *)
Fixpoint leave (options : list (string * pyval)) (before : gmap string pyval)
  : M local unit :=
  match options with
  | [] => ret tt
  | (name, value) :: rest =>
      match before !! name with
      | Some old => setattr name old
      | None => delattr name
      end ;;;
      leave rest before
  end.

(** [with search_update_options(name=value, ...): body]. The generator has no
    [try] around its [yield]: an exception raised by the body passes
    through it and the second loop is not run. *)
Definition __call__ {A} (options : gmap string pyval) (body : M local A)
  : M local A :=
  before <- enter (map_to_list options) ∅ ;;
  result <- body ;;
  leave (map_to_list options) before ;;;
  ret result.

End Scoped.

End Options.

(* ===================================================================== *)
(** * apn_search/signals.py                                               *)
(* ===================================================================== *)

Module Signals.
Import Backend Update Options.

Inductive signal := post_save | post_delete.

(** What [getattr(instance, attr_name)] may give for a related-model
    attribute, once a callable has been called: a single object, a
    manager, or something iterable. *)
Inductive related_value :=
  | Single (obj : item)
  | Manager (all : list item)
  | Iterable (objs : list item).

Inductive accessor :=
  | Value (v : related_value)
  | Callable (returns : related_value).

Section Handlers.

Variable W : services.

(** [settings.HAYSTACK_UPDATE_OPTIONS] *)
Variable overrides : gmap string pyval.

(** The thread's options and what was done to the outside. *)
Abbreviation thread := (gmap string pyval * list update_event)%type.

Definition read_option (name : string) : M thread pyval :=
  fun s => (__getitem__ overrides s.1 name, s).

Definition on_history {A} (m : M (list update_event) A) : M thread A :=
  fun s => let '(r, h) := m s.2 in (r, (s.1, h)).

(** [search_index_signal_handler(instance, signal)] *)
Definition search_index_signal_handler (instance : item) (sig : signal)
  : M thread unit :=
  disabled <- read_option "disabled" ;;
  if py_truth disabled then ret tt
  else
    let deleting := match sig with post_delete => true | post_save => false end in
    (* When deleting, pass in an identifier string instead of the instance. *)
    let obj :=
      if deleting then Identifier (get_identifier instance) else instance in
    async <- read_option "async" ;;
    if py_truth async then on_history (queue_update W obj deleting)
    else on_history (update_object W obj deleting true).

(** The handler made by [make_related_signal_handler(attr_name)], given
    what the attribute of the saved instance holds. *)
Definition related_signal_handler (attribute : accessor) : M thread unit :=
  let values :=
    match attribute with
    | Callable returns => returns
    | Value v => v
    end in
  let values :=
    match values with
    | Manager all => all
    | Iterable objs => objs
    | Single obj => [obj]
    end in
  for_each values (fun indexable_item =>
    search_index_signal_handler indexable_item post_save).

End Handlers.

End Signals.

(* ===================================================================== *)
(** * elasticsearch_backend.py: remove, clear and search                  *)
(* ===================================================================== *)

Module Engine.
Import Mappings Backend.

(** What these methods send to the engine or write to the log, in order. *)
Inductive request :=
  | Delete (index_name doc_type doc_id : string)
  | DeleteIndex (index_name : string)
  | DeleteByQuery (index_name doc_type query : string)
  | RefreshIndex (index_name : string)
  | Search (search_kwargs : json) (indexes : list string)
           (start : Z) (size : option Z)
  | LogLine (r : log_record).

(** The backend object with the third dictionary [setup_index_groups]
    fills, [model_index_names], and the requests of the methods below.
    [setup] keeps its own record of calls in the backend. *)
Record engine := Engine_ {
  backend_of : backend;
  model_index_names : gmap string string;
  requests : list request
}.

(** The keyword arguments [search] reads; the others only reach
    [build_search_kwargs]. *)
Record search_kwargs := SearchKwargs {
  start_offset : option Z;
  end_offset : option Z;
  models : list string
}.

(** [sep.join(pieces)] for a separator of any length. *)
Fixpoint join_with (sep : string) (pieces : list string) : string :=
  match pieces with
  | [] => ""
  | [p] => p
  | p :: ps => p +:+ sep +:+ join_with sep ps
  end.

Section WithRemote.

Context {Fields : Type}.

(** The world of [setup], the services behind [get_index], and the engine
    as these methods reach it. Every answer of [self.conn] is the decoded
    response; it goes through [_send_request]. [search_body] stands for
    [self.build_search_kwargs(query_string, **kwargs)], whose value is
    handed to the engine as it is, and [process_results] for haystack's
    [_process_results]. *)
Variable W : world Fields.
Variable U : Update.services.

Record remote := Remote {
  model_of_index : string -> string;
  delete_response : list request -> string -> string -> res json;
  delete_index_response : list request -> string -> res json;
  delete_by_query_response : list request -> string -> string -> res json;
  refresh_response : list request -> string -> res json;
  search_response :
    list request -> json -> list string -> Z -> option Z -> res json;
  search_body : string -> search_kwargs -> res json;
  process_results : json -> json
}.

Variable R : remote.

Definition sent (r : request) (s : engine) : engine :=
  Engine_ (backend_of s) (model_index_names s) (requests s ++ [r])%list.

Definition conn_delete (index_name doc_type doc_id : string) : M engine json :=
  fun s =>
    (_send_request (delete_response R (requests s) index_name doc_id),
     sent (Delete index_name doc_type doc_id) s).

Definition conn_delete_index (index_name : string) : M engine json :=
  fun s =>
    (_send_request (delete_index_response R (requests s) index_name),
     sent (DeleteIndex index_name) s).

Definition conn_delete_by_query (index_name doc_type query : string)
  : M engine json :=
  fun s =>
    (_send_request (delete_by_query_response R (requests s) index_name query),
     sent (DeleteByQuery index_name doc_type query) s).

Definition conn_refresh_index (index_name : string) : M engine json :=
  fun s =>
    (_send_request (refresh_response R (requests s) index_name),
     sent (RefreshIndex index_name) s).

Definition conn_search (body : json) (indexes : list string) (start : Z)
    (size : option Z) : M engine json :=
  fun s =>
    (_send_request (search_response R (requests s) body indexes start size),
     sent (Search body indexes start size) s).

Definition log_line (lvl : level) (fmt : string) (args : list logarg)
  : M engine unit :=
  modify (sent (LogLine (LogRecord lvl fmt args false))).

(** [model_index_names] as [setup_index_groups] builds it. *)
Definition name_models (reg : list (string * string)) : gmap string string :=
  foldl (fun (names : gmap string string) '(index, index_name) =>
           <[ model_of_index R index := index_name ]> names)
        ∅ reg.

(** [setup_index_groups], third dictionary included. *)
Definition setup_index_groups : M engine unit :=
  fun s =>
    let '(r, b) := Backend.setup_index_groups W (backend_of s) in
    (r, Engine_ b
          (if setup_complete (backend_of s) then model_index_names s
           else name_models (registry W))
          (requests s)).

(** [setup], which starts with [setup_index_groups]. *)
Definition setup : M engine unit :=
  fun s =>
    let '(r, b) := Backend.setup W (backend_of s) in
    (r, Engine_ b
          (if setup_complete (backend_of s) then model_index_names s
           else name_models (registry W))
          (requests s)).

(** [except (requests.RequestException, pyelasticsearch.ElasticSearchError)] *)
Definition is_engine_failure (e : exn) : bool :=
  is_request_exception e || is_class ElasticSearchError e.

(** [remove(obj_or_string, commit=True)] *)
Definition remove (obj_or_string : item) (commit : bool) : M engine unit :=
  let doc_id := get_identifier obj_or_string in
  complete <- gets (fun s => setup_complete (backend_of s)) ;;
  proceed <-
    (if complete then ret true
     else
       try_except (setup ;;; ret true)
         (fun e =>
            if is_class ElasticSearchError e then
              quiet <- gets (fun s => silently_fail (backend_of s)) ;;
              if negb quiet then raise e
              else
                log_line Error
                  "Failed to remove document '%s' from Elasticsearch: %s"
                  [LVal (PStr doc_id); LExn e] ;;;
                ret false
            else raise e)) ;;
  if negb proceed then ret tt
  else
    index <- lift (Update.get_index U (Identifier doc_id)) ;;
    names <- gets (fun s => index_names (backend_of s)) ;;
    index_name <- lift (subscript names index) ;;
    try_except
      (conn_delete index_name "modelresult" doc_id ;;;
       if commit then conn_refresh_index index_name ;;; ret tt else ret tt)
      (fun e =>
         if is_engine_failure e then
           quiet <- gets (fun s => silently_fail (backend_of s)) ;;
           if negb quiet then raise e
           else
             log_line Error
               "Failed to remove document '%s' from Elasticsearch: %s"
               [LVal (PStr doc_id); LExn e]
         else raise e).

(** ["%s:%s.%s" % (DJANGO_CT, app_label, module_name)] *)
Definition model_term (model : string * string) : string :=
  "django_ct:" +:+ model.1 +:+ "." +:+ model.2.

(** The body of the loop of [clear] for one index group. *)
Definition clear_group (models : list (string * string)) (commit : bool)
    (index_name : string) : M engine unit :=
  let models_to_delete := map model_term models in
  try_except
    (match models with
     | [] => conn_delete_index index_name
     | _ :: _ =>
         conn_delete_by_query index_name "modelresult"
           (join_with " OR " models_to_delete)
     end ;;;
     if commit then conn_refresh_index index_name ;;; ret tt else ret tt)
    (fun e =>
       if is_engine_failure e then
         quiet <- gets (fun s => silently_fail (backend_of s)) ;;
         if negb quiet then raise e
         else
           match models with
           | [] =>
               log_line Error "Failed to clear Elasticsearch index: %s"
                 [LExn e]
           | _ :: _ =>
               log_line Error
                 "Failed to clear Elasticsearch index of models '%s': %s"
                 [LVal (PStr (join_with "," models_to_delete)); LExn e]
           end
       else raise e).

(** [clear(models=[], commit=True)] *)
Definition clear (models : list (string * string)) (commit : bool)
  : M engine unit :=
  complete <- gets (fun s => setup_complete (backend_of s)) ;;
  (if negb complete then setup_index_groups else ret tt) ;;;
  groups <- gets (fun s => index_groups (backend_of s)) ;;
  for_each (map fst (map_to_list groups)) (clear_group models commit).

(** What [search] returns for an empty query. *)
Definition no_results : json :=
  JDict {[ "results" := JList []; "hits" := JAtom (PInt 0) ]}.

(** The loop of [search] over the requested models. *)
Fixpoint collect_index_names (wanted : list string) (found : gset string)
  : M engine (gset string) :=
  match wanted with
  | [] => ret found
  | model :: rest =>
      names <- gets model_index_names ;;
      match names !! model with
      | Some index_name => collect_index_names rest ({[ index_name ]} ∪ found)
      | None =>
          log_line Warning
            "No haystack index name found for %r. Mappings are %r"
            [LVal (PStr model)] ;;;
          collect_index_names rest found
      end
  end.

(** [search(query_string, **kwargs)]. The decorator [log_query] of
    haystack only records the query for the debug log around the call. *)
Definition search (query_string : string) (kwargs : search_kwargs)
  : M engine json :=
  if Nat.eqb (String.length query_string) 0 then ret no_results
  else
    complete <- gets (fun s => setup_complete (backend_of s)) ;;
    (if negb complete then setup else ret tt) ;;;
    body <- lift (search_body R query_string kwargs) ;;
    let start := default 0%Z (start_offset kwargs) in
    let size :=
      match end_offset kwargs with
      | Some stop => if Z.ltb start stop then Some (stop - start)%Z else None
      | None => None
      end in
    index_names <-
      (match models kwargs with
       | _ :: _ =>
           found <- collect_index_names (models kwargs) ∅ ;;
           if bool_decide (found = ∅) then
             raise (Exn HaystackError "No haystack indexes found for %s"
                      (map PStr (models kwargs)))
           else ret (elements found)
       | [] =>
           groups <- gets (fun s => index_groups (backend_of s)) ;;
           ret (map fst (map_to_list groups))
       end) ;;
    raw_results <-
      try_except (conn_search body index_names start size)
        (fun e =>
           if is_engine_failure e then
             quiet <- gets (fun s => silently_fail (backend_of s)) ;;
             if negb quiet then raise e
             else
               log_line Error "Failed to query Elasticsearch using '%s': %s"
                 [LVal (PStr query_string); LExn e] ;;;
               ret (JDict ∅)
           else raise e) ;;
    ret (process_results R raw_results).

End WithRemote.

Arguments remote : clear implicits.

Definition is_search (r : request) : bool :=
  match r with Search _ _ _ _ => true | _ => false end.


Definition is_log (r : request) : bool :=
  match r with LogLine _ => true | _ => false end.


(** The window [search] asks for: [from] and, when the end lies beyond
    the start, [size]. *)
Definition window_of (kwargs : search_kwargs) (start : Z) (size : option Z)
  : Prop :=
  start = default 0%Z (start_offset kwargs)
  /\ match size with
     | Some n => (0 < n)%Z /\ end_offset kwargs = Some (start + n)%Z
     | None => forall stop, end_offset kwargs = Some stop -> (stop <= start)%Z
     end.

End Engine.

(* ===================================================================== *)
(** * apn_search/indexes.py: the name of an index                         *)
(* ===================================================================== *)

Module IndexName.
Import Options.

Definition dash : ascii := "-"%char.

(** [str(part)] for the parts of an index name. *)
Definition py_str (v : pyval) : string :=
  match v with
  | PNone => "None"
  | PBool true => "True"
  | PBool false => "False"
  | PInt z => pretty z
  | PStr s => s
  end.

(** [CommonSearchIndex.get_index_name]: the backend's index name, the
    model's app label and module name and the index version, joined with
    dashes, parts that are false left out. *)
Definition get_index_name (base_index_name app_label module_name : string)
    (version : pyval) : string :=
  let parts :=
    [PStr base_index_name; PStr app_label; PStr module_name; version] in
  Indexes.join dash (map py_str (List.filter py_truth parts)).

End IndexName.

(* ===================================================================== *)
(** * apn_search/query.py: the ids of the indexed documents               *)
(* ===================================================================== *)

Module Query.

(** [s.split(sep)] with no bound on the number of cuts. *)
Fixpoint split_all (sep : ascii) (s : string) : list string :=
  match s with
  | EmptyString => [EmptyString]
  | String c rest =>
      if Ascii.eqb c sep then EmptyString :: split_all sep rest
      else
        match split_all sep rest with
        | [] => [String c EmptyString]
        | piece :: pieces => String c piece :: pieces
        end
  end.

(** What the generator gives out. *)
Inductive output :=
  | Yielded (object_id : string)
  | Warned (r : log_record).

(** [app_name, model_name, object_id = document_id.split('.')] *)
Definition unpack_document_id (document_id : string)
  : res (string * string * string) :=
  match split_all Indexes.dot document_id with
  | [app_name; model_name; object_id] => Ok (app_name, model_name, object_id)
  | pieces =>
      Raise (Exn ValueError
               (if Nat.ltb (length pieces) 3
                then "need more than %d values to unpack"
                else "too many values to unpack")
               [PInt (Z.of_nat (length pieces))])
  end.

(** [get_django_ids], run over the document ids [get_document_ids]
    yields. *)
Fixpoint get_django_ids (strict : bool) (document_ids : list string)
  : M (list output) unit :=
  match document_ids with
  | [] => ret tt
  | document_id :: rest =>
      match unpack_document_id document_id with
      | Raise e =>
          if strict then raise e
          else
            modify (fun out =>
              (out ++ [Warned (LogRecord Warning
                                 "Invalid haystack document id: %r"
                                 [LVal (PStr document_id)] false)])%list)
      | Ok (app_name, model_name, object_id) =>
          modify (fun out => (out ++ [Yielded object_id])%list)
      end ;;;
      get_django_ids strict rest
  end.

Definition yielded_ids (out : list output) : list string :=
  flat_map (fun o => match o with Yielded x => [x] | Warned _ => [] end) out.

Definition warnings (out : list output) : list log_record :=
  flat_map (fun o => match o with Warned r => [r] | Yielded _ => [] end) out.

End Query.

(* ===================================================================== *)
(** * apn_search/management/commands/clean_index.py                       *)
(* ===================================================================== *)

Module CleanIndex.

Inductive label_kind := APP | MODEL.

Definition not_a_label (label : string) : exn :=
  Exn (OtherException "ImproperlyConfigured")
    "'%s' isn't recognized as an app (<app_label>) or model (<app_label>.<model_name>)."
    [PStr label].

(** [is_app_or_model(label)] *)
Definition is_app_or_model (label : string) : res label_kind :=
  let label_bits := Query.split_all Indexes.dot label in
  match length label_bits with
  | 1 => Ok APP
  | 2 => Ok MODEL
  | _ => Raise (not_a_label label)
  end.

(** A model, as far as the command looks at it: its [_meta]. *)
Record model := Model {
  app_label : string;
  module_name : string;
  verbose_name_plural : string
}.

(** [model_label(model)] *)
Definition model_label (m : model) : string :=
  app_label m +:+ "." +:+ module_name m.

(** What the command prints and which documents it has the backend
    remove, in order. *)
Inductive action :=
  | Printed (fmt : string) (args : list pyval)
  | Removed (document_id : string).

(** The database ids of a model
    ([set(smart_str(pk) for pk in index.index_queryset().values_list('id'))]),
    its indexed ids ([set(SearchQuerySet().models(model).get_django_ids())];
    the progress lines the query set prints while fetching at verbosity 2
    are its own and are not listed among the actions), and the backend's
    [remove], which may depend on what was done before. *)
Record site := Site {
  database_ids : model -> gset string;
  indexed_ids : model -> gset string;
  backend_remove : list action -> string -> res unit
}.

Section Command.

Variable S : site.
Variable verbosity : nat.

Definition print (fmt : string) (args : list pyval) : M (list action) unit :=
  modify (fun done => (done ++ [Printed fmt args])%list).

Definition print_if (wanted : bool) (fmt : string) (args : list pyval)
  : M (list action) unit :=
  if wanted then print fmt args else ret tt.

(** [remove_leftovers(model, pks)] *)
Definition remove_leftovers (m : model) (pks : gset string)
  : M (list action) unit :=
  let label := model_label m in
  for_each (elements pks) (fun pk =>
    let document_id := label +:+ "." +:+ pk in
    print_if (Nat.leb 2 verbosity) "Removing %s" [PStr document_id] ;;;
    fun done =>
      (backend_remove S done document_id,
       (done ++ [Removed document_id])%list)).

(** [handle_model(model, index)] *)
Definition handle_model (m : model) : M (list action) unit :=
  print_if (Nat.leb 1 verbosity) "Checking %s for leftovers."
    [PStr (verbose_name_plural m)] ;;;
  print_if (Nat.leb 1 verbosity) "Getting database ids..." [] ;;;
  let db_ids := database_ids S m in
  print_if (Nat.leb 1 verbosity) "Getting indexed ids..." [] ;;;
  let indexed := indexed_ids S m in
  let leftovers := indexed ∖ db_ids in
  let count := size leftovers in
  if negb (Nat.eqb count 0) then
    print_if (Nat.leb 1 verbosity) "Removing %d leftover document%s."
      [PInt (Z.of_nat count); PStr (if Nat.eqb count 1 then "" else "s")] ;;;
    remove_leftovers m leftovers
  else
    print_if (Nat.leb 2 verbosity) "Nothing to remove." [].

End Command.

Definition removed (done : list action) : list string :=
  flat_map (fun a => match a with Removed d => [d] | Printed _ _ => [] end)
           done.

End CleanIndex.

(* ===================================================================== *)
(** * apn_search/utils/shell.py                                           *)
(* ===================================================================== *)

Module Shell.

(** The escape character, ['\033']. *)
Definition escape : ascii := ascii_of_nat 27.

(** [ColorContext.end] *)
Definition end_ : string := String escape "[0m".

(** The class attribute [stack] (its top is the last element), and what
    was written to the two streams. *)
Record terminal := Terminal {
  stack : list string;
  stdout : list string;
  stderr : list string
}.

(** [stack = [end]] *)
Definition fresh_terminal : terminal := Terminal [end_] [] [].

Definition write_both (code : string) : M terminal unit :=
  modify (fun t =>
    Terminal (stack t) (stdout t ++ [code])%list (stderr t ++ [code])%list).

Definition empty_stack : exn :=
  Exn (OtherException "IndexError") "list index out of range" [].

(** [__enter__] of [ColorContext(start)] *)
Definition __enter__ (start : string) : M terminal unit :=
  let code := start in
  write_both code ;;;
  modify (fun t => Terminal (stack t ++ [code])%list (stdout t) (stderr t)).

(** [__exit__]: [self.stack.pop()], then the new top is written; both
    fail on an empty list. *)
Definition __exit__ : M terminal unit :=
  current <- gets stack ;;
  match current with
  | [] => raise empty_stack
  | _ :: _ =>
      let popped := removelast current in
      modify (fun t => Terminal popped (stdout t) (stderr t)) ;;;
      match last popped with
      | None => raise empty_stack
      | Some top => write_both top
      end
  end.

(** [with context: body]: [__exit__] runs whether the body returns or
    raises, and does not swallow the exception. *)
Definition with_ {S A} (enter : M S unit) (exit : M S unit) (body : M S A)
  : M S A :=
  enter ;;;
  fun s =>
    match body s with
    | (Ok a, s') =>
        match exit s' with
        | (Ok _, s'') => (Ok a, s'')
        | (Raise e, s'') => (Raise e, s'')
        end
    | (Raise e, s') =>
        match exit s' with
        | (Ok _, s'') => (Raise e, s'')
        | (Raise e', s'') => (Raise e', s'')
        end
    end.

(** [with ColorContext(start): body] *)
Definition colored {A} (start : string) (body : M terminal A) : M terminal A :=
  with_ (__enter__ start) __exit__ body.

(** ** [FilteredStdOut] *)

(** The wrapped stream and the flag [blocked]. *)
Record filtered := Filtered {
  blocked : bool;
  passed : list string
}.

(** [' \t\n\r\x0b\x0c']: what [str.strip()] removes. *)
Definition is_space (c : ascii) : bool :=
  let n := nat_of_ascii c in
  Nat.eqb n 32 || (Nat.leb 9 n && Nat.leb n 13).

(** [bool(string.strip())] *)
Fixpoint has_text (s : string) : bool :=
  match s with
  | EmptyString => false
  | String c rest => negb (is_space c) || has_text rest
  end.

Section Filter.

(** [self.pattern.search(string)] *)
Variable matches : string -> bool.

(** [FilteredStdOut.write] *)
Definition write (s : string) : M filtered unit :=
  state <- gets blocked ;;
  if matches s then modify (fun f => Filtered true (passed f))
  else if state then
    modify (fun f => Filtered false (passed f)) ;;;
    (* The print statement writes the newline character afterwards. *)
    if has_text s then modify (fun f => Filtered (blocked f) (passed f ++ [s])%list)
    else ret tt
  else modify (fun f => Filtered (blocked f) (passed f ++ [s])%list).

End Filter.

End Shell.

(* ===================================================================== *)
(** * Counting what the consumer did                                      *)
(* ===================================================================== *)

Module Accounting.
Import Consume.

Definition is_ack (e : event) : bool :=
  match e with Acked _ => true | _ => false end.

(** How many of the events satisfy a test. *)
Definition count (test : event -> bool) (l : list event) : nat :=
  length (List.filter test l).

(** A message as [pickle.loads] gives it back: the dictionary
    [queue_update] pickled. *)
Definition unpickled (message : gmap string pyval) : json :=
  JDict (JAtom <$> message).

End Accounting.

(* ===================================================================== *)
(** * More scenarios                                                      *)
(* ===================================================================== *)

Module MoreScenarios.
Import Mappings Backend Scenarios.

(** A production deployment (no debug, no test mode) whose engine cannot
    be reached. *)
Definition outage_world : world unit :=
  @World unit (Settings false false)
    (fun _ => ("text", {[ "rating" := number_field ]}))
    [("PostIndex", "blog-post")]
    (fun _ => tt)
    (fun _ obj => Ok (post_doc obj))
    (fun v => v)
    (fun _ _ => Raise engine_down)
    (fun _ _ _ => Raise engine_down)
    (fun _ => Raise engine_down)
    (fun _ _ _ => Raise engine_down)
    (fun _ _ => Raise engine_down).


(** The site of [Scenarios.site] once its queue is back. *)
Definition working_site : Update.services :=
  Update.Services "search_updates"
    (fun message =>
       match message !! "identifier" with
       | Some (PStr identifier) => identifier
       | _ => ""
       end)
    (fun _ _ _ => Ok tt)
    (fun identifier => negb (String.eqb identifier "blog.post.42"))
    (fun _ _ => Ok "Post")
    (fun _ => "Post")
    (fun _ => Ok "PostIndex")
    (fun _ _ => Ok true)
    (fun _ _ _ => Ok tt)
    (fun _ _ _ => Ok tt).

(** A consumer whose pickle gives back the dictionary that was pickled
    for post 42. *)
Definition faithful_consumer : Consume.collaborators nat :=
  Consume.Collaborators
    (fun body =>
       Ok (Accounting.unpickled
             (Update.queue_message (Identifier body) true)))
    (fun identifier remove attempts => (Ok tt, S attempts))
    []
    (fun _ => false).

(** A consumer that is handed the messages of some other producer: a
    dictionary without an identifier. *)
Definition stray_consumer : Consume.collaborators nat :=
  Consume.Collaborators
    (fun body => Ok (JDict {[ "remove" := JAtom (PBool true) ]}))
    (fun identifier remove attempts => (Ok tt, S attempts))
    []
    (fun _ => false).

(** An engine that [remove], [clear] and [search] cannot reach. *)
Definition down_remote : Engine.remote :=
  Engine.Remote (fun _ => "Post")
    (fun _ _ _ => Raise engine_down)
    (fun _ _ => Raise engine_down)
    (fun _ _ _ => Raise engine_down)
    (fun _ _ => Raise engine_down)
    (fun _ _ _ _ _ => Raise engine_down)
    (fun _ _ => Ok (JDict ∅))
    (fun raw => raw).

Definition ready_engine (quiet : bool) : Engine.engine :=
  Engine.Engine_ (ready_backend quiet) {[ "Post" := "blog-post" ]} [].

Definition fresh_engine (quiet : bool) : Engine.engine :=
  Engine.Engine_ (fresh_backend quiet) ∅ [].

(** The third page of ten results. *)
Definition third_page : Engine.search_kwargs :=
  Engine.SearchKwargs (Some 20%Z) (Some 30%Z) [].

(** [blue] of utils/shell.py *)
Definition blue : string := String Shell.escape "[94m".

End MoreScenarios.

(* --------------------------------------------------------------------- *)
(** ** Properties of identifier parsing                                   *)
(* --------------------------------------------------------------------- *)

Module IndexesFacts.
Import Indexes.

Lemma split_nonempty sep n s : split sep n s <> [].
Proof.
  revert n. induction s as [|c rest IH]; intros n; simpl; [easy|].
  destruct n as [|m]; [easy|].
  destruct (Ascii.eqb c sep); [easy|].
  destruct (split sep (S m) rest); easy.
Qed.

Lemma join_cons_app sep p ps :
  ps <> [] -> join sep (p :: ps) = p +:+ String sep (join sep ps).
Proof. destruct ps; [congruence | reflexivity]. Qed.

Lemma join_String_head sep c p ps :
  join sep (String c p :: ps) = String c (join sep (p :: ps)).
Proof. destruct ps; reflexivity. Qed.

(** Joining the pieces of a split gives the string back, whatever the
    bound on the number of cuts. *)
Lemma join_split sep n s : join sep (split sep n s) = s.
Proof.
  revert n. induction s as [|c rest IH]; intros n; simpl; [reflexivity|].
  destruct n as [|m]; [reflexivity|].
  destruct (Ascii.eqb_spec c sep) as [->|Hne].
  - rewrite join_cons_app by apply split_nonempty.
    simpl. now rewrite IH.
  - specialize (IH (S m)).
    pose proof (split_nonempty sep (S m) rest) as Hnil.
    destruct (split sep (S m) rest) as [|piece pieces]; [congruence|].
    rewrite join_String_head. now rewrite IH.
Qed.

Lemma split_length sep n s :
  length (split sep n s) = S (Nat.min n (count_sep sep s)).
Proof.
  revert n. induction s as [|c rest IH]; intros n; simpl.
  - now rewrite Nat.min_0_r.
  - destruct n as [|m]; [reflexivity|].
    destruct (Ascii.eqb c sep); simpl.
    + now rewrite IH.
    + specialize (IH (S m)).
      pose proof (split_nonempty sep (S m) rest) as Hnil.
      destruct (split sep (S m) rest) as [|piece pieces]; [congruence|].
      simpl in *. exact IH.
Qed.

Lemma count_sep_app sep a b :
  count_sep sep (a +:+ b) = count_sep sep a + count_sep sep b.
Proof. induction a as [|c a IH]; simpl; [reflexivity | rewrite IH; lia]. Qed.

Lemma count_sep_identifier a b c :
  2 <= count_sep dot (identifier_string a b c).
Proof.
  unfold identifier_string.
  rewrite count_sep_app. simpl. rewrite count_sep_app. simpl. lia.
Qed.

(** A piece cut before the bound is reached holds no separator. *)
Lemma split_no_sep_prefix sep n a rest :
  count_sep sep a = 0 ->
  split sep (S n) (a +:+ String sep rest) = a :: split sep n rest.
Proof.
  induction a as [|c a IH]; simpl; intros H0.
  - now rewrite Ascii.eqb_refl.
  - destruct (Ascii.eqb c sep); [discriminate|].
    simpl in H0. now rewrite (IH H0).
Qed.

Lemma split_zero sep s : split sep 0 s = [s].
Proof. destruct s; reflexivity. Qed.

(** With dot-free [app_label] and [model] the parse returns the very
    components, also when the primary key itself contains dots. *)
Lemma split_identifier_components a b c :
  count_sep dot a = 0 -> count_sep dot b = 0 ->
  split_identifier (identifier_string a b c) = Ok (a, b, c).
Proof.
  intros Ha Hb. unfold split_identifier, identifier_string.
  rewrite (split_no_sep_prefix dot 1 a _ Ha).
  rewrite (split_no_sep_prefix dot 0 b _ Hb).
  now rewrite split_zero.
Qed.

(** C9. Every identifier string ["<namespace>.<name>.<pk>"] splits into
    exactly three components (the split of [_get_model] does not raise),
    and putting the three components back together with dots yields the
    original string. *)
Theorem identifier_roundtrip (app_label model object_pk : string) :
  exists t,
    split_identifier (identifier_string app_label model object_pk) = Ok t
    /\ rebuild t = identifier_string app_label model object_pk.
Proof.
  set (s := identifier_string app_label model object_pk).
  pose proof (join_split dot 2 s) as Hjoin.
  pose proof (split_length dot 2 s) as Hlen.
  pose proof (count_sep_identifier app_label model object_pk) as Hcnt.
  fold s in Hcnt.
  rewrite Nat.min_l in Hlen by exact Hcnt.
  unfold split_identifier.
  destruct (split dot 2 s) as [|a [|b [|c [|d rest]]]]; simpl in Hlen; try lia.
  exists (a, b, c). split; [reflexivity|].
  exact Hjoin.
Qed.

Example split_identifier_blog :
  split_identifier "blog.post.42" = Ok ("blog", "post", "42").
Proof. reflexivity. Qed.

Example split_identifier_dotted_pk :
  split_identifier "blog.post.4.2" = Ok ("blog", "post", "4.2").
Proof. reflexivity. Qed.

Example split_identifier_short :
  is_ok (split_identifier "blog.post") = false.
Proof. reflexivity. Qed.

End IndexesFacts.

(* --------------------------------------------------------------------- *)
(** ** Properties of conflict detection                                   *)
(* --------------------------------------------------------------------- *)

Module MappingsFacts.
Import Mappings Scenarios.

Lemma occurrences_app f xs ys :
  occurrences f (xs ++ ys) = occurrences f xs + occurrences f ys.
Proof. unfold occurrences. now rewrite List.filter_app, length_app. Qed.

Section FlatMap.

(** A generator body that only ever yields the name it is run for. *)
Variable body : string -> list string.
Hypothesis body_own : forall x y, In y (body x) -> y = x.

Lemma occurrences_other f x : x <> f -> occurrences f (body x) = 0.
Proof.
  intros Hne. unfold occurrences.
  induction (body x) as [|y ys IH] eqn:E in body_own |- *; [reflexivity|].
  simpl. destruct (String.eqb_spec f y) as [->|_].
  - exfalso. apply Hne. symmetry. apply body_own. rewrite E. now left.
  - clear IH.
    assert (Hall : forall z, In z ys -> z = x).
    { intros z Hz. apply body_own. rewrite E. now right. }
    clear E. induction ys as [|z zs IHz]; [reflexivity|].
    simpl. destruct (String.eqb_spec f z) as [->|_].
    + exfalso. apply Hne. symmetry. apply Hall. now left.
    + apply IHz. intros w Hw. apply Hall. now right.
Qed.

Lemma occurrences_absent f xs :
  ~ In f xs -> occurrences f (flat_map body xs) = 0.
Proof.
  induction xs as [|x xs IH]; intros Hnot; [reflexivity|].
  simpl. rewrite occurrences_app.
  rewrite occurrences_other by (intros ->; apply Hnot; now left).
  apply IH. intros Hin. apply Hnot. now right.
Qed.

Lemma occurrences_present f xs :
  List.NoDup xs -> In f xs ->
  occurrences f (flat_map body xs) = occurrences f (body f).
Proof.
  induction 1 as [|x xs Hx Hnd IH]; intros Hin; [destruct Hin|].
  simpl. rewrite occurrences_app.
  destruct Hin as [->|Hin].
  - rewrite occurrences_absent by exact Hx. lia.
  - rewrite occurrences_other by (intros ->; contradiction).
    now apply IH.
Qed.

End FlatMap.

Lemma field_conflicts_own f e n y : In y (field_conflicts f e n) -> y = f.
Proof.
  unfold field_conflicts, PROP_NAMES. simpl.
  repeat destruct (prop_conflicts e n _); simpl; intuition congruence.
Qed.

Lemma occurrences_field_conflicts f e n :
  occurrences f (field_conflicts f e n)
  = length (List.filter (prop_conflicts e n) PROP_NAMES).
Proof.
  unfold field_conflicts, occurrences, PROP_NAMES. simpl.
  repeat destruct (prop_conflicts e n _); simpl;
    rewrite ?String.eqb_refl; reflexivity.
Qed.

Lemma properties_of_nonempty (m : mappings) ps :
  properties_of m = Some ps -> falsy (Some m) = false.
Proof.
  unfold properties_of, falsy. intros H.
  apply bool_decide_eq_false. intros ->.
  now rewrite lookup_empty in H.
Qed.

Lemma find_conflicts_run (old new : mappings) (old_props new_props : properties) :
  properties_of old = Some old_props ->
  properties_of new = Some new_props ->
  find_conflicts (Some old) (Some new)
  = Ok (flat_map
          (fun field_name =>
             match old_props !! field_name, new_props !! field_name with
             | Some e, Some n => field_conflicts field_name e n
             | _, _ => []
             end)
          (shared_fields old_props new_props)).
Proof.
  intros Ho Hn. unfold find_conflicts.
  rewrite (properties_of_nonempty _ _ Ho), (properties_of_nonempty _ _ Hn).
  simpl. unfold properties_of in Ho, Hn. unfold subscript.
  destruct (old !! "modelresult") as [od|]; [|discriminate].
  simpl. rewrite Ho. simpl.
  destruct (new !! "modelresult") as [nd|]; [|discriminate].
  simpl. now rewrite Hn.
Qed.

Lemma shared_fields_spec (old_props new_props : properties) f :
  In f (shared_fields old_props new_props)
  <-> is_Some (old_props !! f) /\ is_Some (new_props !! f).
Proof.
  unfold shared_fields. rewrite <- list_elem_of_In, elem_of_elements.
  rewrite elem_of_intersection, !elem_of_dom. reflexivity.
Qed.

Lemma shared_fields_NoDup (old_props new_props : properties) :
  List.NoDup (shared_fields old_props new_props).
Proof. apply NoDup_ListNoDup, NoDup_elements. Qed.

(** The count of a shared field in the conflict sequence is the number of
    its properties, among analyzer, store and type, that conflict. *)
Lemma find_conflicts_count (old new : mappings)
    (old_props new_props : properties) (f : string) (e n : descriptor) :
  properties_of old = Some old_props ->
  properties_of new = Some new_props ->
  old_props !! f = Some e ->
  new_props !! f = Some n ->
  exists yielded,
    find_conflicts (Some old) (Some new) = Ok yielded
    /\ occurrences f yielded
       = length (List.filter (prop_conflicts e n) PROP_NAMES).
Proof.
  intros Ho Hn He Hnew.
  eexists. split; [apply (find_conflicts_run _ _ _ _ Ho Hn)|].
  rewrite occurrences_present.
  - rewrite He, Hnew. apply occurrences_field_conflicts.
  - intros x y. destruct (old_props !! x), (new_props !! x); simpl;
      try contradiction. apply field_conflicts_own.
  - apply shared_fields_NoDup.
  - apply shared_fields_spec. rewrite He, Hnew. split; eauto.
Qed.

(** Schemas with no field in common yield nothing. *)
Lemma find_conflicts_disjoint (old new : mappings)
    (old_props new_props : properties) :
  properties_of old = Some old_props ->
  properties_of new = Some new_props ->
  dom old_props ∩ dom new_props = ∅ ->
  find_conflicts (Some old) (Some new) = Ok [].
Proof.
  intros Ho Hn Hd. rewrite (find_conflicts_run _ _ _ _ Ho Hn).
  unfold shared_fields. rewrite Hd, elements_empty. reflexivity.
Qed.

(** C7, as stated, fails: a field whose type and analyzer both changed is
    yielded twice. The field ["rating"] is present in both schemas, its
    type values differ (['string'] against ['long']) and are not an
    equivalence pair, yet the conflict sequence holds it two times. *)
Lemma find_conflicts_yields_twice :
  let old := modelresult {[ "rating" := text_field ]} in
  let new := modelresult {[ "rating" := number_field ]} in
  py_eq (dict_get number_field "type") (dict_get text_field "type") = false
  /\ equivalent_values (dict_get text_field "type")
       (dict_get number_field "type") = false
  /\ find_conflicts (Some old) (Some new) = Ok ["rating"; "rating"]
  /\ occurrences "rating" ["rating"; "rating"] <> 1.
Proof. vm_compute. repeat split; discriminate. Qed.

(** C7, amended. For every pair of schemas and every field present in
    both, if the field's type values differ and are not an equivalence
    pair, [find_conflicts] yields the field name once for each of the
    properties analyzer, store and type that conflicts: at least once, at
    most three times, and exactly once when its analyzer and store do not
    conflict. *)
Theorem find_conflicts_type_change (old new : mappings)
    (old_props new_props : properties) (f : string) (e n : descriptor) :
  properties_of old = Some old_props ->
  properties_of new = Some new_props ->
  old_props !! f = Some e ->
  new_props !! f = Some n ->
  py_eq (dict_get n "type") (dict_get e "type") = false ->
  equivalent_values (dict_get e "type") (dict_get n "type") = false ->
  exists yielded,
    find_conflicts (Some old) (Some new) = Ok yielded
    /\ occurrences f yielded
       = length (List.filter (prop_conflicts e n) PROP_NAMES)
    /\ 1 <= occurrences f yielded <= 3
    /\ (prop_conflicts e n "analyzer" = false ->
        prop_conflicts e n "store" = false ->
        occurrences f yielded = 1).
Proof.
  intros Ho Hn He Hnew Hdiff Hneq.
  destruct (find_conflicts_count _ _ _ _ f e n Ho Hn He Hnew)
    as (yielded & Hrun & Hcount).
  exists yielded. split; [exact Hrun|]. split; [exact Hcount|].
  assert (Htype : prop_conflicts e n "type" = true).
  { unfold prop_conflicts. now rewrite Hdiff, Hneq. }
  rewrite Hcount. unfold PROP_NAMES. simpl. rewrite Htype.
  split.
  - destruct (prop_conflicts e n "analyzer"), (prop_conflicts e n "store");
      simpl; lia.
  - intros -> ->. reflexivity.
Qed.

Lemma find_conflicts_type_change_witness :
  exists yielded,
    find_conflicts (Some (modelresult {[ "rating" := stored_number_field ]}))
                   (Some (modelresult {[ "rating" := text_field ]}))
    = Ok yielded
    /\ occurrences "rating" yielded = 1.
Proof.
  destruct (find_conflicts_type_change
              (modelresult {[ "rating" := stored_number_field ]})
              (modelresult {[ "rating" := text_field ]})
              {[ "rating" := stored_number_field ]}
              {[ "rating" := text_field ]}
              "rating" stored_number_field text_field)
    as (yielded & Hrun & _ & _ & Honce);
    try (vm_compute; reflexivity).
  exists yielded. split; [exact Hrun|].
  apply Honce; vm_compute; reflexivity.
Defined.

End MappingsFacts.

(* --------------------------------------------------------------------- *)
(** ** Properties of the backend                                          *)
(* --------------------------------------------------------------------- *)

Module BackendFacts.
Import Mappings Backend Scenarios.

(** *** Response validation *)

Lemma scan_items_clean items errors :
  forallb is_dict items = true ->
  existsb carries_error items = false ->
  scan_items items errors = Ok errors.
Proof.
  revert errors. induction items as [|it rest IH]; intros errors Hd Hc;
    [reflexivity|].
  simpl in Hd, Hc. apply andb_prop in Hd as [Hit Hrest].
  apply orb_false_elim in Hc as [Hc Hcrest].
  destruct it as [v|l|d]; try discriminate. simpl in *.
  destruct (d !! "index") as [[v|l|index]|]; auto.
  destruct (index !! "error") as [err|] eqn:E; auto.
  exfalso. apply bool_decide_eq_false in Hc. apply Hc. eauto.
Qed.

(** Once an error has been collected, or if one is still to come, the
    scan cannot end with an empty list. *)
Lemma scan_items_dirty items errors :
  errors <> [] \/ existsb carries_error items = true ->
  (exists e, scan_items items errors = Raise e)
  \/ (exists found, scan_items items errors = Ok found /\ found <> []).
Proof.
  revert errors. induction items as [|it rest IH]; intros errors H.
  - right. exists errors. split; [reflexivity|].
    destruct H as [H|H]; [exact H | discriminate].
  - simpl. destruct it as [v|l|d]; try (left; eauto; fail).
    simpl in H.
    destruct (d !! "index") as [[v|l|index]|];
      try (apply IH; destruct H as [H|H]; [now left | now right]).
    destruct (index !! "error") as [err|] eqn:E.
    + apply IH. left. now destruct errors.
    + apply IH. destruct H as [H|H]; [now left|]. right.
      rewrite bool_decide_eq_false_2 in H; [exact H|].
      intros [x Hx]. congruence.
Qed.

(** What the scan looks for is one way of carrying an error. *)
Lemma carries_error_embeds (item : json) :
  carries_error item = true -> embeds_error item = true.
Proof.
  destruct item as [v|l|d]; simpl; try discriminate.
  destruct (d !! "index") as [[v|l|index]|] eqn:Hindex; try discriminate.
  intros Herr. apply existsb_exists. exists ("index", JDict index).
  split; [|exact Herr].
  apply list_elem_of_In, elem_of_map_to_list. exact Hindex.
Qed.

(** C4, as stated, fails: the scan reads only the ['index'] entry of an
    item. A response whose item carries its error under ['create'] goes
    through the transport and is returned as a success. *)
Lemma send_request_passes_create_error :
  bulk_create_refused !! "items" = Some (JList create_refused_items)
  /\ existsb embeds_error create_refused_items = true
  /\ _send_request (Ok (JDict bulk_create_refused))
     = Ok (JDict bulk_create_refused).
Proof. vm_compute. repeat split. Qed.

(** C4, amended. A response that went through the transport successfully
    and holds a list under ['items']: if some item carries an error under
    its ['index'] entry (the entry is a dictionary with an ['error'] key),
    [_send_request] raises; if every item is a result dictionary and none
    carries an error under ['index'], the response data is returned
    unchanged. *)
Theorem send_request_checks_items (d : gmap string json) (items : list json) :
  d !! "items" = Some (JList items) ->
  (existsb carries_error items = true ->
   exists e, _send_request (Ok (JDict d)) = Raise e)
  /\ (forallb is_dict items = true ->
      existsb carries_error items = false ->
      _send_request (Ok (JDict d)) = Ok (JDict d)).
Proof.
  intros Hitems. unfold _send_request. simpl. rewrite Hitems. split.
  - intros Hc.
    destruct (scan_items_dirty items [] (or_intror Hc))
      as [[e ->]|(found & -> & Hne)]; simpl; [eauto|].
    destruct found as [|x xs]; [congruence|].
    destruct (join_lines (x :: xs)); simpl; eauto.
  - intros Hd Hc. now rewrite (scan_items_clean items [] Hd Hc).
Qed.

Lemma send_request_checks_items_witness :
  (exists e, _send_request (Ok (JDict bulk_partly_failed)) = Raise e)
  /\ _send_request (Ok (JDict bulk_succeeded)) = Ok (JDict bulk_succeeded).
Proof.
  split.
  - apply (send_request_checks_items bulk_partly_failed
             [ JDict {[ "index" := JDict {[ "_id" := JAtom (PStr "blog.post.1");
                                            "ok" := JAtom (PBool true) ]} ]};
               JDict {[ "index" := JDict {[ "_id" := JAtom (PStr "blog.post.2");
                                            "error" := JAtom (PStr "MapperParsingException") ]} ]} ]);
      vm_compute; reflexivity.
  - apply (send_request_checks_items bulk_succeeded
             [ JDict {[ "index" := JDict {[ "_id" := JAtom (PStr "blog.post.1");
                                            "ok" := JAtom (PBool true) ]} ]} ]);
      vm_compute; reflexivity.
Defined.

Example send_request_error_raised :
  _send_request (Ok (JDict bulk_partly_failed))
  = Raise (Exn ElasticSearchError "%d errors in response: %r"
             [PInt 1; PStr "MapperParsingException"]).
Proof. vm_compute. reflexivity. Qed.


(** *** Schema build *)

Section BuildSchema.

Context {Fields : Type}.
Variable W : world Fields.

(** The analyzer step leaves ['type'] and ['index'] alone. *)
Lemma adjust_mapping_type (m : descriptor) :
  dict_get (adjust_mapping m) "type" = dict_get m "type".
Proof.
  unfold adjust_mapping, dict_get.
  repeat match goal with
         | |- context [if ?c then _ else _] => destruct c
         end;
    now rewrite ?lookup_insert_ne, ?lookup_delete_ne by discriminate.
Qed.

Lemma adjust_mapping_boolean_index (m : descriptor) :
  py_eq (dict_get m "type") (PStr "boolean") = true ->
  py_eq (dict_get (adjust_mapping m) "index") (PStr "analyzed") = false.
Proof.
  intros Hb. unfold adjust_mapping. rewrite Hb.
  destruct (py_eq (dict_get m "index") (PStr "analyzed")) eqn:Hi.
  - match goal with
    | |- context [if ?c then _ else _] => destruct c
    end; unfold dict_get;
      rewrite ?lookup_insert_ne, ?lookup_delete_ne by discriminate;
      now rewrite lookup_delete_eq.
  - match goal with
    | |- context [if ?c then _ else _] => destruct c
    end; unfold dict_get in *;
      rewrite ?lookup_insert_ne, ?lookup_delete_ne by discriminate;
      exact Hi.
Qed.

(** The loop never gives a descriptor an ['analyzer'] it did not have. *)
Lemma adjust_mapping_no_new_analyzer (m : descriptor) :
  m !! "analyzer" = None -> adjust_mapping m !! "analyzer" = None.
Proof.
  intros Hnone. unfold adjust_mapping.
  repeat match goal with
         | |- context [if ?c then _ else _] => destruct c
         end;
    rewrite ?lookup_insert_ne, ?lookup_delete_ne by discriminate;
    try exact Hnone; apply lookup_delete_eq.
Qed.

End BuildSchema.

(** C8, as stated, fails: on a backend that is not flagged as a newer
    engine version, [build_schema] returns haystack's schema untouched, and
    haystack describes a boolean field as
    [{'index': 'analyzed', 'store': 'yes', 'type': 'boolean'}]. *)
Lemma build_schema_keeps_analyzed_boolean :
  exists m,
    (build_schema boolean_world false tt).2 !! "is_live" = Some m
    /\ py_eq (dict_get m "type") (PStr "boolean") = true
    /\ m !! "index" = Some (PStr "analyzed").
Proof. exists haystack_boolean_field. vm_compute. repeat split. Qed.

(** C8, amended. On a backend flagged as a newer engine version, every
    field whose resulting mapping has type boolean carries no
    index=analyzed attribute in the returned schema, whatever the field
    definitions were, and it carries an analyzer only if haystack's schema
    for that field already had one; on other backends the schema is
    haystack's, unchanged. *)
Theorem build_schema_boolean {Fields : Type} (W : world Fields)
    (fields : Fields) (f : string) (m : descriptor) :
  (build_schema W true fields).2 !! f = Some m ->
  py_eq (dict_get m "type") (PStr "boolean") = true ->
  py_eq (dict_get m "index") (PStr "analyzed") = false
  /\ m !! "index" <> Some (PStr "analyzed")
  /\ (forall m0, (base_build_schema W fields).2 !! f = Some m0 ->
                 m0 !! "analyzer" = None -> m !! "analyzer" = None)
  /\ build_schema W false fields = base_build_schema W fields.
Proof.
  unfold build_schema.
  destruct (base_build_schema W fields) as [content_field field_mapping].
  simpl. rewrite lookup_fmap. intros Hm Hb.
  destruct (field_mapping !! f) as [m0|] eqn:E; [|discriminate].
  simpl in Hm. injection Hm as <-.
  rewrite adjust_mapping_type in Hb.
  pose proof (adjust_mapping_boolean_index m0 Hb) as Hidx.
  repeat split.
  - exact Hidx.
  - intros Hlook. unfold dict_get in Hidx. rewrite Hlook in Hidx.
    discriminate.
  - intros m1 Hm1 Hnone. injection Hm1 as <-.
    now apply adjust_mapping_no_new_analyzer.
Qed.

Lemma build_schema_boolean_witness :
  exists m,
    (build_schema boolean_world true tt).2 !! "is_live" = Some m
    /\ m !! "index" <> Some (PStr "analyzed")
    /\ m !! "analyzer" = None.
Proof.
  exists (delete "index" haystack_boolean_field).
  assert (Hlook : (build_schema boolean_world true tt).2 !! "is_live"
                  = Some (delete "index" haystack_boolean_field))
    by (vm_compute; reflexivity).
  destruct (build_schema_boolean boolean_world tt "is_live"
              (delete "index" haystack_boolean_field) Hlook)
    as (_ & Hidx & Hana & _); [vm_compute; reflexivity|].
  split; [exact Hlook|]. split; [exact Hidx|].
  apply (Hana haystack_boolean_field); vm_compute; reflexivity.
Defined.

(** An n-gram analyzer is renamed, not dropped. *)
Example adjust_mapping_ngram :
  adjust_mapping {[ "type" := PStr "string";
                    "analyzer" := PStr "edgengram_analyzer" ]}
  = {[ "type" := PStr "string";
       "index_analyzer" := PStr "edgengram_analyzer";
       "search_analyzer" := PStr "default" ]}.
Proof. vm_compute. reflexivity. Qed.


(** *** Setup *)

Section Setup.

Context {Fields : Type}.
Variable W : world Fields.

(** Once the index could not be created or the mapping not pushed, and
    failures are not silenced, what leaves [setup] is the original error:
    also when the conflict check found a conflicting field, because the
    [HaystackError] raised for it is caught by the [except Exception]
    around the check. *)
Lemma setup_failed_reraises (index_name : string) (current : mappings)
    (error : exn) (b : backend) :
  DEBUG (django_settings W) || TEST_MODE (django_settings W)
    || negb (silently_fail b) = true ->
  (setup_failed W index_name current error b).1 = Raise error.
Proof.
  intros Hloud. unfold setup_failed, conn_get_mapping. run.
  destruct (get_mapping W (calls b)) as [all|raised]; simpl.
  - unfold subscript. destruct (all !! index_name) as [found|]; simpl.
    + rewrite Hloud.
      destruct (find_conflicts _ _) as [[|field_name rest]|e]; reflexivity.
    + rewrite Hloud.
      destruct (find_conflicts _ _) as [[|field_name rest]|e]; reflexivity.
  - destruct (is_class KeyError raised); simpl.
    + rewrite Hloud.
      destruct (find_conflicts _ _) as [[|field_name rest]|e]; reflexivity.
    + destruct (silently_fail b) eqn:Hq; simpl; [|reflexivity].
      rewrite ?Hq. simpl. simpl in Hloud. rewrite Hloud.
      destruct (find_conflicts _ _) as [[|field_name rest]|e]; reflexivity.
Qed.

End Setup.

(** C3 at the failing input: debug mode, failures not silenced, the push
    of the mapping fails and the engine's schema conflicts with the new
    one on ["rating"]. The conflict is detected, but [setup] raises the
    engine's error, not the mapping conflict error naming the field. *)
Theorem setup_masks_mapping_conflict :
  let after := setup conflict_world (fresh_backend false) in
  existing_mapping after.2 = Some deployed_mapping
  /\ find_conflicts (existing_mapping after.2)
       (Some (modelresult {[ "rating" := number_field ]}))
     = Ok ["rating"; "rating"]
  /\ after.1 = Raise merge_error
  /\ after.1 <> Raise (conflict_error "rating")
  /\ setup_complete after.2 = false.
Proof. vm_compute. repeat split; discriminate. Qed.


(** *** Batch update *)

Section BatchUpdate.

Context {Fields : Type}.
Variable W : world Fields.

Lemma prepare_docs_ok index objs docs acc b :
  prepared W index objs docs ->
  prepare_docs W index objs acc b = (Ok (acc ++ converted W docs)%list, b).
Proof.
  intros H. revert acc. induction H as [|obj d objs docs Hd _ IH]; intros acc.
  - simpl. unfold ret. now rewrite app_nil_r.
  - simpl. run. rewrite Hd. simpl. rewrite IH.
    now rewrite <- app_assoc.
Qed.

Lemma prepare_docs_raises index good bad rest docs e acc b :
  silently_fail b = false ->
  prepared W index good docs ->
  full_prepare W index bad = Raise e ->
  prepare_docs W index (good ++ bad :: rest) acc b = (Raise e, b).
Proof.
  intros Hq H Hbad. revert acc.
  induction H as [|obj d objs docs Hd _ IH]; intros acc.
  - simpl. run. rewrite Hbad. simpl.
    destruct (is_request_exception e || is_class ElasticSearchError e);
      simpl; [now rewrite Hq | reflexivity].
  - simpl. run. rewrite Hd. simpl. apply IH.
Qed.

(** On a backend that silences failures the handler itself fails: the log
    line reads [e.__name__] off the exception instance. *)
Lemma prepare_docs_silent index good bad rest docs e acc b :
  silently_fail b = true ->
  is_request_exception e || is_class ElasticSearchError e = true ->
  prepared W index good docs ->
  full_prepare W index bad = Raise e ->
  prepare_docs W index (good ++ bad :: rest) acc b
  = (Raise (Exn AttributeError "object has no attribute %r" [PStr "__name__"]),
     b).
Proof.
  intros Hq Hcls H Hbad. revert acc.
  induction H as [|obj d objs docs Hd _ IH]; intros acc.
  - simpl. run. rewrite Hbad. simpl. rewrite Hcls. simpl. now rewrite Hq.
  - simpl. run. rewrite Hd. simpl. apply IH.
Qed.

End BatchUpdate.

(** C6, as stated, fails: with three entities of which the second cannot
    be prepared, on a backend that does not silence failures, the
    exception leaves [update] and nothing is submitted, not even the
    documents of the first and third entity. *)
Lemma update_aborts_on_preparation_failure :
  let after :=
    update batch_world "PostIndex" [post "1"; post "2"; post "3"] true
      (ready_backend false) in
  after.1 = Raise preparation_error
  /\ List.filter is_bulk_index (calls after.2) = []
  /\ calls after.2 = [].
Proof. vm_compute. repeat split. Qed.

(** With failures silenced the batch is lost as well: the handler's log
    line raises. *)
Example update_silent_preparation_failure :
  let after :=
    update batch_world "PostIndex" [post "1"; post "2"; post "3"] true
      (ready_backend true) in
  after.1
  = Raise (Exn AttributeError "object has no attribute %r" [PStr "__name__"])
  /\ calls after.2 = [].
Proof. vm_compute. repeat split. Qed.

(** C6, amended. On a backend that is set up and knows the index: when
    the preparation of every entity succeeds, the documents of all
    entities are submitted, in order, in one bulk write (followed by a
    refresh when asked for and the write went through); when failures are
    not silenced, the first preparation failure leaves [update] as it was
    raised and no call reaches the engine. *)
Theorem update_batch {Fields : Type} (W : world Fields) (b : backend)
    (index index_name : string) (commit : bool) :
  setup_complete b = true ->
  index_names b !! index = Some index_name ->
  (forall objs docs,
     prepared W index objs docs ->
     let after := update W index objs commit b in
     let written := converted W docs in
     calls after.2
     = (calls b ++
        BulkIndex index_name "modelresult" written ::
        (if is_ok (_send_request
                     (bulk_response W (calls b) index_name written))
            && commit
         then [Refresh index_name] else []))%list)
  /\ (silently_fail b = false ->
      forall good bad rest docs e,
        prepared W index good docs ->
        full_prepare W index bad = Raise e ->
        update W index (good ++ bad :: rest) commit b = (Raise e, b)).
Proof.
  intros Hset Hname. split.
  - intros objs docs Hprep. unfold update, ensure_setup. run.
    rewrite Hset. simpl.
    rewrite (prepare_docs_ok W index objs docs [] b Hprep). simpl.
    unfold subscript. rewrite Hname. simpl.
    unfold conn_bulk_index, conn_refresh.
    destruct (_send_request _) as [answer|e]; simpl.
    + destruct commit; simpl; [|reflexivity].
      now rewrite <- app_assoc.
    + reflexivity.
  - intros Hq good bad rest docs e Hprep Hbad.
    unfold update, ensure_setup. run. rewrite Hset. simpl.
    now rewrite (prepare_docs_raises W index good bad rest docs e [] b Hq Hprep Hbad).
Qed.

Lemma update_batch_witness :
  calls (update batch_world "PostIndex" [post "1"; post "3"] true
           (ready_backend false)).2
  = [ BulkIndex "blog-post" "modelresult" [post_doc (post "1"); post_doc (post "3")];
      Refresh "blog-post" ]
  /\ update batch_world "PostIndex" [post "1"; post "2"; post "3"] true
       (ready_backend false)
     = (Raise preparation_error, ready_backend false).
Proof.
  destruct (update_batch batch_world (ready_backend false)
              "PostIndex" "blog-post" true)
    as [Hall Hfirst]; [reflexivity | vm_compute; reflexivity |].
  split.
  - rewrite (Hall [post "1"; post "3"]
               [post_doc (post "1"); post_doc (post "3")]).
    + vm_compute. reflexivity.
    + repeat constructor.
  - apply (Hfirst eq_refl [post "1"] (post "2") [post "3"]
             [post_doc (post "1")] preparation_error).
    + repeat constructor.
    + reflexivity.
Defined.

End BackendFacts.

(* --------------------------------------------------------------------- *)
(** ** Properties of the update functions                                 *)
(* --------------------------------------------------------------------- *)

Module UpdateFacts.
Import Backend Update Scenarios.
Local Open Scope list_scope.

Section UpdateRuns.

Variable W : services.

(** With [exception_handling=True] nothing leaves [update_object]. *)
Lemma update_object_handled obj remove events :
  (update_object W obj remove true events).1 = Ok tt.
Proof.
  unfold update_object. run.
  destruct (update_object_body W obj remove events) as [[[]|e] events'];
    reflexivity.
Qed.

(** The run of [remove_object]. *)
Lemma remove_object_run index obj events :
  remove_object W index obj events
  = (base_remove_object W
       (events ++ [CallRemoveObject index obj]
               ++ [removing_info (get_identifier obj)]) index obj,
     events ++ [CallRemoveObject index obj;
                removing_info (get_identifier obj);
                IndexDelete index obj]).
Proof.
  unfold remove_object, logging, record_event, removing_info. run.
  rewrite <- !app_assoc. reflexivity.
Qed.

End UpdateRuns.

(** C10. For every identifier string passed to [update_object] with
    [remove=False] whose index is found: if the entity no longer exists
    (the lazy object made from the identifier is false), a warning naming
    the identifier is logged, [remove_object] is invoked on the index with
    that identifier, and no index write is attempted. *)
Theorem update_object_missing_entity (W : services) (identifier index : string)
    (exception_handling : bool) (events : list update_event) :
  get_index W (Identifier identifier) = Ok index ->
  exists_in_store W identifier = false ->
  let after :=
    update_object W (Identifier identifier) false exception_handling events in
  exists rest,
    after.2
    = events ++ [ missing_warning identifier;
                  CallRemoveObject index (Identifier identifier);
                  removing_info identifier;
                  IndexDelete index (Identifier identifier) ] ++ rest
    /\ (forall e, In e rest -> exists raised, e = update_failure identifier raised)
    /\ List.filter is_index_write
         ([ missing_warning identifier;
            CallRemoveObject index (Identifier identifier);
            removing_info identifier;
            IndexDelete index (Identifier identifier) ] ++ rest) = [].
Proof.
  intros Hindex Hgone. simpl.
  unfold update_object, update_object_body. run.
  rewrite Hindex. simpl. rewrite Hgone. simpl.
  unfold remove_object, logging, record_event. run.
  rewrite <- ?app_assoc. simpl.
  destruct (base_remove_object W _ index (Identifier identifier)) as [[]|raised];
    simpl.
  - exists []. rewrite <- ?app_assoc. simpl. repeat split.
    intros e [].
  - destruct exception_handling; simpl.
    + exists [update_failure identifier raised].
      rewrite <- ?app_assoc. simpl. repeat split.
      intros e [<-|[]]. eauto.
    + exists []. rewrite <- ?app_assoc. simpl. repeat split.
      intros e [].
Qed.

Lemma update_object_missing_entity_witness :
  (update_object site (Identifier "blog.post.42") false true []).2
  = [ missing_warning "blog.post.42";
      CallRemoveObject "PostIndex" (Identifier "blog.post.42");
      removing_info "blog.post.42";
      IndexDelete "PostIndex" (Identifier "blog.post.42") ].
Proof.
  destruct (update_object_missing_entity site "blog.post.42" "PostIndex"
              true []) as (rest & Hrun & _ & _);
    [reflexivity | reflexivity |].
  vm_compute. reflexivity.
Defined.

(** C5. For every item and remove flag, if putting the serialized message
    on the queue raises, [queue_update] logs the failure and goes on as
    [update_object] called with the same item and the same remove flag;
    nothing is raised to the caller. *)
Theorem queue_update_falls_back (W : services) (obj : item) (remove : bool)
    (events : list update_event) (e : exn) :
  queue_put W events (QUEUE_NAME W)
    (pickle_dumps W (queue_message obj remove)) = Raise e ->
  queue_update W obj remove events
  = update_object W obj remove true (events ++ [queue_failure e])
  /\ (queue_update W obj remove events).1 = Ok tt.
Proof.
  intros Hput.
  assert (Hrun : queue_update W obj remove events
                 = update_object W obj remove true (events ++ [queue_failure e])).
  { unfold queue_update. run. rewrite Hput. reflexivity. }
  split; [exact Hrun|].
  rewrite Hrun. apply update_object_handled.
Qed.

Lemma queue_update_falls_back_witness :
  queue_update site (ModelInstance "Post" "blog.post.7") false []
  = update_object site (ModelInstance "Post" "blog.post.7") false true
      [queue_failure queue_down].
Proof.
  apply (queue_update_falls_back site (ModelInstance "Post" "blog.post.7") false
           [] queue_down).
  reflexivity.
Defined.

(** The synchronous path taken after the queue failed writes the index. *)
Example queue_update_fallback_run :
  (queue_update site (ModelInstance "Post" "blog.post.7") false []).2
  = [ queue_failure queue_down;
      CallUpdateObject "PostIndex" (ModelInstance "Post" "blog.post.7");
      LoggedWith (LogRecord Info "Updating search index %r"
                [LVal (PStr "blog.post.7")] false) false;
      IndexWrite "PostIndex" (ModelInstance "Post" "blog.post.7") ].
Proof. vm_compute. reflexivity. Qed.

End UpdateFacts.

(* --------------------------------------------------------------------- *)
(** ** Properties of the queue consumer                                   *)
(* --------------------------------------------------------------------- *)

Module ConsumeFacts.
Import Consume Scenarios.
Local Open Scope list_scope.

Section HandlerRuns.

Context {World : Type}.
Variable C : collaborators World.

(** [on_error] never raises and only closes or drops connections. *)
Lemma on_error_run error (s : state World) :
  on_error C error s
  = (Ok tt, State (world s) (retry s) (events s ++ closing_events C error)).
Proof.
  unfold on_error, closing_events.
  destruct (is_class DatabaseError error).
  - generalize (connections C). intros l. revert s.
    induction l as [|c l IH]; intros s; simpl.
    + unfold ret. rewrite app_nil_r. now destruct s.
    + unfold bind. destruct (close_raises C c); unfold note_event, modify; simpl;
        rewrite IH; simpl; now rewrite <- app_assoc.
  - unfold ret. rewrite app_nil_r. now destruct s.
Qed.

Lemma closing_events_quiet error :
  List.filter is_attempt (closing_events C error) = []
  /\ existsb is_critical (closing_events C error) = false
  /\ (forall m, existsb (is_ack_of m) (closing_events C error) = false)
  /\ List.filter is_pause (closing_events C error) = [].
Proof.
  unfold closing_events. destruct (is_class DatabaseError error);
    [|repeat split].
  induction (connections C) as [|c l (IH1 & IH2 & IH3 & IH4)];
    [repeat split|].
  simpl. destruct (close_raises C c); simpl; repeat split; auto.
Qed.

(** The run of the handler when the first attempt fails with one of the
    [RetryExceptions]. *)
Lemma process_message_retry_run message_body message_id identifier remove
    (s : state World) e1 w1 :
  unpack C message_body = Ok (identifier, remove) ->
  update_object C identifier remove (world s) = (Raise e1, w1) ->
  is_retry_exception e1 = true ->
  process_message C message_body message_id s
  = (Ok tt,
     State (update_object C identifier remove w1).2 true
       (events s
        ++ [Attempt identifier remove; problem_warning identifier e1]
        ++ closing_events C e1
        ++ [Slept 1; Attempt identifier remove]
        ++ match (update_object C identifier remove w1).1 with
           | Ok _ => [Acked message_id]
           | Raise e2 => [could_not_process identifier e2;
                          not_accepting identifier]
           end)).
Proof.
  intros Hunpack Hfirst Hretry. unfold process_message. rewrite Hunpack.
  unfold update_search_index, set_retry, log_message, sleep, ack, note_event. run.
  rewrite Hfirst. simpl. rewrite Hretry. simpl.
  rewrite on_error_run. simpl.
  destruct (update_object C identifier remove w1) as [[[]|e2] w2]; simpl;
    repeat (rewrite <- ?app_assoc; simpl); reflexivity.
Qed.

End HandlerRuns.

(** Whatever the message and the outcome of the update, the handler
    returns. *)
Lemma process_message_returns {World : Type} (C : collaborators World)
    (message_body message_id : string) (s : state World) :
  (process_message C message_body message_id s).1 = Ok tt.
Proof.
  unfold process_message.
  destruct (unpack C message_body) as [[identifier remove]|error].
  - unfold update_search_index, set_retry, log_message, sleep, ack,
      note_event. run.
    destruct (update_object C identifier remove (world s)) as [[[]|e1] w1];
      simpl; [reflexivity|].
    destruct (is_retry_exception e1); simpl; [|reflexivity].
    rewrite on_error_run. simpl.
    destruct (update_object C identifier remove w1) as [[[]|e2] w2];
      reflexivity.
  - unfold log_message, ack, note_event. run. reflexivity.
Qed.

(** So the batch consumer goes through the whole queue. *)
Lemma start_cron_returns {World : Type} (C : collaborators World)
    (queue : list (string * string)) (s : state World) :
  (start_cron C queue s).1 = Ok tt.
Proof.
  revert s. induction queue as [|[message_body message_id] rest IH];
    intros s; [reflexivity|].
  unfold start_cron. simpl. unfold bind.
  pose proof (process_message_returns C message_body message_id s) as Hret.
  destruct (process_message C message_body message_id s) as [[[]|e] s'];
    simpl in Hret; [apply IH | discriminate].
Qed.

(** C1. For every queued message that deserializes successfully, if the
    first update attempt raises a transient error (HTTP error, connection
    error, timeout or database error, or an instance of a subclass of
    one of these), the handler pauses and makes
    exactly one more attempt; the message is acknowledged if and only if
    that retry succeeds; when the retry fails too the message is not
    acknowledged and a critical record is logged; in both cases the
    handler returns without raising. *)
Theorem process_message_retries_once {World : Type} (C : collaborators World)
    (message_body message_id : string) (identifier remove : json)
    (s : state World) (e1 : exn) (w1 : World) :
  unpack C message_body = Ok (identifier, remove) ->
  update_object C identifier remove (world s) = (Raise e1, w1) ->
  is_retry_exception e1 = true ->
  let second := update_object C identifier remove w1 in
  let after := process_message C message_body message_id s in
  exists before_retry outcome,
    after.1 = Ok tt
    /\ world after.2 = second.2
    /\ events after.2
       = events s
         ++ (Attempt identifier remove :: before_retry)
         ++ (Slept 1 :: Attempt identifier remove :: outcome)
    /\ List.filter is_attempt before_retry = []
    /\ List.filter is_attempt outcome = []
    /\ existsb (is_ack_of message_id) before_retry = false
    /\ (is_ok second.1 = true -> outcome = [Acked message_id])
    /\ (is_ok second.1 = false ->
        existsb (is_ack_of message_id) outcome = false
        /\ existsb is_critical outcome = true).
Proof.
  intros Hunpack Hfirst Hretry second after.
  pose proof (process_message_retry_run C message_body message_id identifier
                remove s e1 w1 Hunpack Hfirst Hretry) as Hrun.
  destruct (closing_events_quiet C e1) as (Hq1 & Hq2 & Hq3 & Hq4).
  exists (problem_warning identifier e1 :: closing_events C e1).
  exists (match second.1 with
          | Ok _ => [Acked message_id]
          | Raise e2 => [could_not_process identifier e2;
                         not_accepting identifier]
          end).
  subst after. rewrite Hrun. simpl.
  split; [reflexivity|]. split; [reflexivity|].
  split; [now rewrite <- ?app_assoc|].
  split; [exact Hq1|].
  subst second. destruct (update_object C identifier remove w1).1 as [[]|e2];
    simpl.
  - split; [reflexivity|]. split; [apply Hq3|].
    split; [reflexivity | discriminate].
  - split; [reflexivity|]. split; [apply Hq3|].
    split; [discriminate | intros _; split; reflexivity].
Qed.

Lemma process_message_retries_once_witness :
  (process_message (consumer 1 engine_down) "blog.post.42" "m-1" idle).1 = Ok tt
  /\ events (process_message (consumer 1 engine_down) "blog.post.42" "m-1" idle).2
     = [ Attempt (JAtom (PStr "blog.post.42")) (JAtom PNone);
         problem_warning (JAtom (PStr "blog.post.42")) engine_down;
         Slept 1;
         Attempt (JAtom (PStr "blog.post.42")) (JAtom PNone);
         Acked "m-1" ].
Proof.
  destruct (process_message_retries_once (consumer 1 engine_down)
              "blog.post.42" "m-1"
              (JAtom (PStr "blog.post.42")) (JAtom PNone) idle engine_down 1)
    as (before_retry & outcome & Hok & _);
    [reflexivity | reflexivity | reflexivity |].
  split; [exact Hok|]. vm_compute. reflexivity.
Defined.

(** Both attempts fail: the message stays on the queue. *)
Example process_message_outage :
  process_message (consumer 2 engine_down) "blog.post.42" "m-1" idle
  = (Ok tt,
     State 2 true
       [ Attempt (JAtom (PStr "blog.post.42")) (JAtom PNone);
         problem_warning (JAtom (PStr "blog.post.42")) engine_down;
         Slept 1;
         Attempt (JAtom (PStr "blog.post.42")) (JAtom PNone);
         could_not_process (JAtom (PStr "blog.post.42")) engine_down;
         not_accepting (JAtom (PStr "blog.post.42")) ]).
Proof. vm_compute. reflexivity. Qed.

(** [except self.RetryExceptions] matches subclasses: an instance of a
    class that derives from one of the four is retried as well. *)
Lemma is_retry_exception_subclass (e : exn) (c : exn_class) :
  In c RetryExceptions -> is_class c e = true -> is_retry_exception e = true.
Proof.
  intros Hin Hc. unfold is_retry_exception. apply existsb_exists.
  exists c. split; assumption.
Qed.

(** A first attempt that fails with django's [IntegrityError]: the
    connections are closed (the second one cannot be and is dropped), and
    the update is tried again. *)
Example process_message_retries_integrity_error :
  process_message (consumer 1 integrity_error) "blog.post.42" "m-1" idle
  = (Ok tt,
     State 2 true
       [ Attempt (JAtom (PStr "blog.post.42")) (JAtom PNone);
         problem_warning (JAtom (PStr "blog.post.42")) integrity_error;
         Closed 0; Dropped 1;
         Slept 1;
         Attempt (JAtom (PStr "blog.post.42")) (JAtom PNone);
         Acked "m-1" ]).
Proof. vm_compute. reflexivity. Qed.

(** requests' [SSLError] is a connection error, hence retried; no
    connection is closed for it. *)
Example process_message_retries_ssl_error :
  is_retry_exception ssl_error = true
  /\ closing_events (consumer 1 ssl_error) ssl_error = [].
Proof. vm_compute. split; reflexivity. Qed.

(** C2. For every received message: if it cannot be unpacked, the handler
    logs the error and acknowledges the message without any update
    attempt; if it unpacks and the first update attempt raises an error
    outside the transient set (not an instance of one of the four classes
    nor of a subclass), the handler logs the error and acknowledges
    the message after that single attempt. In both cases it returns
    without raising. *)
Theorem process_message_accepts_bad_message {World : Type}
    (C : collaborators World) (message_body message_id : string)
    (s : state World) :
  (forall error,
     unpack C message_body = Raise error ->
     process_message C message_body message_id s
     = (Ok tt,
        State (world s) (retry s)
          (events s ++ [invalid_message error; Acked message_id])))
  /\ (forall identifier remove error w1,
        unpack C message_body = Ok (identifier, remove) ->
        update_object C identifier remove (world s) = (Raise error, w1) ->
        is_retry_exception error = false ->
        process_message C message_body message_id s
        = (Ok tt,
           State w1 false
             (events s ++ [Attempt identifier remove;
                           unhandled_error identifier error;
                           Acked message_id]))).
Proof.
  split.
  - intros error Hunpack. unfold process_message. rewrite Hunpack.
    unfold log_message, ack, note_event. run. now rewrite <- app_assoc.
  - intros identifier remove error w1 Hunpack Hfirst Hperm.
    unfold process_message. rewrite Hunpack.
    unfold update_search_index, set_retry, log_message, ack, note_event. run.
    rewrite Hfirst. simpl. rewrite Hperm. simpl.
    now rewrite <- !app_assoc.
Qed.

Lemma process_message_accepts_bad_message_witness :
  process_message (consumer 1 bad_data) "garbage" "m-2" idle
  = (Ok tt, State 0 false [invalid_message bad_pickle; Acked "m-2"])
  /\ process_message (consumer 1 bad_data) "blog.post.42" "m-3" idle
     = (Ok tt,
        State 1 false
          [ Attempt (JAtom (PStr "blog.post.42")) (JAtom PNone);
            unhandled_error (JAtom (PStr "blog.post.42")) bad_data;
            Acked "m-3" ]).
Proof.
  split.
  - apply (proj1 (process_message_accepts_bad_message (consumer 1 bad_data)
                    "garbage" "m-2" idle) bad_pickle).
    reflexivity.
  - apply (proj2 (process_message_accepts_bad_message (consumer 1 bad_data)
                    "blog.post.42" "m-3" idle)
             (JAtom (PStr "blog.post.42")) (JAtom PNone) bad_data 1);
      reflexivity.
Defined.

(** An update that succeeds at once is acknowledged after one attempt. *)
Example process_message_success :
  process_message (consumer 0 engine_down) "blog.post.42" "m-4" idle
  = (Ok tt,
     State 1 false
       [ Attempt (JAtom (PStr "blog.post.42")) (JAtom PNone); Acked "m-4" ]).
Proof. vm_compute. reflexivity. Qed.

End ConsumeFacts.

(* --------------------------------------------------------------------- *)
(** ** Further properties of identifier parsing                           *)
(* --------------------------------------------------------------------- *)

Module IndexesEdgeFacts.
Import Indexes.

(** The unpacking in [_get_model] succeeds exactly on the strings with at
    least two dots: then the three pieces rebuild the string; with fewer
    dots a [ValueError] is raised. *)
Theorem split_identifier_two_dots (identifier : string) :
  (2 <= count_sep dot identifier ->
   exists t, split_identifier identifier = Ok t /\ rebuild t = identifier)
  /\ (count_sep dot identifier < 2 ->
      exists e, split_identifier identifier = Raise e
                /\ exn_cls e = ValueError).
Proof.
  pose proof (IndexesFacts.join_split dot 2 identifier) as Hjoin.
  pose proof (IndexesFacts.split_length dot 2 identifier) as Hlen.
  unfold split_identifier. split; intros Hcount.
  - rewrite Nat.min_l in Hlen by exact Hcount.
    destruct (split dot 2 identifier) as [|a [|b [|c [|d rest]]]];
      simpl in Hlen; try lia.
    exists (a, b, c). split; [reflexivity | exact Hjoin].
  - rewrite Nat.min_r in Hlen by lia.
    destruct (split dot 2 identifier) as [|a [|b [|c rest]]];
      simpl in Hlen; try lia; eexists; split; reflexivity.
Qed.

Lemma split_identifier_two_dots_witness :
  (exists t, split_identifier "events.event.7" = Ok t
             /\ rebuild t = "events.event.7")
  /\ (exists e, split_identifier "events.event" = Raise e
                /\ exn_cls e = ValueError).
Proof.
  split.
  - apply (proj1 (split_identifier_two_dots "events.event.7")).
    vm_compute. lia.
  - apply (proj2 (split_identifier_two_dots "events.event")).
    vm_compute. lia.
Defined.

End IndexesEdgeFacts.

(* --------------------------------------------------------------------- *)
(** ** Further properties of conflict detection                           *)
(* --------------------------------------------------------------------- *)

Module MappingsMoreFacts.
Import Mappings Scenarios.

Lemma py_eq_refl (v : pyval) : py_eq v v = true.
Proof.
  destruct v as [|[]|z|s]; simpl; try reflexivity.
  - apply Z.eqb_refl.
  - apply String.eqb_refl.
Qed.

Lemma py_eq_sym (a b : pyval) : py_eq a b = py_eq b a.
Proof.
  destruct a as [|[]|x|s], b as [|[]|y|t]; simpl; try reflexivity;
    first [apply Z.eqb_sym | apply String.eqb_sym].
Qed.

Lemma pyset_eq_swap (a b : pyval) (s : list pyval) :
  pyset_eq [a; b] s = pyset_eq [b; a] s.
Proof.
  unfold pyset_eq. simpl. rewrite !andb_true_r. f_equal.
  - apply andb_comm.
  - induction s as [|y s IH]; [reflexivity|].
    simpl. rewrite IH, !orb_false_r. f_equal. apply orb_comm.
Qed.

Lemma equivalent_values_sym (a b : pyval) :
  equivalent_values a b = equivalent_values b a.
Proof.
  unfold equivalent_values, EQUIVALENT_VALUES. simpl.
  now rewrite !(pyset_eq_swap a b).
Qed.

Lemma prop_conflicts_sym (e n : descriptor) (p : string) :
  prop_conflicts e n p = prop_conflicts n e p.
Proof.
  unfold prop_conflicts.
  now rewrite (py_eq_sym (dict_get n p)), (equivalent_values_sym (dict_get e p)).
Qed.

Lemma prop_conflicts_same (e : descriptor) (p : string) :
  prop_conflicts e e p = false.
Proof. unfold prop_conflicts. now rewrite py_eq_refl. Qed.

Lemma field_conflicts_sym (f : string) (e n : descriptor) :
  field_conflicts f e n = field_conflicts f n e.
Proof.
  unfold field_conflicts, PROP_NAMES. simpl.
  now rewrite !(prop_conflicts_sym e n).
Qed.

(** Only fields present in both schemas are ever reported: a field that
    was added or removed is not a conflict. *)
Theorem find_conflicts_only_shared (old new : mappings)
    (old_props new_props : properties) (yielded : list string) (f : string) :
  properties_of old = Some old_props ->
  properties_of new = Some new_props ->
  find_conflicts (Some old) (Some new) = Ok yielded ->
  In f yielded ->
  is_Some (old_props !! f) /\ is_Some (new_props !! f).
Proof.
  intros Ho Hn Hrun Hin.
  rewrite (MappingsFacts.find_conflicts_run _ _ _ _ Ho Hn) in Hrun.
  injection Hrun as <-.
  apply in_flat_map in Hin as (x & Hx & Hfx).
  destruct (old_props !! x) as [e|] eqn:He; [|destruct Hfx].
  destruct (new_props !! x) as [n|] eqn:Hnx; [|destruct Hfx].
  apply MappingsFacts.field_conflicts_own in Hfx. subst x.
  rewrite He, Hnx. split; eauto.
Qed.

Lemma find_conflicts_only_shared_witness :
  is_Some (({[ "rating" := text_field ]} : properties) !! "rating")
  /\ is_Some (({[ "rating" := number_field; "title" := text_field ]}
                 : properties) !! "rating").
Proof.
  apply (find_conflicts_only_shared
           (modelresult {[ "rating" := text_field ]})
           (modelresult {[ "rating" := number_field; "title" := text_field ]})
           {[ "rating" := text_field ]}
           {[ "rating" := number_field; "title" := text_field ]}
           ["rating"; "rating"] "rating");
    vm_compute; auto.
Defined.

(** A schema never conflicts with itself: pushing the schema the engine
    already has reports nothing. *)
Theorem find_conflicts_same_schema (m : mappings) (props : properties) :
  properties_of m = Some props ->
  find_conflicts (Some m) (Some m) = Ok [].
Proof.
  intros Hm. rewrite (MappingsFacts.find_conflicts_run _ _ _ _ Hm Hm).
  f_equal. induction (shared_fields props props) as [|x xs IH];
    [reflexivity|].
  simpl. rewrite IH, app_nil_r.
  destruct (props !! x) as [e|]; [|reflexivity].
  unfold field_conflicts, PROP_NAMES. simpl.
  now rewrite !prop_conflicts_same.
Qed.

Lemma find_conflicts_same_schema_witness :
  find_conflicts (Some deployed_mapping) (Some deployed_mapping) = Ok [].
Proof.
  apply (find_conflicts_same_schema deployed_mapping
           {[ "rating" := text_field ]}).
  vm_compute. reflexivity.
Defined.

(** Conflict detection does not depend on which schema is called old and
    which new: every field is reported the same number of times. *)
Theorem find_conflicts_symmetric (old new : mappings)
    (old_props new_props : properties) :
  properties_of old = Some old_props ->
  properties_of new = Some new_props ->
  exists forth back,
    find_conflicts (Some old) (Some new) = Ok forth
    /\ find_conflicts (Some new) (Some old) = Ok back
    /\ forall f, occurrences f forth = occurrences f back.
Proof.
  intros Ho Hn.
  rewrite (MappingsFacts.find_conflicts_run _ _ _ _ Ho Hn).
  rewrite (MappingsFacts.find_conflicts_run _ _ _ _ Hn Ho).
  do 2 eexists. split; [reflexivity|]. split; [reflexivity|].
  intros f. f_equal.
  unfold shared_fields.
  rewrite (intersection_comm_L (dom new_props) (dom old_props)).
  induction (elements (dom old_props ∩ dom new_props)) as [|x xs IH];
    [reflexivity|].
  simpl. rewrite IH. f_equal.
  destruct (old_props !! x), (new_props !! x); try reflexivity.
  apply field_conflicts_sym.
Qed.

Lemma find_conflicts_symmetric_witness :
  exists forth back,
    find_conflicts (Some (modelresult {[ "rating" := text_field ]}))
                   (Some (modelresult {[ "rating" := number_field ]}))
    = Ok forth
    /\ find_conflicts (Some (modelresult {[ "rating" := number_field ]}))
                      (Some (modelresult {[ "rating" := text_field ]}))
       = Ok back
    /\ forall f, occurrences f forth = occurrences f back.
Proof.
  apply (find_conflicts_symmetric
           (modelresult {[ "rating" := text_field ]})
           (modelresult {[ "rating" := number_field ]})
           {[ "rating" := text_field ]} {[ "rating" := number_field ]});
    vm_compute; reflexivity.
Defined.

(** A field present in both schemas is left out of the report exactly
    when each of its analyzer, store and type values is equal in the two
    schemas or forms one of the equivalence pairs. *)
Theorem find_conflicts_silent_field (old new : mappings)
    (old_props new_props : properties) (f : string) (e n : descriptor) :
  properties_of old = Some old_props ->
  properties_of new = Some new_props ->
  old_props !! f = Some e ->
  new_props !! f = Some n ->
  exists yielded,
    find_conflicts (Some old) (Some new) = Ok yielded
    /\ (occurrences f yielded = 0
        <-> forall p, In p PROP_NAMES ->
              py_eq (dict_get n p) (dict_get e p) = true
              \/ equivalent_values (dict_get e p) (dict_get n p) = true).
Proof.
  intros Ho Hn He Hnew.
  destruct (MappingsFacts.find_conflicts_count _ _ _ _ f e n Ho Hn He Hnew)
    as (yielded & Hrun & Hcount).
  exists yielded. split; [exact Hrun|]. rewrite Hcount.
  assert (Hp : forall p, prop_conflicts e n p = false
                         <-> py_eq (dict_get n p) (dict_get e p) = true
                             \/ equivalent_values (dict_get e p) (dict_get n p) = true).
  { intros p. unfold prop_conflicts.
    destruct (py_eq (dict_get n p) (dict_get e p)); simpl;
      [intuition|].
    destruct (equivalent_values (dict_get e p) (dict_get n p));
      intuition discriminate. }
  unfold PROP_NAMES. simpl. split.
  - intros Hlen p [<-|[<-|[<-|[]]]]; apply Hp;
      destruct (prop_conflicts e n "analyzer"),
               (prop_conflicts e n "store"),
               (prop_conflicts e n "type"); simpl in Hlen;
      try discriminate; reflexivity.
  - intros Hall.
    rewrite (proj2 (Hp "analyzer")) by (apply Hall; simpl; auto).
    rewrite (proj2 (Hp "store")) by (apply Hall; simpl; auto).
    rewrite (proj2 (Hp "type")) by (apply Hall; simpl; auto).
    reflexivity.
Qed.

Lemma find_conflicts_silent_field_witness :
  exists yielded,
    find_conflicts (Some deployed_mapping)
      (Some (modelresult {[ "rating" := number_field ]})) = Ok yielded
    /\ (occurrences "rating" yielded = 0
        <-> forall p, In p PROP_NAMES ->
              py_eq (dict_get number_field p) (dict_get text_field p) = true
              \/ equivalent_values (dict_get text_field p)
                   (dict_get number_field p) = true).
Proof.
  apply (find_conflicts_silent_field deployed_mapping
           (modelresult {[ "rating" := number_field ]})
           {[ "rating" := text_field ]} {[ "rating" := number_field ]}
           "rating" text_field number_field); reflexivity.
Defined.

End MappingsMoreFacts.

(* --------------------------------------------------------------------- *)
(** ** Further properties of setup and update                             *)
(* --------------------------------------------------------------------- *)

Module BackendSetupFacts.
Import Mappings Backend Scenarios MoreScenarios.
Local Open Scope list_scope.

Section SetupRuns.

Context {Fields : Type}.
Variable W : world Fields.

(** Setting up one index group touches the schema fields and the record
    of calls, nothing else. *)
Lemma setup_group_frame (index_name : string) (indexes : list string)
    (b : backend) :
  let b' := (setup_group W index_name indexes b).2 in
  silently_fail b' = silently_fail b
  /\ setup_complete b' = setup_complete b
  /\ index_groups b' = index_groups b
  /\ index_names b' = index_names b
  /\ new_version b' = new_version b.
Proof.
  unfold setup_group, setup_failed, conn_create_index, conn_put_mapping,
    conn_get_mapping, log.
  destruct (build_schema W (new_version b) (all_searchfields W indexes))
    as [content_field field_mapping] eqn:Hschema.
  run. rewrite Hschema. simpl.
  repeat match goal with
         | |- context [match ?x with _ => _ end] =>
             lazymatch type of x with
             | prod _ _ => fail
             | _ => destruct x eqn:?; simpl
             end
         end; auto.
Qed.

Lemma for_each_groups_frame (groups : list (string * list string))
    (b : backend) :
  let b' := (for_each groups (fun '(index_name, indexes) =>
               setup_group W index_name indexes) b).2 in
  silently_fail b' = silently_fail b
  /\ setup_complete b' = setup_complete b
  /\ index_groups b' = index_groups b
  /\ index_names b' = index_names b
  /\ new_version b' = new_version b.
Proof.
  revert b. induction groups as [|[index_name indexes] rest IH]; intros b;
    [simpl; auto|].
  simpl. unfold bind.
  pose proof (setup_group_frame index_name indexes b) as Hframe.
  destruct (setup_group W index_name indexes b) as [[[]|e] b1]; simpl in *.
  - specialize (IH b1). simpl in IH.
    destruct IH as (H1 & H2 & H3 & H4 & H5).
    destruct Hframe as (F1 & F2 & F3 & F4 & F5).
    repeat split; congruence.
  - exact Hframe.
Qed.

(** With failures silenced and neither debug nor test mode on, setting up
    a group returns whatever the engine does. *)
Lemma setup_group_quiet (index_name : string) (indexes : list string)
    (b : backend) :
  silently_fail b = true ->
  DEBUG (django_settings W) = false ->
  TEST_MODE (django_settings W) = false ->
  (setup_group W index_name indexes b).1 = Ok tt.
Proof.
  intros Hq Hd Ht.
  unfold setup_group, setup_failed, conn_create_index, conn_put_mapping,
    conn_get_mapping, log.
  destruct (build_schema W (new_version b) (all_searchfields W indexes))
    as [content_field field_mapping] eqn:Hschema.
  run. rewrite Hschema. simpl.
  repeat (rewrite ?Hd, ?Ht, ?Hq; simpl;
          match goal with
          | |- context [match ?x with _ => _ end] =>
              lazymatch type of x with
              | prod _ _ => fail
              | _ => destruct x eqn:?; simpl
              end
          end);
    rewrite ?Hd, ?Ht, ?Hq;
    first [ reflexivity
          | exfalso; rewrite ?Hd, ?Ht, ?Hq in *; simpl in *; discriminate ].
Qed.

Lemma for_each_groups_quiet (groups : list (string * list string))
    (b : backend) :
  silently_fail b = true ->
  DEBUG (django_settings W) = false ->
  TEST_MODE (django_settings W) = false ->
  (for_each groups (fun '(index_name, indexes) =>
     setup_group W index_name indexes) b).1 = Ok tt.
Proof.
  intros Hq Hd Ht. revert b Hq.
  induction groups as [|[index_name indexes] rest IH]; intros b Hq;
    [reflexivity|].
  simpl. unfold bind.
  pose proof (setup_group_quiet index_name indexes b Hq Hd Ht) as Hrun.
  pose proof (setup_group_frame index_name indexes b) as (Hq' & _).
  destruct (setup_group W index_name indexes b) as [[[]|e] b1];
    simpl in *; [|discriminate].
  apply IH. congruence.
Qed.

(** When every index can be created and every mapping pushed, the groups
    are set up with one create and one put each, and nothing else. *)
Lemma for_each_groups_pushed (groups : list (string * list string))
    (b : backend) :
  (forall history index_name, create_index W history index_name = Ok tt) ->
  (forall history index_name mapping,
     put_mapping W history index_name mapping = Ok tt) ->
  let after := for_each groups (fun '(index_name, indexes) =>
                 setup_group W index_name indexes) b in
  after.1 = Ok tt
  /\ calls after.2
     = calls b
       ++ flat_map (fun '(index_name, indexes) =>
            [ CreateIndex index_name;
              PutMapping "modelresult"
                (modelresult
                   (build_schema W (new_version b)
                      (all_searchfields W indexes)).2)
                index_name ]) groups.
Proof.
  intros Hcreate Hput. revert b.
  induction groups as [|[index_name indexes] rest IH]; intros b.
  - simpl. now rewrite app_nil_r.
  - simpl. unfold bind.
    pose proof (setup_group_frame index_name indexes b)
      as (_ & _ & _ & _ & Hversion).
    assert (Hrun : (setup_group W index_name indexes b).1 = Ok tt
                   /\ calls (setup_group W index_name indexes b).2
                      = calls b
                        ++ [ CreateIndex index_name;
                             PutMapping "modelresult"
                               (modelresult
                                  (build_schema W (new_version b)
                                     (all_searchfields W indexes)).2)
                               index_name ]).
    { unfold setup_group, conn_create_index, conn_put_mapping.
      destruct (build_schema W (new_version b) (all_searchfields W indexes))
        as [content_field field_mapping] eqn:Hschema.
      run. rewrite Hschema. simpl. rewrite Hcreate. simpl.
      rewrite Hput. simpl. split; [reflexivity|].
      now rewrite <- app_assoc. }
    destruct Hrun as [Hok Hcalls].
    destruct (setup_group W index_name indexes b) as [[[]|e] b1];
      simpl in *; [|discriminate].
    specialize (IH b1). simpl in IH. destruct IH as [IHok IHcalls].
    split; [exact IHok|].
    rewrite IHcalls, Hcalls, Hversion, <- app_assoc. reflexivity.
Qed.

End SetupRuns.

(** In a deployment that silences failures and runs neither in debug nor
    in test mode, [setup] never raises, whatever the engine answers, and
    leaves the backend flagged as set up. *)
Theorem setup_quiet {Fields : Type} (W : world Fields) (b : backend) :
  silently_fail b = true ->
  DEBUG (django_settings W) = false ->
  TEST_MODE (django_settings W) = false ->
  (setup W b).1 = Ok tt /\ setup_complete (setup W b).2 = true.
Proof.
  intros Hq Hd Ht. unfold setup, setup_index_groups. run.
  destruct (setup_complete b) eqn:Hc; simpl.
  - pose proof (for_each_groups_quiet W (map_to_list (index_groups b)) b
                  Hq Hd Ht) as Hrun.
    destruct (for_each _ _ b) as [[[]|e] b1]; simpl in *;
      [auto | discriminate].
  - set (b0 := set_index_groups _ _ b).
    pose proof (for_each_groups_quiet W (map_to_list (index_groups b0)) b0
                  Hq Hd Ht) as Hrun.
    destruct (for_each _ _ b0) as [[[]|e] b1]; simpl in *;
      [auto | discriminate].
Qed.

(** [setup] flags the backend as set up exactly when it returns: a setup
    that raised leaves the flag as it was, so the next operation on a
    backend that was not set up runs [setup] again. *)
Theorem setup_flag {Fields : Type} (W : world Fields) (b : backend) :
  ((setup W b).1 = Ok tt -> setup_complete (setup W b).2 = true)
  /\ (forall e, (setup W b).1 = Raise e ->
                setup_complete (setup W b).2 = setup_complete b).
Proof.
  unfold setup, setup_index_groups. run.
  destruct (setup_complete b) eqn:Hc; simpl.
  - pose proof (for_each_groups_frame W (map_to_list (index_groups b)) b)
      as (_ & Hflag & _).
    destruct (for_each _ _ b) as [[[]|e] b1]; simpl in *.
    + split; [reflexivity | discriminate].
    + split; [discriminate | intros _ _; congruence].
  - set (b0 := set_index_groups _ _ b).
    pose proof (for_each_groups_frame W (map_to_list (index_groups b0)) b0)
      as (_ & Hflag & _).
    destruct (for_each _ _ b0) as [[[]|e] b1]; simpl in *.
    + split; [reflexivity | discriminate].
    + split; [discriminate | intros _ _; subst b0; simpl in Hflag; congruence].
Qed.

(** On a backend that is not yet set up, when the engine accepts every
    index and every mapping, [setup] returns, flags the backend, and has
    sent exactly one create and one put per index group of the registry;
    it never asks the engine for its mapping. *)
Theorem setup_pushes_each_group {Fields : Type} (W : world Fields)
    (b : backend) :
  setup_complete b = false ->
  (forall history index_name, create_index W history index_name = Ok tt) ->
  (forall history index_name mapping,
     put_mapping W history index_name mapping = Ok tt) ->
  (setup W b).1 = Ok tt
  /\ setup_complete (setup W b).2 = true
  /\ calls (setup W b).2
     = calls b
       ++ flat_map (fun '(index_name, indexes) =>
            [ CreateIndex index_name;
              PutMapping "modelresult"
                (modelresult
                   (build_schema W (new_version b)
                      (all_searchfields W indexes)).2)
                index_name ])
          (map_to_list (group_indexes (registry W))).
Proof.
  intros Hc Hcreate Hput. unfold setup, setup_index_groups. run.
  rewrite Hc. simpl.
  set (b0 := set_index_groups _ _ b).
  pose proof (for_each_groups_pushed W
                (map_to_list (group_indexes (registry W))) b0 Hcreate Hput)
    as [Hok Hcalls].
  simpl in Hok, Hcalls.
  destruct (for_each _ _ b0) as [[[]|e] b1]; simpl in *; [|discriminate].
  repeat split. exact Hcalls.
Qed.

Lemma setup_quiet_witness :
  (setup outage_world (fresh_backend true)).1 = Ok tt
  /\ setup_complete (setup outage_world (fresh_backend true)).2 = true.
Proof.
  apply (setup_quiet outage_world (fresh_backend true)); reflexivity.
Defined.

Lemma setup_flag_witness :
  setup_complete (setup conflict_world (fresh_backend false)).2 = false
  /\ setup_complete (setup batch_world (fresh_backend false)).2 = true.
Proof.
  split.
  - apply (proj2 (setup_flag conflict_world (fresh_backend false)) merge_error).
    vm_compute. reflexivity.
  - apply (proj1 (setup_flag batch_world (fresh_backend false))).
    vm_compute. reflexivity.
Defined.

Lemma setup_pushes_each_group_witness :
  (setup batch_world (fresh_backend false)).1 = Ok tt
  /\ List.length (calls (setup batch_world (fresh_backend false)).2) = 2.
Proof.
  destruct (setup_pushes_each_group batch_world (fresh_backend false))
    as (Hok & _ & Hcalls);
    [reflexivity | intros; reflexivity | intros; reflexivity |].
  split; [exact Hok|]. rewrite Hcalls. vm_compute. reflexivity.
Defined.

(** *** The dictionaries of [setup_index_groups] *)

Lemma foldl_snoc {A B} (f : A -> B -> A) (a : A) (l : list B) (x : B) :
  foldl f a (l ++ [x]) = f (foldl f a l) x.
Proof. revert a. induction l as [|y l IH]; intros a; simpl; auto. Qed.

(** Every index that has a name is listed in the group of that name, and
    every registered index has a name: an index handed to [update] after
    [setup_index_groups] is written to a group that [setup] goes
    through. *)
Theorem index_names_in_groups (reg : list (string * string)) :
  (forall index index_name,
     name_indexes reg !! index = Some index_name ->
     exists indexes,
       group_indexes reg !! index_name = Some indexes
       /\ In index indexes)
  /\ (forall index index_name,
        In (index, index_name) reg -> is_Some (name_indexes reg !! index)).
Proof.
  unfold name_indexes, group_indexes.
  induction reg as [|[index0 name0] reg [IHg IHn]] using rev_ind.
  - split; [intros index index_name H; simpl in H;
            rewrite lookup_empty in H; discriminate
           | intros index index_name []].
  - rewrite !foldl_snoc. split.
    + intros index index_name Hlook.
      destruct (decide (index = index0)) as [->|Hne].
      * rewrite lookup_insert_eq in Hlook. injection Hlook as <-.
        eexists. rewrite lookup_insert_eq. split; [reflexivity|].
        apply in_or_app. right. now left.
      * rewrite lookup_insert_ne in Hlook by congruence.
        destruct (IHg index index_name Hlook) as (indexes & Hg & Hin).
        destruct (decide (index_name = name0)) as [->|Hn].
        -- eexists. rewrite lookup_insert_eq. split; [reflexivity|].
           rewrite Hg. simpl. apply in_or_app. now left.
        -- exists indexes. rewrite lookup_insert_ne by congruence. auto.
    + intros index index_name Hin. apply in_app_or in Hin as [Hin|[Heq|[]]].
      * destruct (decide (index = index0)) as [->|Hne].
        -- rewrite lookup_insert_eq. eauto.
        -- rewrite lookup_insert_ne by congruence. eapply IHn, Hin.
      * injection Heq as <- <-. rewrite lookup_insert_eq. eauto.
Qed.

Lemma index_names_in_groups_witness :
  exists indexes,
    group_indexes [("PostIndex", "blog"); ("PageIndex", "blog")] !! "blog"
    = Some indexes
    /\ In "PageIndex" indexes.
Proof.
  apply (proj1 (index_names_in_groups
                  [("PostIndex", "blog"); ("PageIndex", "blog")])
           "PageIndex" "blog").
  vm_compute. reflexivity.
Defined.

(** *** Edges of [update] *)

(** An index the backend has no name for: the documents are prepared,
    then the lookup raises [KeyError]; nothing is sent to the engine. *)
Theorem update_unknown_index {Fields : Type} (W : world Fields) (b : backend)
    (index : string) (objs : list item) (docs : list doc) (commit : bool) :
  setup_complete b = true ->
  index_names b !! index = None ->
  prepared W index objs docs ->
  exists e,
    update W index objs commit b = (Raise e, b) /\ exn_cls e = KeyError.
Proof.
  intros Hset Hname Hprep. unfold update, ensure_setup. run.
  rewrite Hset. simpl.
  rewrite (BackendFacts.prepare_docs_ok W index objs docs [] b Hprep). simpl.
  unfold subscript. rewrite Hname. simpl. eexists. split; reflexivity.
Qed.

Lemma update_unknown_index_witness :
  exists e,
    update batch_world "PageIndex" [post "1"] true (ready_backend false)
    = (Raise e, ready_backend false)
    /\ exn_cls e = KeyError.
Proof.
  apply (update_unknown_index batch_world (ready_backend false) "PageIndex"
           [post "1"] [post_doc (post "1")] true).
  - reflexivity.
  - vm_compute. reflexivity.
  - repeat constructor.
Defined.



End BackendSetupFacts.

(* --------------------------------------------------------------------- *)
(** ** Further properties of the update functions                         *)
(* --------------------------------------------------------------------- *)

Module UpdateMoreFacts.
Import Backend Update Scenarios MoreScenarios Accounting.
Local Open Scope list_scope.

(** [CommonSearchIndex.update_object] lets [should_index] decide: an
    object that should be indexed is written and never deleted; one that
    should not is removed and never written, and the method answers
    [False]. *)
Theorem should_index_decides (W : services) (index : string) (obj : item)
    (events : list update_event) :
  (should_index W index obj = Ok true ->
   let after := index_update_object W index obj events in
   after.2 = events ++ [ CallUpdateObject index obj;
                         LoggedWith (LogRecord Info "Updating search index %r"
                                       [LVal (PStr (get_identifier obj))] false)
                                    false;
                         IndexWrite index obj ]
   /\ (after.1 = Ok true \/ exists e, after.1 = Raise e))
  /\ (should_index W index obj = Ok false ->
      let after := index_update_object W index obj events in
      after.2 = events ++ [ CallUpdateObject index obj;
                            CallRemoveObject index obj;
                            removing_info (get_identifier obj);
                            IndexDelete index obj ]
      /\ (after.1 = Ok false \/ exists e, after.1 = Raise e)).
Proof.
  split; intros Hwanted; simpl;
    unfold index_update_object, remove_object, logging, record_event,
      removing_info; run; rewrite Hwanted; simpl.
  - destruct (base_update_object W _ index obj) as [[]|e]; simpl;
      rewrite <- ?app_assoc; simpl; split; eauto.
  - destruct (base_remove_object W _ index obj) as [[]|e]; simpl;
      rewrite <- ?app_assoc; simpl; split; eauto.
Qed.

Lemma should_index_decides_witness :
  (index_update_object site "PostIndex" (ModelInstance "Post" "blog.post.7")
     []).1 = Ok true
  \/ exists e,
       (index_update_object site "PostIndex"
          (ModelInstance "Post" "blog.post.7") []).1 = Raise e.
Proof.
  apply (proj1 (should_index_decides site "PostIndex"
                  (ModelInstance "Post" "blog.post.7") [])).
  reflexivity.
Defined.

(** A removal request is always carried out as a removal by identifier:
    whatever the item is, and whether or not its entity still exists,
    [update_object] with [remove=True] calls [remove_object] with the
    identifier string and never writes to the index. *)
Theorem update_object_remove (W : services) (obj : item) (index : string)
    (exception_handling : bool) (events : list update_event) :
  get_index W obj = Ok index ->
  let identifier := get_identifier obj in
  let after := update_object W obj true exception_handling events in
  exists rest,
    after.2
    = events ++ [ CallRemoveObject index (Identifier identifier);
                  removing_info identifier;
                  IndexDelete index (Identifier identifier) ] ++ rest
    /\ (forall e, In e rest -> exists raised, e = update_failure identifier raised).
Proof.
  intros Hindex. simpl.
  unfold update_object, update_object_body. run. rewrite Hindex. simpl.
  assert (Hobj : get_identifier (if is_string obj then obj else obj)
                 = get_identifier obj) by now destruct (is_string obj).
  assert (Hsame : (if is_string obj then obj else obj) = obj)
    by now destruct (is_string obj).
  rewrite Hsame.
  unfold remove_object, logging, record_event, removing_info. run.
  destruct (base_remove_object W _ index _) as [[]|raised]; simpl.
  - exists []. rewrite <- ?app_assoc. simpl. split; [reflexivity|].
    intros e [].
  - destruct exception_handling; simpl.
    + exists [update_failure (get_identifier obj) raised].
      rewrite <- ?app_assoc. simpl. split; [reflexivity|].
      intros e [<-|[]]. eauto.
    + exists []. rewrite <- ?app_assoc. simpl. split; [reflexivity|].
      intros e [].
Qed.

Lemma update_object_remove_witness :
  exists rest,
    (update_object site (ModelInstance "Post" "blog.post.7") true true []).2
    = [ CallRemoveObject "PostIndex" (Identifier "blog.post.7");
        removing_info "blog.post.7";
        IndexDelete "PostIndex" (Identifier "blog.post.7") ] ++ rest
    /\ (forall e, In e rest ->
          exists raised, e = update_failure "blog.post.7" raised).
Proof.
  apply (update_object_remove site (ModelInstance "Post" "blog.post.7")
           "PostIndex" true []).
  reflexivity.
Defined.

(** When the queue takes the message, [queue_update] does nothing but put
    it there: one message, holding the identifier of the item, with a
    ['remove'] entry exactly for a removal; no update is applied
    inline. *)
Theorem queue_update_enqueues (W : services) (obj : item) (remove : bool)
    (events : list update_event) :
  queue_put W events (QUEUE_NAME W)
    (pickle_dumps W (queue_message obj remove)) = Ok tt ->
  queue_update W obj remove events
  = (Ok tt,
     events ++ [Put (QUEUE_NAME W) (pickle_dumps W (queue_message obj remove))])
  /\ queue_message obj remove !! "identifier"
     = Some (PStr (get_identifier obj))
  /\ queue_message obj remove !! "remove"
     = (if remove then Some (PBool true) else None).
Proof.
  intros Hput. split.
  - unfold queue_update. run. now rewrite Hput.
  - unfold queue_message. destruct remove.
    + rewrite lookup_insert_ne by discriminate.
      rewrite lookup_insert_eq, lookup_singleton_eq. auto.
    + rewrite lookup_singleton_eq, lookup_singleton_ne by discriminate. auto.
Qed.

Lemma queue_update_enqueues_witness :
  queue_update working_site (ModelInstance "Post" "blog.post.7") false []
  = (Ok tt, [Put "search_updates" "blog.post.7"]).
Proof.
  apply (proj1 (queue_update_enqueues working_site
                  (ModelInstance "Post" "blog.post.7") false [] eq_refl)).
Defined.

End UpdateMoreFacts.

(* --------------------------------------------------------------------- *)
(** ** Further properties of the queue consumer                           *)
(* --------------------------------------------------------------------- *)

Module ConsumeMoreFacts.
Import Consume Scenarios MoreScenarios Accounting.
Local Open Scope list_scope.

Lemma count_app test (xs ys : list event) :
  count test (xs ++ ys) = count test xs + count test ys.
Proof. unfold count. now rewrite List.filter_app, length_app. Qed.

Lemma closing_events_count {World : Type} (C : collaborators World) error :
  count is_attempt (closing_events C error) = 0
  /\ count is_ack (closing_events C error) = 0
  /\ count is_critical (closing_events C error) = 0.
Proof.
  unfold closing_events, count. destruct (is_class DatabaseError error);
    [|auto].
  induction (connections C) as [|c l (IH1 & IH2 & IH3)]; [auto|].
  simpl. destruct (close_raises C c); simpl; auto.
Qed.

(** What one message adds to the record: at most two update attempts,
    and either one acknowledgement or one critical record, never both. *)
Lemma process_message_account {World : Type} (C : collaborators World)
    (message_body message_id : string) (s : state World) :
  exists new,
    process_message C message_body message_id s
    = (Ok tt, State (world (process_message C message_body message_id s).2)
                    (retry (process_message C message_body message_id s).2)
                    (events s ++ new))
    /\ count is_attempt new <= 2
    /\ count is_ack new + count is_critical new = 1.
Proof.
  unfold process_message.
  destruct (unpack C message_body) as [[identifier remove]|error].
  - unfold update_search_index, set_retry, log_message, sleep, ack,
      note_event. run.
    destruct (update_object C identifier remove (world s)) as [[[]|e1] w1];
      simpl.
    + exists [Attempt identifier remove; Acked message_id].
      rewrite <- ?app_assoc. simpl. auto.
    + destruct (is_retry_exception e1); simpl.
      * rewrite ConsumeFacts.on_error_run. simpl.
        destruct (closing_events_count C e1) as (H1 & H2 & H3).
        destruct (update_object C identifier remove w1) as [[[]|e2] w2];
          simpl.
        -- exists ([Attempt identifier remove; problem_warning identifier e1]
                   ++ closing_events C e1
                   ++ [Slept 1; Attempt identifier remove; Acked message_id]).
           repeat (rewrite <- ?app_assoc; simpl).
           split; [reflexivity|].
           change (Attempt identifier remove :: problem_warning identifier e1
                   :: closing_events C e1
                   ++ [Slept 1; Attempt identifier remove; Acked message_id])
             with ([Attempt identifier remove; problem_warning identifier e1]
                   ++ closing_events C e1
                   ++ [Slept 1; Attempt identifier remove; Acked message_id]).
           rewrite !count_app, H1, H2, H3. unfold count. simpl. lia.
        -- exists ([Attempt identifier remove; problem_warning identifier e1]
                   ++ closing_events C e1
                   ++ [Slept 1; Attempt identifier remove;
                       could_not_process identifier e2;
                       not_accepting identifier]).
           repeat (rewrite <- ?app_assoc; simpl).
           split; [reflexivity|].
           change (Attempt identifier remove :: problem_warning identifier e1
                   :: closing_events C e1
                   ++ [Slept 1; Attempt identifier remove;
                       could_not_process identifier e2;
                       not_accepting identifier])
             with ([Attempt identifier remove; problem_warning identifier e1]
                   ++ closing_events C e1
                   ++ [Slept 1; Attempt identifier remove;
                       could_not_process identifier e2;
                       not_accepting identifier]).
           rewrite !count_app, H1, H2, H3. unfold count. simpl. lia.
      * exists [Attempt identifier remove; unhandled_error identifier e1;
                Acked message_id].
        rewrite <- ?app_assoc. simpl. auto.
  - unfold log_message, ack, note_event. run.
    exists [invalid_message error; Acked message_id].
    rewrite <- ?app_assoc. simpl. auto.
Qed.

(** The batch consumer accounts for every message of the queue: it goes
    through the whole queue without raising, makes at most two update
    attempts per message, and for each message either acknowledges it or
    logs a critical record; so acknowledgements and critical records
    together are as many as the messages. *)
Theorem start_cron_accounts {World : Type} (C : collaborators World)
    (queue : list (string * string)) (s : state World) :
  exists new,
    (start_cron C queue s).1 = Ok tt
    /\ events (start_cron C queue s).2 = events s ++ new
    /\ count is_attempt new <= 2 * length queue
    /\ count is_ack new + count is_critical new = length queue.
Proof.
  revert s. induction queue as [|[message_body message_id] rest IH];
    intros s.
  - exists []. simpl. rewrite app_nil_r. auto.
  - destruct (process_message_account C message_body message_id s)
      as (new1 & Hrun & Hatt & Hacc).
    unfold start_cron. simpl. unfold bind. fold (start_cron C rest).
    rewrite Hrun.
    set (s1 := State _ _ (events s ++ new1)).
    destruct (IH s1) as (new2 & Hok & Hev & Hatt2 & Hacc2).
    exists (new1 ++ new2). split; [exact Hok|].
    split; [rewrite Hev; subst s1; simpl; now rewrite app_assoc|].
    rewrite !count_app. simpl. lia.
Qed.

(** An update that succeeds at the first attempt is acknowledged at once:
    one attempt, no pause, no log. *)
Theorem process_message_first_success {World : Type}
    (C : collaborators World) (message_body message_id : string)
    (identifier remove : json) (s : state World) (w1 : World) :
  unpack C message_body = Ok (identifier, remove) ->
  update_object C identifier remove (world s) = (Ok tt, w1) ->
  process_message C message_body message_id s
  = (Ok tt,
     State w1 false
       (events s ++ [Attempt identifier remove; Acked message_id])).
Proof.
  intros Hunpack Hfirst. unfold process_message. rewrite Hunpack.
  unfold update_search_index, set_retry, ack, note_event. run.
  rewrite Hfirst. simpl. now rewrite <- app_assoc.
Qed.

Lemma process_message_first_success_witness :
  process_message (consumer 0 engine_down) "blog.post.42" "m-4" idle
  = (Ok tt,
     State 1 false
       [ Attempt (JAtom (PStr "blog.post.42")) (JAtom PNone); Acked "m-4" ]).
Proof.
  apply (process_message_first_success (consumer 0 engine_down)
           "blog.post.42" "m-4"
           (JAtom (PStr "blog.post.42")) (JAtom PNone) idle 1);
    reflexivity.
Defined.

(** Producer and consumer agree on the message: when pickle gives back
    the dictionary [queue_update] built, the handler unpacks the
    identifier of the item, and a remove flag that is [True] for a removal
    and [None] otherwise. *)
Theorem unpack_queue_message {World : Type} (C : collaborators World)
    (message_body : string) (obj : Backend.item) (remove : bool) :
  pickle_loads C message_body
  = Ok (unpickled (Update.queue_message obj remove)) ->
  unpack C message_body
  = Ok (JAtom (PStr (Backend.get_identifier obj)),
        JAtom (if remove then PBool true else PNone)).
Proof.
  intros Hload. unfold unpack. rewrite Hload. unfold unpickled. simpl.
  unfold Update.queue_message. destruct remove; simpl.
  - rewrite !lookup_fmap.
    rewrite lookup_insert_ne by discriminate.
    rewrite lookup_insert_eq, lookup_singleton_eq. reflexivity.
  - rewrite !lookup_fmap.
    rewrite lookup_singleton_eq, lookup_singleton_ne by discriminate.
    reflexivity.
Qed.

Lemma unpack_queue_message_witness :
  unpack faithful_consumer "blog.post.42"
  = Ok (JAtom (PStr "blog.post.42"), JAtom (PBool true)).
Proof.
  apply (unpack_queue_message faithful_consumer "blog.post.42"
           (Backend.Identifier "blog.post.42") true).
  reflexivity.
Defined.

(** A message that unpickles to a dictionary without an ['identifier']
    entry, or to something that is not a dictionary, is handled as an
    invalid message: logged and acknowledged, with no update attempt. *)
Theorem process_message_without_identifier {World : Type}
    (C : collaborators World) (message_body message_id : string)
    (body : json) (s : state World) :
  pickle_loads C message_body = Ok body ->
  match body with
  | JDict d => d !! "identifier" = None
  | _ => True
  end ->
  exists error,
    process_message C message_body message_id s
    = (Ok tt,
       State (world s) (retry s)
         (events s ++ [invalid_message error; Acked message_id]))
    /\ (exn_cls error = KeyError \/ exn_cls error = TypeError).
Proof.
  intros Hload Hbody. unfold process_message, unpack. rewrite Hload.
  destruct body as [v|l|d]; simpl.
  - eexists. split;
      [ unfold log_message, ack, note_event; run; now rewrite <- app_assoc
      | right; reflexivity ].
  - eexists. split;
      [ unfold log_message, ack, note_event; run; now rewrite <- app_assoc
      | right; reflexivity ].
  - rewrite Hbody. simpl. eexists. split;
      [ unfold log_message, ack, note_event; run; now rewrite <- app_assoc
      | left; reflexivity ].
Qed.

Lemma process_message_without_identifier_witness :
  exists error,
    process_message stray_consumer "stray" "m1" idle
    = (Ok tt,
       State (world idle) (retry idle)
         (events idle ++ [invalid_message error; Acked "m1"]))
    /\ (exn_cls error = KeyError \/ exn_cls error = TypeError).
Proof.
  apply (process_message_without_identifier stray_consumer "stray" "m1"
           (JDict {[ "remove" := JAtom (PBool true) ]}) idle);
    reflexivity.
Defined.

End ConsumeMoreFacts.

(* --------------------------------------------------------------------- *)
(** ** Properties of the scoped update options                            *)
(* --------------------------------------------------------------------- *)

Module OptionsFacts.
Import Options.
Local Open Scope list_scope.

Section Scopes.

Context {T : Type}.

(** The first loop, on options whose names are all known and distinct:
    the options are set over the attributes, and [before] remembers the
    attributes they replaced. *)
Lemma enter_run (l : list (string * pyval)) (before a : gmap string pyval)
    (t : T) :
  NoDup l.*1 ->
  (forall k, k ∈ l.*1 -> is_Some (defaults !! k)) ->
  (forall k, k ∈ l.*1 -> before !! k = None) ->
  exists before',
    enter l before (a, t) = (Ok before', (list_to_map l ∪ a, t))
    /\ forall k, before' !! k
                 = if decide (k ∈ l.*1) then a !! k else before !! k.
Proof.
  revert before a. induction l as [|[name value] rest IH];
    intros before a Hnd Hknown Hclean.
  - exists before. simpl. rewrite (left_id_L ∅ (∪)). split; [reflexivity|].
    intros k. destruct (decide (k ∈ [])) as [Hin|_]; [|reflexivity].
    inversion Hin.
  - simpl in Hnd. apply NoDup_cons in Hnd as [Hfresh Hnd].
    simpl. rewrite bool_decide_eq_true_2
      by (apply Hknown; simpl; apply list_elem_of_here).
    unfold bind, gets, setattr, modify. simpl.
    destruct (IH (match a !! name with
                  | Some old => <[name:=old]> before
                  | None => before
                  end) (<[name:=value]> a) Hnd) as (before' & Hrun & Hbefore).
    { intros k Hk. apply Hknown. simpl. now apply list_elem_of_further. }
    { intros k Hk.
      assert (k <> name) by (intros ->; contradiction).
      destruct (a !! name); rewrite ?lookup_insert_ne by congruence;
        apply Hclean; simpl; now apply list_elem_of_further. }
    exists before'. rewrite Hrun. split.
    + f_equal. f_equal.
      apply map_eq. intros k.
      rewrite !lookup_union.
      destruct (decide (k = name)) as [->|Hne].
      * rewrite lookup_insert_eq.
        rewrite not_elem_of_list_to_map_1 by exact Hfresh.
        rewrite lookup_insert_eq. now destruct (a !! name).
      * rewrite !lookup_insert_ne by congruence.
        reflexivity.
    + intros k. rewrite Hbefore. simpl.
      destruct (decide (k = name)) as [->|Hne].
      * rewrite decide_False by exact Hfresh.
        rewrite decide_True by apply list_elem_of_here.
        destruct (a !! name) as [old|] eqn:Ha.
        -- now rewrite lookup_insert_eq.
        -- apply Hclean. simpl. apply list_elem_of_here.
      * destruct (decide (k ∈ rest.*1)) as [Hin|Hout].
        -- rewrite decide_True by now apply list_elem_of_further.
           now rewrite lookup_insert_ne by congruence.
        -- rewrite decide_False
             by (intros Hin; apply elem_of_cons in Hin as [?|?];
                 [congruence | contradiction]).
           destruct (a !! name); rewrite ?lookup_insert_ne by congruence;
             reflexivity.
Qed.

(** The first loop stops at an option whose name is not known; the rest
    of the thread's state is untouched. *)
Lemma enter_unknown (l : list (string * pyval)) (before : gmap string pyval)
    (s : gmap string pyval * T) :
  (exists k, k ∈ l.*1 /\ defaults !! k = None) ->
  exists name s',
    enter l before s = (Raise (unknown_option name), s')
    /\ name ∈ l.*1 /\ defaults !! name = None /\ s'.2 = s.2.
Proof.
  revert before s. induction l as [|[name value] rest IH];
    intros before s (k & Hk & Hnone).
  - inversion Hk.
  - simpl. destruct (defaults !! name) as [d|] eqn:Hd.
    + rewrite bool_decide_eq_true_2 by eauto.
      unfold bind, gets, setattr, modify. simpl.
      assert (Hrest : exists k, k ∈ rest.*1 /\ defaults !! k = None).
      { exists k. split; [|exact Hnone].
        simpl in Hk. apply elem_of_cons in Hk as [->|Hk]; [|exact Hk].
        congruence. }
      destruct (IH (match s.1 !! name with
                    | Some old => <[name:=old]> before
                    | None => before
                    end) (<[name:=value]> s.1, s.2) Hrest)
        as (bad & s' & Hrun & Hin & Hbad & Hstate).
      exists bad, s'. rewrite Hrun. repeat split; auto.
      simpl. now apply list_elem_of_further.
    + rewrite bool_decide_eq_false_2 by (intros [x Hx]; congruence).
      exists name, s. repeat split; auto. simpl. apply list_elem_of_here.
Qed.

(** The second loop puts back what [before] remembers and deletes the
    options that were not set before. *)
Lemma leave_run (l : list (string * pyval)) (before cur : gmap string pyval)
    (t : T) :
  NoDup l.*1 ->
  (forall k, k ∈ l.*1 -> is_Some (cur !! k)) ->
  exists cur',
    leave l before (cur, t) = (Ok tt, (cur', t))
    /\ forall k, cur' !! k
                 = if decide (k ∈ l.*1) then before !! k else cur !! k.
Proof.
  revert cur. induction l as [|[name value] rest IH]; intros cur Hnd Hset.
  - exists cur. split; [reflexivity|]. intros k.
    destruct (decide (k ∈ [])) as [Hin|_]; [inversion Hin | reflexivity].
  - simpl in Hnd. apply NoDup_cons in Hnd as [Hfresh Hnd].
    assert (Hname : is_Some (cur !! name))
      by (apply Hset; simpl; apply list_elem_of_here).
    simpl. unfold bind.
    destruct (before !! name) as [old|] eqn:Hb.
    + unfold setattr, modify. simpl.
      destruct (IH (<[name:=old]> cur) Hnd) as (cur' & Hrun & Hcur).
      { intros k Hk. assert (k <> name) by (intros ->; contradiction).
        rewrite lookup_insert_ne by congruence.
        apply Hset. simpl. now apply list_elem_of_further. }
      exists cur'. rewrite Hrun. split; [reflexivity|].
      intros k. rewrite Hcur. simpl.
      destruct (decide (k = name)) as [->|Hne].
      * rewrite decide_False by exact Hfresh.
        rewrite decide_True by apply list_elem_of_here.
        now rewrite lookup_insert_eq.
      * destruct (decide (k ∈ rest.*1)) as [Hin|Hout].
        -- now rewrite decide_True by now apply list_elem_of_further.
        -- rewrite decide_False
             by (intros Hin; apply elem_of_cons in Hin as [?|?];
                 [congruence | contradiction]).
           now rewrite lookup_insert_ne by congruence.
    + unfold delattr. simpl. destruct Hname as [x Hx]. rewrite Hx.
      destruct (IH (delete name cur) Hnd) as (cur' & Hrun & Hcur).
      { intros k Hk. assert (k <> name) by (intros ->; contradiction).
        rewrite lookup_delete_ne by congruence.
        apply Hset. simpl. now apply list_elem_of_further. }
      exists cur'. rewrite Hrun. split; [reflexivity|].
      intros k. rewrite Hcur. simpl.
      destruct (decide (k = name)) as [->|Hne].
      * rewrite decide_False by exact Hfresh.
        rewrite decide_True by apply list_elem_of_here.
        now rewrite lookup_delete_eq.
      * destruct (decide (k ∈ rest.*1)) as [Hin|Hout].
        -- now rewrite decide_True by now apply list_elem_of_further.
        -- rewrite decide_False
             by (intros Hin; apply elem_of_cons in Hin as [?|?];
                 [congruence | contradiction]).
           now rewrite lookup_delete_ne by congruence.
Qed.

Lemma keys_of_options (options : gmap string pyval) (k : string) :
  k ∈ (map_to_list options).*1 <-> is_Some (options !! k).
Proof.
  rewrite list_elem_of_fmap. split.
  - intros ([k' v] & -> & Hin). apply elem_of_map_to_list in Hin. eauto.
  - intros [v Hv]. exists (k, v). split; [reflexivity|].
    now apply elem_of_map_to_list.
Qed.

(** What the body of a scope runs on, and what happens after it. *)
Lemma call_run {A} (options a : gmap string pyval) (t : T)
    (body : M (gmap string pyval * T) A) :
  (forall k, is_Some (options !! k) -> is_Some (defaults !! k)) ->
  exists before,
    (forall k, before !! k = if decide (is_Some (options !! k))
                             then a !! k else None)
    /\ __call__ options body (a, t)
       = match body (options ∪ a, t) with
         | (Ok r, s') =>
             match leave (map_to_list options) before s' with
             | (Ok _, s'') => (Ok r, s'')
             | (Raise e, s'') => (Raise e, s'')
             end
         | (Raise e, s') => (Raise e, s')
         end.
Proof.
  intros Hknown.
  destruct (enter_run (map_to_list options) ∅ a t) as (before & Hrun & Hb).
  - apply NoDup_fst_map_to_list.
  - intros k Hk. apply Hknown. now apply keys_of_options.
  - intros k _. apply lookup_empty.
  - rewrite list_to_map_to_list in Hrun.
    exists before. split.
    + intros k. rewrite Hb, lookup_empty.
      destruct (decide (k ∈ (map_to_list options).*1)) as [Hin|Hout];
        destruct (decide (is_Some (options !! k))) as [Hs|Hn]; auto.
      * exfalso. apply Hn. now apply keys_of_options.
      * exfalso. apply Hout. now apply keys_of_options.
    + unfold __call__, bind. rewrite Hrun.
      destruct (body (options ∪ a, t)) as [[r|e] s']; [|reflexivity].
      destruct (leave _ before s') as [[[]|e] s'']; reflexivity.
Qed.

(** After a body that left the options alone, every option is back to
    what it was. *)
Lemma leave_restores (options a before : gmap string pyval) (t : T) :
  (forall k, before !! k = if decide (is_Some (options !! k))
                           then a !! k else None) ->
  leave (map_to_list options) before (options ∪ a, t) = (Ok tt, (a, t)).
Proof.
  intros Hbefore.
  destruct (leave_run (map_to_list options) before (options ∪ a) t)
    as (cur' & Hrun & Hcur).
  - apply NoDup_fst_map_to_list.
  - intros k Hk. apply keys_of_options in Hk as [v Hv].
    rewrite lookup_union, Hv. now destruct (a !! k).
  - rewrite Hrun. f_equal. f_equal. apply map_eq. intros k.
    rewrite Hcur, Hbefore.
    destruct (decide (k ∈ (map_to_list options).*1)) as [Hin|Hout].
    + rewrite decide_True by now apply keys_of_options. reflexivity.
    + rewrite lookup_union.
      destruct (options !! k) as [v|] eqn:Hv; [|now destruct (a !! k)].
      exfalso. apply Hout. apply keys_of_options. eauto.
Qed.

End Scopes.

(** [with search_update_options(...)] around a body that returns and
    leaves the options alone (nested scopes included): the body runs with
    the given options set over the thread's attributes, and afterwards
    every attribute is what it was before the block, options that were
    not set before being unset again. *)
Theorem scope_restores {T A : Type} (options a : gmap string pyval)
    (t t' : T) (body : M (gmap string pyval * T) A) (r : A) :
  (forall k, is_Some (options !! k) -> is_Some (defaults !! k)) ->
  body (options ∪ a, t) = (Ok r, (options ∪ a, t')) ->
  __call__ options body (a, t) = (Ok r, (a, t')).
Proof.
  intros Hknown Hbody.
  destruct (call_run options a t body Hknown) as (before & Hbefore & ->).
  rewrite Hbody. now rewrite (leave_restores options a before t' Hbefore).
Qed.

Lemma scope_restores_witness :
  __call__ {[ "async" := PBool false ]}
    (fun s : gmap string pyval * nat => (Ok (s.1 !! "async"), (s.1, S s.2)))
    ({[ "disabled" := PBool true ]}, 0)
  = (Ok (Some (PBool false)), ({[ "disabled" := PBool true ]}, 1)).
Proof.
  apply (scope_restores {[ "async" := PBool false ]}
           {[ "disabled" := PBool true ]} 0 1
           (fun s : gmap string pyval * nat =>
              (Ok (s.1 !! "async"), (s.1, S s.2)))).
  - intros k [v Hv]. apply lookup_singleton_Some in Hv as [<- _].
    vm_compute. eauto.
  - vm_compute. reflexivity.
Defined.

(** The generator has no [try] around its [yield]: when the body raises,
    the exception leaves the block and the options stay as the block set
    them. *)
Theorem scope_leaks_on_exception {T A : Type} (options a : gmap string pyval)
    (t t' : T) (body : M (gmap string pyval * T) A) (e : exn) :
  (forall k, is_Some (options !! k) -> is_Some (defaults !! k)) ->
  body (options ∪ a, t) = (Raise e, (options ∪ a, t')) ->
  __call__ options body (a, t) = (Raise e, (options ∪ a, t')).
Proof.
  intros Hknown Hbody.
  destruct (call_run options a t body Hknown) as (before & Hbefore & ->).
  now rewrite Hbody.
Qed.

Lemma scope_leaks_on_exception_witness :
  __call__ {[ "async" := PBool false ]}
    (fun s : gmap string pyval * nat =>
       (Raise (unknown_option "boom") : res unit, s))
    (∅, 0)
  = (Raise (unknown_option "boom"), ({[ "async" := PBool false ]} ∪ ∅, 0)).
Proof.
  apply (scope_leaks_on_exception {[ "async" := PBool false ]} ∅ 0 0
           (fun s : gmap string pyval * nat =>
              (Raise (unknown_option "boom") : res unit, s))).
  - intros k [v Hv]. apply lookup_singleton_Some in Hv as [<- _].
    vm_compute. eauto.
  - reflexivity.
Defined.

(** An option name that is not one of [async], [disabled] and
    [percolate] fails the assertion: the block raises before its body
    runs, whatever the body is. *)
Theorem scope_unknown_option {T A : Type} (options : gmap string pyval)
    (s : gmap string pyval * T) (body : M (gmap string pyval * T) A)
    (k : string) (v : pyval) :
  options !! k = Some v ->
  defaults !! k = None ->
  exists name s',
    __call__ options body s = (Raise (unknown_option name), s')
    /\ is_Some (options !! name)
    /\ defaults !! name = None
    /\ s'.2 = s.2.
Proof.
  intros Hk Hnone.
  destruct (enter_unknown (map_to_list options) ∅ s)
    as (name & s' & Hrun & Hin & Hbad & Hstate).
  - exists k. split; [|exact Hnone]. apply keys_of_options. eauto.
  - exists name, s'. unfold __call__, bind. rewrite Hrun.
    repeat split; auto. now apply keys_of_options.
Qed.

Lemma scope_unknown_option_witness :
  exists name s',
    __call__ {[ "asynk" := PBool false ]}
      (fun s : gmap string pyval * nat => (Ok tt, (s.1, S s.2))) (∅, 0)
    = (Raise (unknown_option name), s')
    /\ is_Some (({[ "asynk" := PBool false ]} : gmap string pyval) !! name)
    /\ defaults !! name = None
    /\ s'.2 = 0.
Proof.
  apply (scope_unknown_option {[ "asynk" := PBool false ]} (∅, 0)
           (fun s : gmap string pyval * nat => (Ok tt, (s.1, S s.2)))
           "asynk" (PBool false)).
  - vm_compute. reflexivity.
  - vm_compute. reflexivity.
Defined.

End OptionsFacts.

(* --------------------------------------------------------------------- *)
(** ** Properties of the signal handlers                                  *)
(* --------------------------------------------------------------------- *)

Module SignalsFacts.
Import Backend Update Options Signals Scenarios MoreScenarios.
Local Open Scope list_scope.

(** With indexing disabled, by the settings or by a scoped option, a save
    or a delete of an indexed object does nothing at all. *)
Theorem handler_disabled (W : services) (overrides attrs : gmap string pyval)
    (instance : item) (sig : signal) (history : list update_event)
    (v : pyval) :
  __getitem__ overrides attrs "disabled" = Ok v ->
  py_truth v = true ->
  search_index_signal_handler W overrides instance sig (attrs, history)
  = (Ok tt, (attrs, history)).
Proof.
  intros Hget Htrue. unfold search_index_signal_handler, read_option. run.
  rewrite Hget. simpl. now rewrite Htrue.
Qed.

Lemma handler_disabled_witness :
  search_index_signal_handler site ∅ (ModelInstance "Post" "blog.post.7")
    post_save ({[ "disabled" := PBool true ]}, [])
  = (Ok tt, ({[ "disabled" := PBool true ]}, [])).
Proof.
  apply (handler_disabled site ∅ {[ "disabled" := PBool true ]}
           (ModelInstance "Post" "blog.post.7") post_save [] (PBool true));
    reflexivity.
Defined.

(** With nothing configured, a save is queued and not applied: default
    options mean asynchronous dispatch. When the queue takes the message,
    the only effect is that one message, which holds no removal flag. *)
Theorem handler_default_queues (W : services) (instance : item)
    (history : list update_event) :
  queue_put W history (QUEUE_NAME W)
    (pickle_dumps W (queue_message instance false)) = Ok tt ->
  search_index_signal_handler W ∅ instance post_save (∅, history)
  = (Ok tt,
     (∅, history ++ [Put (QUEUE_NAME W)
                       (pickle_dumps W (queue_message instance false))])).
Proof.
  intros Hput.
  assert (Hoff : __getitem__ ∅ ∅ "disabled" = Ok (PBool false))
    by (vm_compute; reflexivity).
  assert (Hasync : __getitem__ ∅ ∅ "async" = Ok (PBool true))
    by (vm_compute; reflexivity).
  unfold search_index_signal_handler, read_option, on_history,
    bind, ret. simpl.
  rewrite Hoff. simpl. rewrite Hasync. simpl.
  unfold queue_update, try_except. now rewrite Hput.
Qed.

Lemma handler_default_queues_witness :
  search_index_signal_handler working_site ∅
    (ModelInstance "Post" "blog.post.7") post_save (∅, [])
  = (Ok tt, (∅, [Put "search_updates" "blog.post.7"])).
Proof.
  apply (handler_default_queues working_site
           (ModelInstance "Post" "blog.post.7") [] eq_refl).
Defined.

(** A delete is dispatched with the identifier string captured from the
    instance and the removal flag set; applied inline, it ends in
    [remove_object] for that identifier and never in an index write. *)
Theorem handler_delete_inline (W : services) (overrides attrs : gmap string pyval)
    (instance : item) (index : string) (history : list update_event)
    (off quiet : pyval) :
  __getitem__ overrides attrs "disabled" = Ok off ->
  py_truth off = false ->
  __getitem__ overrides attrs "async" = Ok quiet ->
  py_truth quiet = false ->
  get_index W (Identifier (get_identifier instance)) = Ok index ->
  let identifier := get_identifier instance in
  let after :=
    search_index_signal_handler W overrides instance post_delete
      (attrs, history) in
  exists rest,
    after.1 = Ok tt
    /\ after.2.1 = attrs
    /\ after.2.2
       = history ++ [ CallRemoveObject index (Identifier identifier);
                      removing_info identifier;
                      IndexDelete index (Identifier identifier) ] ++ rest
    /\ (forall e, In e rest ->
          exists raised, e = update_failure identifier raised).
Proof.
  intros Hoff Hfalse Hasync Hsync Hindex. simpl.
  unfold search_index_signal_handler, read_option, on_history. run.
  rewrite Hoff. simpl. rewrite Hfalse. simpl.
  rewrite Hasync. simpl. rewrite Hsync. simpl.
  unfold update_object, update_object_body. run. rewrite Hindex. simpl.
  unfold remove_object, logging, record_event, removing_info. run.
  destruct (base_remove_object W _ index _) as [[]|raised]; simpl.
  - exists []. rewrite <- ?app_assoc. simpl. repeat split. intros e [].
  - exists [update_failure (get_identifier instance) raised].
    rewrite <- ?app_assoc. simpl. repeat split.
    intros e [<-|[]]. eauto.
Qed.

Lemma handler_delete_inline_witness :
  exists rest,
    (search_index_signal_handler site ∅ (ModelInstance "Post" "blog.post.7")
       post_delete ({[ "async" := PBool false ]}, [])).2.2
    = [ CallRemoveObject "PostIndex" (Identifier "blog.post.7");
        removing_info "blog.post.7";
        IndexDelete "PostIndex" (Identifier "blog.post.7") ] ++ rest.
Proof.
  destruct (handler_delete_inline site ∅ {[ "async" := PBool false ]}
              (ModelInstance "Post" "blog.post.7") "PostIndex" []
              (PBool false) (PBool false))
    as (rest & _ & _ & Hrun & _); try reflexivity.
  exists rest. exact Hrun.
Defined.



End SignalsFacts.

(* --------------------------------------------------------------------- *)
(** ** Properties of remove, clear and search                             *)
(* --------------------------------------------------------------------- *)

Module EngineFacts.
Import Mappings Backend Engine Scenarios MoreScenarios.
Local Open Scope list_scope.

Section Runs.

Context {Fields : Type}.
Variable W : world Fields.
Variable U : Update.services.
Variable R : remote.

(** The loop over requested models when none of them has an index name:
    one warning each, nothing found. *)
Lemma collect_unknown (wanted : list string) (found : gset string)
    (s : engine) :
  (forall m, In m wanted -> model_index_names s !! m = None) ->
  exists warned,
    collect_index_names wanted found s
    = (Ok found, Engine_ (backend_of s) (model_index_names s)
                   (requests s ++ warned))
    /\ List.filter is_search warned = []
    /\ length warned = length wanted.
Proof.
  revert s. induction wanted as [|m rest IH]; intros s Hnone.
  - exists []. simpl. rewrite app_nil_r. destruct s. auto.
  - simpl. unfold bind, gets. simpl.
    rewrite (Hnone m) by now left.
    unfold log_line, modify. simpl.
    destruct (IH (sent (LogLine (LogRecord Warning
                     "No haystack index name found for %r. Mappings are %r"
                     [LVal (PStr m)] false)) s)) as (warned & Hrun & Hs & Hl).
    { intros m' Hm'. simpl. apply Hnone. now right. }
    eexists (_ :: warned). rewrite Hrun. simpl.
    rewrite <- app_assoc. simpl. repeat split; auto.
Qed.

(** One group of [clear] changes nothing but the requests. *)
Lemma clear_group_frame (models : list (string * string)) (commit : bool)
    (index_name : string) (s : engine) :
  backend_of (clear_group R models commit index_name s).2 = backend_of s
  /\ model_index_names (clear_group R models commit index_name s).2
     = model_index_names s.
Proof.
  unfold clear_group, conn_delete_index, conn_delete_by_query,
    conn_refresh_index, log_line. run.
  repeat match goal with
         | |- context [match ?x with _ => _ end] =>
             lazymatch type of x with
             | prod _ _ => fail
             | _ => destruct x eqn:?; simpl
             end
         end; auto.
Qed.

Lemma clear_groups_frame (models : list (string * string)) (commit : bool)
    (names : list string) (s : engine) :
  backend_of (for_each names (clear_group R models commit) s).2 = backend_of s.
Proof.
  revert s. induction names as [|n rest IH]; intros s; [reflexivity|].
  simpl. unfold bind.
  pose proof (clear_group_frame models commit n s) as [Hb _].
  destruct (clear_group R models commit n s) as [[[]|e] s1]; simpl in *;
    [|exact Hb].
  rewrite IH. exact Hb.
Qed.

End Runs.

(** [clear] works without [setup]: it only computes the index groups.
    Whatever it is asked to clear and whatever the engine answers, it
    sends no index creation and no mapping, and leaves the set-up flag and
    the known mapping as they were. *)
Theorem clear_needs_no_setup {Fields : Type} (W : world Fields) (R : remote)
    (models : list (string * string)) (commit : bool) (s : engine) :
  let b := backend_of (clear W R models commit s).2 in
  calls b = calls (backend_of s)
  /\ setup_complete b = setup_complete (backend_of s)
  /\ existing_mapping b = existing_mapping (backend_of s).
Proof.
  simpl. unfold clear, Engine.setup_index_groups, Backend.setup_index_groups.
  run. destruct (setup_complete (backend_of s)) eqn:Hc; simpl.
  - rewrite clear_groups_frame. simpl. auto.
  - rewrite Hc. simpl. rewrite clear_groups_frame. simpl. auto.
Qed.

Section Clearing.

Context {Fields : Type}.
Variable W : world Fields.
Variable R : remote.



End Clearing.



(** Without [silently_fail] the first failing group ends [clear]: the
    exception is raised and no later group is touched. *)
Theorem clear_stops_at_first_failure {Fields : Type} (W : world Fields)
    (R : remote) (models : list (string * string)) (commit : bool)
    (s : engine) (e : exn) :
  setup_complete (backend_of s) = true ->
  silently_fail (backend_of s) = false ->
  (forall h n, _send_request (delete_index_response R h n) = Raise e) ->
  (forall h n q, _send_request (delete_by_query_response R h n q) = Raise e) ->
  index_groups (backend_of s) <> ∅ ->
  (clear W R models commit s).1 = Raise e
  /\ length (requests (clear W R models commit s).2) = S (length (requests s)).
Proof.
  intros Hc Hq Hdel Hdq Hne. unfold clear. run. rewrite Hc. simpl.
  destruct (map_to_list (index_groups (backend_of s))) as [|[n g] rest] eqn:Hl.
  { apply map_to_list_empty_iff in Hl. contradiction. }
  simpl. unfold bind, clear_group, conn_delete_index, conn_delete_by_query.
  run. destruct models as [|m ms]; simpl.
  - rewrite Hdel. simpl.
    destruct (is_engine_failure e); simpl; rewrite ?Hq; simpl;
      rewrite length_app; simpl; split; try reflexivity; lia.
  - rewrite Hdq. simpl.
    destruct (is_engine_failure e); simpl; rewrite ?Hq; simpl;
      rewrite length_app; simpl; split; try reflexivity; lia.
Qed.



(** [remove] silences a failing [setup] only for an [ElasticSearchError]
    under [silently_fail]; then it logs and gives up before looking for
    the index. Any other failure of [setup] is raised. Nothing is sent for
    the document either way. *)
Theorem remove_setup_failure {Fields : Type} (W : world Fields)
    (U : Update.services) (R : remote) (obj : item) (commit : bool)
    (s : engine) (e : exn) (b : backend) :
  setup_complete (backend_of s) = false ->
  Backend.setup W (backend_of s) = (Raise e, b) ->
  let after := remove W U R obj commit s in
  after.1
  = (if is_class ElasticSearchError e && silently_fail b
     then Ok tt else Raise e)
  /\ List.filter (fun r => negb (is_log r)) (requests after.2)
     = List.filter (fun r => negb (is_log r)) (requests s).
Proof.
  intros Hc Hsetup. simpl. unfold remove, Engine.setup. run.
  rewrite Hc. simpl. rewrite Hsetup. simpl. rewrite Hc.
  destruct (is_class ElasticSearchError e); simpl; [|auto].
  destruct (silently_fail b); simpl; [|auto].
  split; [reflexivity|].
  rewrite List.filter_app. simpl. now rewrite app_nil_r.
Qed.


(** An empty query is answered without touching the backend: no [setup],
    no request. Any other query on a backend that is set up, with no
    models named, sends exactly one search request: to every index group,
    from [start_offset] (0 when absent), with a [size] only when
    [end_offset] lies beyond the start, and then a positive one. The
    backend's own state is not changed. *)
Theorem search_requests {Fields : Type} (W : world Fields) (R : remote)
    (query : string) (kwargs : search_kwargs) (body : json) (s : engine) :
  (query = "" -> search W R query kwargs s = (Ok no_results, s))
  /\ (query <> "" ->
      setup_complete (backend_of s) = true ->
      models kwargs = [] ->
      search_body R query kwargs = Ok body ->
      exists start size rest,
        requests (search W R query kwargs s).2
        = requests s
          ++ Search body (map fst (map_to_list (index_groups (backend_of s))))
               start size :: rest
        /\ window_of kwargs start size
        /\ List.filter is_search rest = []
        /\ backend_of (search W R query kwargs s).2 = backend_of s).
Proof.
  split.
  - intros ->. reflexivity.
  - intros Hq Hc Hm Hbody. unfold search.
    destruct query as [|c q]; [contradiction|]. simpl Nat.eqb. cbv iota.
    run. rewrite Hc. simpl. rewrite Hbody. simpl. rewrite Hm. simpl.
    unfold conn_search. simpl.
    set (start := default 0%Z (start_offset kwargs)).
    set (size := match end_offset kwargs with
                 | Some stop =>
                     if (start <? stop)%Z then Some (stop - start)%Z else None
                 | None => None
                 end).
    assert (Hwin : window_of kwargs start size).
    { split; [reflexivity|]. subst size.
      destruct (end_offset kwargs) as [stop|]; [|intros ?; discriminate].
      destruct (Z.ltb_spec start stop).
      - split; [lia|]. f_equal. lia.
      - intros stop' [= <-]. lia. }
    exists start, size.
    destruct (_send_request (search_response R (requests s) body _ start size))
      as [j|e]; simpl.
    + exists []. auto.
    + destruct (is_engine_failure e); simpl.
      * destruct (silently_fail (backend_of s)); simpl.
        -- unfold log_line, modify, sent. simpl. eexists [_].
           rewrite <- app_assoc. simpl. auto.
        -- exists []. auto.
      * exists []. auto.
Qed.

Lemma search_requests_witness :
  search boolean_world down_remote "" third_page (ready_engine true)
  = (Ok no_results, ready_engine true)
  /\ exists start size rest,
       requests (search boolean_world down_remote "django" third_page
                   (ready_engine true)).2
       = requests (ready_engine true)
         ++ Search (JDict ∅)
              (map fst (map_to_list
                          (index_groups (backend_of (ready_engine true)))))
              start size :: rest
       /\ window_of third_page start size
       /\ List.filter is_search rest = []
       /\ backend_of (search boolean_world down_remote "django" third_page
                        (ready_engine true)).2
          = backend_of (ready_engine true).
Proof.
  split.
  - apply (proj1 (search_requests boolean_world down_remote "" third_page
                    (JDict ∅) (ready_engine true))).
    reflexivity.
  - apply (proj2 (search_requests boolean_world down_remote "django"
                    third_page (JDict ∅) (ready_engine true)));
      [discriminate | reflexivity | reflexivity | reflexivity].
Defined.

(** When the engine fails the search, [silently_fail] turns the failure
    into the result of an empty response, after logging it; without
    [silently_fail] the exception is raised. *)
Theorem search_failure {Fields : Type} (W : world Fields) (R : remote)
    (query : string) (kwargs : search_kwargs) (body : json) (s : engine)
    (e : exn) :
  query <> "" ->
  setup_complete (backend_of s) = true ->
  models kwargs = [] ->
  search_body R query kwargs = Ok body ->
  (forall names start size,
     _send_request (search_response R (requests s) body names start size)
     = Raise e) ->
  is_engine_failure e = true ->
  (search W R query kwargs s).1
  = if silently_fail (backend_of s)
    then Ok (process_results R (JDict ∅)) else Raise e.
Proof.
  intros Hq Hc Hm Hbody Hfail He. unfold search.
  destruct query as [|c q]; [contradiction|]. simpl Nat.eqb. cbv iota.
  run. rewrite Hc. simpl. rewrite Hbody. simpl. rewrite Hm. simpl.
  unfold conn_search, log_line, modify, sent. simpl. rewrite Hfail. simpl.
  rewrite He. simpl.
  destruct (silently_fail (backend_of s)); reflexivity.
Qed.

(** [search] does not guard [setup]: when the backend is not set up and
    [setup] raises, the exception leaves [search] whatever [silently_fail]
    says, and no search request is sent. *)
Theorem search_setup_failure {Fields : Type} (W : world Fields) (R : remote)
    (query : string) (kwargs : search_kwargs) (s : engine) (e : exn)
    (b : backend) :
  query <> "" ->
  setup_complete (backend_of s) = false ->
  Backend.setup W (backend_of s) = (Raise e, b) ->
  (search W R query kwargs s).1 = Raise e
  /\ requests (search W R query kwargs s).2 = requests s.
Proof.
  intros Hq Hc Hsetup. unfold search.
  destruct query as [|c q]; [contradiction|]. simpl Nat.eqb. cbv iota.
  unfold Engine.setup. run. rewrite Hc. simpl. rewrite Hsetup. simpl. auto.
Qed.

Lemma search_setup_failure_witness :
  (search conflict_world down_remote "django" third_page
     (fresh_engine false)).1 = Raise merge_error
  /\ requests (search conflict_world down_remote "django" third_page
                 (fresh_engine false)).2
     = requests (fresh_engine false).
Proof.
  apply (search_setup_failure conflict_world down_remote "django" third_page
           (fresh_engine false) merge_error
           (Backend.setup conflict_world (fresh_backend false)).2).
  - discriminate.
  - reflexivity.
  - vm_compute. reflexivity.
Defined.

End EngineFacts.

(* --------------------------------------------------------------------- *)
(** ** Properties of the document ids of a query                          *)
(* --------------------------------------------------------------------- *)

Module QueryFacts.
Import Indexes Query.
Local Open Scope list_scope.

Lemma split_all_nonempty sep s : split_all sep s <> [].
Proof.
  induction s as [|c rest IH]; simpl; [easy|].
  destruct (Ascii.eqb c sep); [easy|].
  destruct (split_all sep rest); easy.
Qed.

Lemma split_all_length sep s :
  length (split_all sep s) = S (count_sep sep s).
Proof.
  induction s as [|c rest IH]; simpl; [reflexivity|].
  destruct (Ascii.eqb c sep); simpl.
  - now rewrite IH.
  - pose proof (split_all_nonempty sep rest) as Hne.
    destruct (split_all sep rest); [contradiction|exact IH].
Qed.

Lemma split_all_no_sep sep s : count_sep sep s = 0 -> split_all sep s = [s].
Proof.
  induction s as [|c rest IH]; simpl; [reflexivity|].
  destruct (Ascii.eqb c sep); [discriminate|]. simpl.
  intros H0. now rewrite (IH H0).
Qed.

Lemma split_all_prefix sep a rest :
  count_sep sep a = 0 ->
  split_all sep (a +:+ String sep rest) = a :: split_all sep rest.
Proof.
  induction a as [|c a IH]; simpl; intros H0.
  - now rewrite Ascii.eqb_refl.
  - destruct (Ascii.eqb c sep); [discriminate|].
    simpl in H0. now rewrite (IH H0).
Qed.

Lemma split_all_pieces sep s :
  Forall (fun p => count_sep sep p = 0) (split_all sep s).
Proof.
  induction s as [|c rest IH]; simpl.
  - constructor; [reflexivity|constructor].
  - destruct (Ascii.eqb c sep) eqn:Hc.
    + constructor; [reflexivity|exact IH].
    + destruct (split_all sep rest) as [|p ps]; simpl.
      * constructor; [simpl; now rewrite Hc|constructor].
      * inversion IH; subst. constructor; [simpl; now rewrite Hc|assumption].
Qed.

Lemma join_split_all sep s : join sep (split_all sep s) = s.
Proof.
  induction s as [|c rest IH]; simpl; [reflexivity|].
  destruct (Ascii.eqb_spec c sep) as [->|Hne].
  - rewrite IndexesFacts.join_cons_app by apply split_all_nonempty.
    simpl. now rewrite IH.
  - pose proof (split_all_nonempty sep rest) as Hnil.
    destruct (split_all sep rest) as [|p ps]; [contradiction|].
    rewrite IndexesFacts.join_String_head. now rewrite IH.
Qed.

(** The unpacking succeeds exactly on the ids with two dots. *)
Lemma unpack_two_dots (document_id : string) :
  count_sep dot document_id = 2 ->
  exists a b c,
    unpack_document_id document_id = Ok (a, b, c)
    /\ document_id = identifier_string a b c
    /\ count_sep dot c = 0.
Proof.
  intros H2. unfold unpack_document_id.
  pose proof (split_all_length dot document_id) as Hlen.
  pose proof (join_split_all dot document_id) as Hjoin.
  pose proof (split_all_pieces dot document_id) as Hpieces.
  rewrite H2 in Hlen.
  destruct (split_all dot document_id) as [|a [|b [|c [|d rest]]]];
    simpl in Hlen; try lia.
  exists a, b, c. split; [reflexivity|]. split; [now rewrite <- Hjoin|].
  inversion Hpieces as [|? ? _ Hrest]; subst.
  inversion Hrest as [|? ? _ Hrest']; subst.
  now inversion Hrest'.
Qed.

Lemma unpack_other (document_id : string) :
  count_sep dot document_id <> 2 ->
  exists e, unpack_document_id document_id = Raise e
            /\ exn_cls e = ValueError.
Proof.
  intros H2. unfold unpack_document_id.
  pose proof (split_all_length dot document_id) as Hlen.
  destruct (split_all dot document_id) as [|a [|b [|c [|d rest]]]];
    simpl in Hlen; try (eexists; split; reflexivity).
  lia.
Qed.


(** With [strict] the first document id without exactly two dots ends the
    generator with a [ValueError]; the ids before it have been yielded,
    nothing after it is looked at. *)
Theorem get_django_ids_strict (good : list string) (bad : string)
    (rest : list string) (out : list output) :
  Forall (fun d => count_sep dot d = 2) good ->
  count_sep dot bad <> 2 ->
  exists e new,
    get_django_ids true (good ++ bad :: rest) out = (Raise e, out ++ new)
    /\ exn_cls e = ValueError
    /\ warnings new = []
    /\ length (yielded_ids new) = length good.
Proof.
  intros Hgood Hbad. revert out.
  induction Hgood as [|d good Hd _ IH]; intros out.
  - simpl. unfold bind.
    destruct (unpack_other bad Hbad) as (e & -> & He).
    exists e, []. simpl. rewrite app_nil_r. auto.
  - simpl. unfold bind.
    destruct (unpack_two_dots d Hd) as (a & b & c & -> & _ & _).
    unfold modify. simpl.
    destruct (IH (out ++ [Yielded c])) as (e & new & -> & He & Hw & Hy).
    exists e, (Yielded c :: new). rewrite <- app_assoc. simpl.
    repeat split; auto.
Qed.

(** [_get_model] and [get_django_ids] disagree on a primary key with a
    dot: the identifier of such an object is accepted when it is indexed
    or removed, but its document id is not recognised among the indexed
    ids, only warned about. *)
Theorem dotted_key_is_not_listed (app_label model object_pk : string) :
  count_sep dot app_label = 0 ->
  count_sep dot model = 0 ->
  count_sep dot object_pk <> 0 ->
  let document_id := identifier_string app_label model object_pk in
  split_identifier document_id = Ok (app_label, model, object_pk)
  /\ exists warning,
       get_django_ids false [document_id] [] = (Ok tt, [Warned warning]).
Proof.
  intros Ha Hb Hc. simpl. split.
  - unfold split_identifier, identifier_string.
    rewrite (IndexesFacts.split_no_sep_prefix dot 1 app_label _ Ha).
    rewrite (IndexesFacts.split_no_sep_prefix dot 0 model _ Hb).
    now rewrite IndexesFacts.split_zero.
  - simpl. unfold bind.
    destruct (unpack_other (identifier_string app_label model object_pk))
      as (e & -> & _).
    + unfold identifier_string.
      rewrite IndexesFacts.count_sep_app. simpl.
      rewrite IndexesFacts.count_sep_app. simpl. lia.
    + eexists. reflexivity.
Qed.

Lemma dotted_key_is_not_listed_witness :
  split_identifier (identifier_string "events" "event" "2014.03")
  = Ok ("events", "event", "2014.03")
  /\ exists warning,
       get_django_ids false [identifier_string "events" "event" "2014.03"] []
       = (Ok tt, [Warned warning]).
Proof.
  apply (dotted_key_is_not_listed "events" "event" "2014.03");
    vm_compute; first [reflexivity | discriminate].
Defined.

End QueryFacts.

(* --------------------------------------------------------------------- *)
(** ** Properties of the clean_index command                              *)
(* --------------------------------------------------------------------- *)

Module CleanIndexFacts.
Import Indexes Query CleanIndex.
Local Open Scope list_scope.

(** A label is an app with no dot, a model with one dot, and refused with
    more. *)
Theorem is_app_or_model_by_dots (label : string) :
  is_app_or_model label
  = match count_sep dot label with
    | 0 => Ok APP
    | 1 => Ok MODEL
    | _ => Raise (not_a_label label)
    end.
Proof.
  unfold is_app_or_model. rewrite QueryFacts.split_all_length.
  destruct (count_sep dot label) as [|[|n]]; reflexivity.
Qed.

Section Command.

Variable S : site.
Variable verbosity : nat.

Lemma print_if_removed (wanted : bool) (fmt : string) (args : list pyval)
    (done : list action) :
  print_if wanted fmt args done
  = (Ok tt, done ++ (if wanted then [Printed fmt args] else [])).
Proof.
  destruct wanted; simpl; [reflexivity|]. now rewrite app_nil_r.
Qed.

(** The loop of [remove_leftovers] over a list of keys: the documents it
    has removed so far are those of a prefix of the keys, all of them when
    the backend accepts every removal. *)
Lemma remove_each (m : model) (wanted : bool) (pks : list string)
    (done : list action) :
  exists r new tried,
    for_each pks (fun pk =>
      print_if wanted "Removing %s" [PStr (model_label m +:+ "." +:+ pk)] ;;;
      fun done =>
        (backend_remove S done (model_label m +:+ "." +:+ pk),
         (done ++ [Removed (model_label m +:+ "." +:+ pk)])%list)) done
    = (r, done ++ new)
    /\ removed new = map (fun pk => model_label m +:+ "." +:+ pk) tried
    /\ (exists later, pks = tried ++ later)
    /\ ((forall h d, backend_remove S h d = Ok tt) ->
        r = Ok tt /\ tried = pks).
Proof.
  revert done. induction pks as [|pk rest IH]; intros done.
  - exists (Ok tt), [], []. simpl. rewrite app_nil_r.
    split; [reflexivity|]. split; [reflexivity|].
    split; [now exists []|]. auto.
  - simpl. unfold bind at 1. unfold bind at 1.
    rewrite print_if_removed.
    set (shown := if wanted then _ else _).
    destruct (backend_remove S (done ++ shown)
                (model_label m +:+ "." +:+ pk)) as [[]|e] eqn:Hrem.
    + destruct (IH ((done ++ shown)
                    ++ [Removed (model_label m +:+ "." +:+ pk)]))
        as (r & new & tried & Hrun & Hrem' & [later Hlater] & Hall).
      exists r, (shown ++ Removed (model_label m +:+ "." +:+ pk) :: new),
        (pk :: tried).
      split.
      { rewrite Hrun. rewrite <- !app_assoc. reflexivity. }
      split.
      { unfold removed in *. rewrite flat_map_app. simpl. rewrite Hrem'.
        subst shown. destruct wanted; reflexivity. }
      split; [exists later; simpl; now rewrite Hlater|].
      intros Hok. destruct (Hall Hok) as [Hres ->]. split; [exact Hres|].
      reflexivity.
    + exists (Raise e),
        (shown ++ [Removed (model_label m +:+ "." +:+ pk)]), [pk].
      split; [now rewrite <- app_assoc|].
      split.
      { unfold removed. rewrite flat_map_app. simpl.
        subst shown. destruct wanted; reflexivity. }
      split; [now exists rest|].
      intros Hok. rewrite Hok in Hrem. discriminate.
Qed.

End Command.

(** [handle_model] has the backend remove only documents of the model
    whose key is indexed and not in the database, each at most once; when
    the backend accepts every removal, all of them are removed and the
    command returns. *)
Theorem handle_model_removes_leftovers (S : site) (verbosity : nat)
    (m : model) (done : list action) :
  exists r new pks,
    handle_model S verbosity m done = (r, done ++ new)
    /\ removed new = map (fun pk => model_label m +:+ "." +:+ pk) pks
    /\ NoDup pks
    /\ (forall pk, In pk pks ->
          pk ∈ indexed_ids S m /\ pk ∉ database_ids S m)
    /\ ((forall h d, backend_remove S h d = Ok tt) ->
        r = Ok tt
        /\ forall pk, pk ∈ indexed_ids S m -> pk ∉ database_ids S m ->
                      In pk pks).
Proof.
  unfold handle_model, remove_leftovers.
  generalize (Nat.leb 1 verbosity) (Nat.leb 2 verbosity). intros v1 v2.
  unfold bind at 1. rewrite print_if_removed. cbv beta iota.
  unfold bind at 1. rewrite print_if_removed. cbv beta iota.
  unfold bind at 1. rewrite print_if_removed. cbv beta iota zeta.
  set (leftovers := indexed_ids S m ∖ database_ids S m).
  set (intro := ((done ++ _) ++ _) ++ _).
  assert (Hintro : exists shown, intro = done ++ shown
                                 /\ removed shown = []).
  { subst intro. eexists. rewrite <- !app_assoc. split; [reflexivity|].
    destruct v1; reflexivity. }
  destruct Hintro as (shown & Hintro & Hshown).
  destruct (Nat.eqb_spec (size leftovers) 0) as [Hzero|Hpos];
    [change (negb true) with false | change (negb false) with true];
    cbv beta iota.
  - rewrite print_if_removed.
    apply size_empty_inv in Hzero.
    exists (Ok tt),
      (shown ++ (if v2 then [Printed "Nothing to remove." []] else [])), [].
    split; [rewrite Hintro; now rewrite <- app_assoc|].
    split.
    { unfold removed in *. rewrite flat_map_app, Hshown.
      destruct v2; reflexivity. }
    split; [constructor|].
    split; [intros pk []|].
    intros _. split; [reflexivity|].
    intros pk Hin Hout. exfalso.
    assert (Hpk : pk ∈ leftovers) by (subst leftovers; set_solver).
    apply Hzero in Hpk. set_solver.
  - unfold bind at 1. rewrite print_if_removed.
    cbv beta iota.
    set (announced := intro ++ _).
    destruct (remove_each S m v2 (elements leftovers) announced)
      as (r & new & tried & Hrun & Hrem & [later Hlater] & Hall).
    exists r,
      (shown
       ++ (if v1
           then [Printed "Removing %d leftover document%s."
                   [PInt (Z.of_nat (size leftovers));
                    PStr (if Nat.eqb (size leftovers) 1 then ""
                          else "s")]]
           else [])
       ++ new), tried.
    split.
    { rewrite Hrun. subst announced. rewrite Hintro.
      now rewrite <- !app_assoc. }
    split.
    { unfold removed in *. rewrite !flat_map_app, Hshown, Hrem.
      destruct v1; reflexivity. }
    assert (Hnodup : NoDup (elements leftovers)) by apply NoDup_elements.
    split.
    { rewrite Hlater in Hnodup. apply NoDup_app in Hnodup. tauto. }
    split.
    { intros pk Hin.
      assert (Hpk : pk ∈ leftovers).
      { apply elem_of_elements. rewrite Hlater.
        apply elem_of_app. left. now apply list_elem_of_In. }
      subst leftovers. set_solver. }
    intros Hok. pose proof (Hall Hok) as [Hres Htried].
    split; [exact Hres|].
    intros pk Hin Hout. rewrite Htried.
    apply list_elem_of_In, elem_of_elements.
    subst leftovers. clear - Hin Hout. set_solver.
Qed.

End CleanIndexFacts.

(* --------------------------------------------------------------------- *)
(** ** Properties of the terminal colours and the output filter           *)
(* --------------------------------------------------------------------- *)

Module ShellFacts.
Import Shell.
Local Open Scope list_scope.

Lemma removelast_snoc {A} (l : list A) (x : A) : removelast (l ++ [x]) = l.
Proof. apply removelast_last. Qed.

(** Leaving a colour context puts the stack back and writes the colour
    of the enclosing context again, whether the body returned or raised,
    provided the body left the stack as it found it. *)
Theorem colored_restores {A} (start : string) (body : M terminal A)
    (t : terminal) (top : string) :
  last (stack t) = Some top ->
  (forall t0, stack (body t0).2 = stack t0) ->
  let after := colored start body t in
  after.1 = (body (__enter__ start t).2).1
  /\ stack after.2 = stack t
  /\ last (stdout after.2) = Some top
  /\ last (stderr after.2) = Some top.
Proof.
  intros Htop Hbal. simpl.
  unfold colored, with_, __enter__, __exit__, write_both. run.
  set (inside := {| stack := stack t ++ [start];
                    stdout := stdout t ++ [start];
                    stderr := stderr t ++ [start] |}).
  pose proof (Hbal inside) as Hstack. simpl in Hstack.
  destruct (body inside) as [r t1]. simpl in *.
  rewrite Hstack.
  destruct (stack t ++ [start]) as [|x l] eqn:Hl.
  { destruct (stack t); discriminate. }
  rewrite <- Hl, removelast_snoc, Htop.
  destruct r; simpl; rewrite !last_snoc; auto.
Qed.

Lemma colored_restores_witness :
  (colored MoreScenarios.blue (write_both "hello") fresh_terminal).1
  = (write_both "hello" (__enter__ MoreScenarios.blue fresh_terminal).2).1
  /\ stack (colored MoreScenarios.blue (write_both "hello")
              fresh_terminal).2
     = stack fresh_terminal
  /\ last (stdout (colored MoreScenarios.blue (write_both "hello")
                     fresh_terminal).2) = Some end_
  /\ last (stderr (colored MoreScenarios.blue (write_both "hello")
                     fresh_terminal).2) = Some end_.
Proof.
  apply (colored_restores MoreScenarios.blue (write_both "hello")
           fresh_terminal end_).
  - reflexivity.
  - intros t0. reflexivity.
Defined.

Section Filter.

Variable matches : string -> bool.

(** One [write] forwards the string or nothing, and never a match. *)
Lemma write_step (s : string) (f : filtered) :
  exists state out,
    write matches s f = (Ok tt, Filtered state (passed f ++ out))
    /\ (out = [] \/ (out = [s] /\ matches s = false)).
Proof.
  unfold write. run.
  destruct (matches s) eqn:Hm; simpl.
  - exists true, []. rewrite app_nil_r. auto.
  - destruct (blocked f); simpl.
    + destruct (has_text s); simpl.
      * exists false, [s]. auto.
      * exists false, []. rewrite app_nil_r. auto.
    + exists (blocked f), [s]. auto.
Qed.

(** A run of [write] calls. *)
Lemma writes_pass_clean (strings : list string) (f : filtered) :
  exists state new,
    for_each strings (write matches) f
    = (Ok tt, Filtered state (passed f ++ new))
    /\ Forall (fun s => matches s = false) new
    /\ sublist new strings.
Proof.
  revert f. induction strings as [|s rest IH]; intros f.
  - exists (blocked f), []. simpl. rewrite app_nil_r. destruct f.
    repeat constructor.
  - simpl. unfold bind.
    destruct (write_step s f) as (state & out & -> & Hout).
    destruct (IH (Filtered state (passed f ++ out)))
      as (state' & new & -> & Hf & Hs).
    simpl. exists state', (out ++ new). rewrite <- app_assoc.
    split; [reflexivity|].
    destruct Hout as [->|[-> Hm]]; simpl.
    + split; [exact Hf|]. now constructor.
    + split; [now constructor|]. now constructor.
Qed.

End Filter.

(** The filtered stream forwards no string that matches the pattern, and
    nothing that was not written to it: what reaches the real stream is a
    subsequence of the writes, free of matches. When nothing matches and
    the filter is not blocked, every write is forwarded. *)
Theorem filter_forwards (matches : string -> bool) (strings : list string)
    (f : filtered) :
  (exists state new,
     for_each strings (write matches) f
     = (Ok tt, Filtered state (passed f ++ new))
     /\ Forall (fun s => matches s = false) new
     /\ sublist new strings)
  /\ (blocked f = false ->
      Forall (fun s => matches s = false) strings ->
      for_each strings (write matches) f
      = (Ok tt, Filtered false (passed f ++ strings))).
Proof.
  split; [apply writes_pass_clean|].
  revert f. induction strings as [|s rest IH]; intros f Hb Hclean.
  - simpl. rewrite app_nil_r. destruct f. simpl in Hb. now subst.
  - inversion Hclean as [|? ? Hs Hrest]; subst.
    simpl. unfold bind. unfold write at 1. run. rewrite Hs, Hb. simpl.
    rewrite (IH (Filtered (blocked f) (passed f ++ [s])) Hb Hrest). simpl.
    now rewrite <- app_assoc.
Qed.

(** After a blocked write, the line end that [print] sends next is
    swallowed with it. *)
Theorem filter_swallows_line_end (matches : string -> bool)
    (line blank : string) (f : filtered) :
  matches line = true ->
  matches blank = false ->
  has_text blank = false ->
  for_each [line; blank] (write matches) f
  = (Ok tt, Filtered false (passed f)).
Proof.
  intros Hline Hblank Htext. simpl. unfold bind, write. run.
  rewrite Hline. simpl. rewrite Hblank. simpl. rewrite Htext. reflexivity.
Qed.

End ShellFacts.

(* --------------------------------------------------------------------- *)
(** ** Properties of index names                                          *)
(* --------------------------------------------------------------------- *)

Module IndexNameFacts.
Import Indexes Options IndexName.

Lemma py_truth_str (s : string) : s <> "" -> py_truth (PStr s) = true.
Proof.
  intros Hs. simpl. destruct (String.eqb_spec s ""); [contradiction|].
  reflexivity.
Qed.

Lemma append_inj_l (a b c : string) : a +:+ b = a +:+ c -> b = c.
Proof.
  induction a as [|x a IH]; simpl; [auto|]. intros [= H]. auto.
Qed.

(** Without a version, two models of one backend get the same index name
    only if they have the same app label and module name, as long as the
    names are not empty and the app labels hold no dash. *)
Theorem get_index_name_distinct (base app1 module1 app2 module2 : string) :
  base <> "" -> app1 <> "" -> module1 <> "" ->
  app2 <> "" -> module2 <> "" ->
  count_sep dash app1 = 0 -> count_sep dash app2 = 0 ->
  get_index_name base app1 module1 PNone
  = get_index_name base app2 module2 PNone ->
  app1 = app2 /\ module1 = module2.
Proof.
  intros Hb Ha1 Hm1 Ha2 Hm2 Hd1 Hd2. unfold get_index_name.
  cbn [List.filter].
  rewrite !py_truth_str by assumption. cbn [py_truth map py_str join].
  intros Heq. apply append_inj_l in Heq. injection Heq as Heq.
  assert (Hsplit : split dash 1 (app1 +:+ String dash module1)
                   = split dash 1 (app2 +:+ String dash module2))
    by now rewrite Heq.
  rewrite !IndexesFacts.split_no_sep_prefix, !IndexesFacts.split_zero
    in Hsplit by assumption.
  now injection Hsplit.
Qed.

Lemma get_index_name_distinct_witness :
  "blog" = "blog" /\ "post" = "post".
Proof.
  apply (get_index_name_distinct "haystack" "blog" "post" "blog" "post");
    first [discriminate | reflexivity].
Defined.

(** A dash in an app label can make two different models share an index
    name, and a version of 0 is left out like no version at all. *)
Theorem get_index_name_shared (base app module_name rest : string) :
  base <> "" -> app <> "" -> module_name <> "" -> rest <> "" ->
  get_index_name base (app +:+ String dash rest) module_name PNone
  = get_index_name base app (rest +:+ String dash module_name) PNone
  /\ get_index_name base app module_name (PInt 0)
     = get_index_name base app module_name PNone.
Proof.
  intros Hb Ha Hm Hr. unfold get_index_name. cbn [List.filter].
  assert (Hlong : app +:+ String dash rest <> "")
    by (destruct app; [contradiction|discriminate]).
  assert (Hlong' : rest +:+ String dash module_name <> "")
    by (destruct rest; [contradiction|discriminate]).
  rewrite !py_truth_str by assumption.
  cbn [py_truth map py_str join Z.eqb negb]. split; [|reflexivity].
  f_equal. f_equal.
  assert (Hassoc : forall a b c, (a +:+ b) +:+ c = a +:+ (b +:+ c)).
  { intros a b c. induction a as [|x a IH]; [reflexivity|].
    change (String x ((a +:+ b) +:+ c) = String x (a +:+ (b +:+ c))).
    now rewrite IH. }
  rewrite Hassoc. reflexivity.
Qed.

End IndexNameFacts.
